(** * Scene replication: NetworkObjectRegistry and ReplicationManager

    A shallow embedding of [Source/Urho3D/Replica/ReplicationManager.cpp].

    The C++ class [ReplicationManager] derives from [NetworkObjectRegistry];
    the embedding keeps both in one record.  The data members are state,
    every call that leaves the file (logging, signals, calls into
    [NetworkObject], [Node], [Scene], [AbstractConnection]) is appended to a
    trace of events kept next to the state, so that "called exactly once" and
    "nothing else happened" are statements about that trace.  A call that
    leaves the file is taken not to call back into the registry while it
    runs; the classes the manager owns ([ServerReplicator], [ClientReplica])
    are an interface whose methods act on their own state only. *)

From stdpp Require Import gmap list strings.

Set Default Proof Using "Type".

(** ** Identifiers and collaborators' data *)

(** Modelled from the spec: the reference layout lives in the tracked
    component headers.  A [NetworkId] is an (index, version) pair, which is
    what [DeconstructComponentReference] returns; [NetworkId::None] is the
    all-zero reference.  Indices are issued by the base registry and are
    far below the range of [unsigned], so [nat] is used for both parts. *)
Definition NetworkId : Type := nat * nat.

Definition NetworkId_None : NetworkId := (0, 0).

Definition DeconstructComponentReference (networkId : NetworkId) : nat * nat :=
  networkId.

(** Pointers to collaborators are addresses. *)
Definition Node : Type := nat.
Definition Scene : Type := nat.
Definition ConnectionPtr : Type := nat.

(** Modelled from the spec: [NetworkObject] is declared outside this file.
    An object is known by its address; it carries the reference the base
    registry assigned to it, the weak back-reference to its parent (kept as
    an identifier and resolved through the registry, absent when it does not
    resolve) and the scene node that owns it. *)
Record NetworkObject := mkNetworkObject {
  addr : nat;
  networkId_ : NetworkId;
  parentNetworkObject_ : option NetworkId;
  node_ : Node
}.

#[global] Instance NetworkObject_eq_dec : EqDecision NetworkObject.
Proof. solve_decision. Defined.

Definition GetNetworkId (o : NetworkObject) : NetworkId := networkId_ o.
Definition GetNode (o : NetworkObject) : Node := node_ o.

(** Modelled from the spec: the enumerations of the collaborators are
    declared outside this file.  An object is standalone, server-authoritative
    or client-observed; the manager is in one of three modes; a message is
    sent in one of four delivery classes.  Of these the file names
    [NetworkObjectMode::Standalone], the three manager modes, the three
    handshake messages and [PacketType::ReliableUnordered]. *)
Inductive NetworkObjectMode := NOM_Standalone | NOM_Server | NOM_Client.

Inductive ReplicationManagerMode := Standalone | Server | Client.

Inductive NetworkMessageId :=
| MSG_CONFIGURE
| MSG_SYNCHRONIZED
| MSG_SCENE_CLOCK
| MSG_OTHER (code : nat).

#[global] Instance NetworkMessageId_eq_dec : EqDecision NetworkMessageId.
Proof. solve_decision. Defined.

Inductive PacketType :=
| UnreliableUnordered | UnreliableOrdered | ReliableUnordered | ReliableOrdered.

Inductive LogLevel := LOG_DEBUG | LOG_INFO | LOG_WARNING | LOG_ERROR.

Inductive SceneEventType := E_SCENENETWORKUPDATE | E_SCENENETWORKPOSTUPDATE.

(** The connection as a call sees it: its address and what
    [IsClockSynchronized()] answers at that moment. *)
Record AbstractConnection := mkConnection {
  conn_addr : ConnectionPtr;
  IsClockSynchronized : bool
}.

Record MsgConfigure (VariantMap : Type) := mkMsgConfigure {
  magic_ : nat;
  settings_ : VariantMap
}.
Arguments mkMsgConfigure {VariantMap} _ _.
Arguments magic_ {VariantMap} _.
Arguments settings_ {VariantMap} _.

Record MsgSynchronized := mkMsgSynchronized { sync_magic_ : nat }.

(** The classes the manager owns or talks to but which are defined elsewhere
    ([ServerReplicator], [ClientReplica], the message serializers) are an
    interface: their state is opaque and every method is a function on it. *)
Class Collaborators := {
  VariantMap : Type;
  MsgSceneClock : Type;
  MemoryBuffer : Type;
  float : Type;
  ServerReplicator : Type;
  ClientReplica : Type;
  ReadMsgConfigure : MemoryBuffer -> MsgConfigure VariantMap;
  ReadMsgSceneClock : MemoryBuffer -> MsgSceneClock;
  MakeServerReplicator : Scene -> ServerReplicator;
  MakeClientReplica :
    Scene -> ConnectionPtr -> MsgSceneClock -> VariantMap -> ClientReplica;
  Server_ProcessMessage :
    ServerReplicator -> ConnectionPtr -> NetworkMessageId -> MemoryBuffer ->
    bool * ServerReplicator;
  Server_RemoveConnection : ServerReplicator -> ConnectionPtr -> ServerReplicator;
  Server_ProcessSceneUpdate : ServerReplicator -> SceneEventType -> ServerReplicator;
  Server_GetDebugInfo : ServerReplicator -> string;
  Replica_ProcessMessage :
    ClientReplica -> NetworkMessageId -> MemoryBuffer -> bool * ClientReplica;
  Replica_ProcessSceneUpdate : ClientReplica -> SceneEventType -> ClientReplica;
  Replica_GetDebugInfo : ClientReplica -> string
}.

(** A concrete set of collaborators, used to run the model on examples:
    a replicator remembers what it was built from and how many calls it
    received, payloads are lists of numbers. *)
Definition ExampleCollaborators : Collaborators := {|
  VariantMap := list nat;
  MsgSceneClock := nat;
  MemoryBuffer := list nat;
  float := nat;
  ServerReplicator := Scene * nat;
  ClientReplica := (Scene * ConnectionPtr * nat * list nat) * nat;
  ReadMsgConfigure := fun data => mkMsgConfigure (hd 0 data) (tl data);
  ReadMsgSceneClock := fun data => hd 0 data;
  MakeServerReplicator := fun scene => (scene, 0);
  MakeClientReplica := fun scene c clock settings => ((scene, c, clock, settings), 0);
  Server_ProcessMessage := fun s _ _ _ => (true, (fst s, S (snd s)));
  Server_RemoveConnection := fun s _ => (fst s, S (snd s));
  Server_ProcessSceneUpdate := fun s _ => (fst s, S (snd s));
  Server_GetDebugInfo := fun _ => "server"%string;
  Replica_ProcessMessage := fun r _ _ => (true, (fst r, S (snd r)));
  Replica_ProcessSceneUpdate := fun r _ => (fst r, S (snd r));
  Replica_GetDebugInfo := fun _ => "replica"%string
|}.

Section Replication.

Context {C : Collaborators}.

(** ** Effects *)

Inductive Event :=
| Log (level : LogLevel) (message : string)
| OnNetworkObjectAdded (o : NetworkObject)
| OnNetworkObjectRemoved (o : NetworkObject)
| UpdateObjectHierarchy (o : NetworkObject)
| GetWorldTransform (n : Node)
| Node_Remove (n : Node)
| SetNetworkMode (o : NetworkObject) (mode : NetworkObjectMode)
| InitializeStandalone (o : NetworkObject)
| Scene_SendEvent (eventType : SceneEventType) (timeStepReplica timeStepInput : float)
| LogMessagePayload (c : ConnectionPtr) (messageId : NetworkMessageId)
| WriteSerializedMessage
    (c : ConnectionPtr) (messageId : NetworkMessageId)
    (msg : MsgSynchronized) (packetType : PacketType).

(** ** State *)

Record ClientData := mkClientData {
  connection_ : ConnectionPtr;
  serverSettings_ : option VariantMap;
  initialClock_ : option MsgSceneClock;
  ackMagic_ : option nat;
  replica_ : option ClientReplica
}.

Record StandaloneData := mkStandaloneData {
  recentlyAddedObjects_ : gset NetworkId
}.

Record ReplicationManager := mkReplicationManager {
  scene_ : Scene;
  (* NetworkObjectRegistry and its bases *)
  trackedComponents_ : list NetworkObject;
  networkObjectsDirty_ : list bool;
  (* ReplicationManager *)
  mode_ : ReplicationManagerMode;
  standalone_ : StandaloneData;
  server_ : option ServerReplicator;
  client_ : option ClientData;
  (* everything the manager did to the outside, oldest first *)
  trace_ : list Event
}.

Definition set_tracked (l : list NetworkObject) (m : ReplicationManager) :=
  mkReplicationManager (scene_ m) l (networkObjectsDirty_ m) (mode_ m)
    (standalone_ m) (server_ m) (client_ m) (trace_ m).

Definition set_dirty (d : list bool) (m : ReplicationManager) :=
  mkReplicationManager (scene_ m) (trackedComponents_ m) d (mode_ m)
    (standalone_ m) (server_ m) (client_ m) (trace_ m).

Definition set_mode (x : ReplicationManagerMode) (m : ReplicationManager) :=
  mkReplicationManager (scene_ m) (trackedComponents_ m) (networkObjectsDirty_ m) x
    (standalone_ m) (server_ m) (client_ m) (trace_ m).

Definition set_standalone (x : StandaloneData) (m : ReplicationManager) :=
  mkReplicationManager (scene_ m) (trackedComponents_ m) (networkObjectsDirty_ m)
    (mode_ m) x (server_ m) (client_ m) (trace_ m).

Definition set_server (x : option ServerReplicator) (m : ReplicationManager) :=
  mkReplicationManager (scene_ m) (trackedComponents_ m) (networkObjectsDirty_ m)
    (mode_ m) (standalone_ m) x (client_ m) (trace_ m).

Definition set_client (x : option ClientData) (m : ReplicationManager) :=
  mkReplicationManager (scene_ m) (trackedComponents_ m) (networkObjectsDirty_ m)
    (mode_ m) (standalone_ m) (server_ m) x (trace_ m).

Definition emit (e : Event) (m : ReplicationManager) :=
  mkReplicationManager (scene_ m) (trackedComponents_ m) (networkObjectsDirty_ m)
    (mode_ m) (standalone_ m) (server_ m) (client_ m) (trace_ m ++ [e]).

(** Modelled from the spec: the constructor leaves every member at the
    initializer of its declaration, which is in the header: an empty
    registry, Standalone mode, no server and no client. *)
Definition ReplicationManager_new (scene : Scene) : ReplicationManager :=
  mkReplicationManager scene [] [] Standalone (mkStandaloneData ∅) None None [].

(** ** The base registry *)

(** Modelled from the spec: the tracked component registry is declared
    outside this file.  It lists the live components in registration order;
    a reference resolves to the component whose index it names, unless the
    slot is empty or, when versions are checked, the version differs. *)
Definition GetTrackedComponents (m : ReplicationManager) : list NetworkObject :=
  trackedComponents_ m.

Definition GetTrackedComponentByReferenceIndex
    (m : ReplicationManager) (index : nat) : option NetworkObject :=
  List.find (fun o => bool_decide ((GetNetworkId o).1 = index)) (trackedComponents_ m).

Definition GetTrackedComponentByReference
    (m : ReplicationManager) (id : NetworkId) (checkVersion : bool)
    : option NetworkObject :=
  match GetTrackedComponentByReferenceIndex m id.1 with
  | Some o =>
      if checkVersion && negb (bool_decide ((GetNetworkId o).2 = id.2))
      then None else Some o
  | None => None
  end.

(** Modelled from the spec: the base class links a component on "added" and
    unlinks it on "removed". *)
Definition Base_OnComponentAdded (o : NetworkObject) (m : ReplicationManager) :=
  set_tracked (trackedComponents_ m ++ [o]) m.

Definition Base_OnComponentRemoved (o : NetworkObject) (m : ReplicationManager) :=
  set_tracked (filter (fun x => addr x ≠ addr o) (trackedComponents_ m)) m.

(** ** NetworkObjectRegistry *)

Definition GetNetworkObjects (m : ReplicationManager) : list NetworkObject :=
  GetTrackedComponents m.

(** [checkVersion] defaults to [true] in the declaration. *)
Definition GetNetworkObject
    (m : ReplicationManager) (networkId : NetworkId) (checkVersion : bool)
    : option NetworkObject :=
  GetTrackedComponentByReference m networkId checkVersion.

Definition GetNetworkObjectByIndex (m : ReplicationManager) (networkIndex : nat)
    : option NetworkObject :=
  GetTrackedComponentByReferenceIndex m networkIndex.

(** Modelled from the spec: the parent reference resolves to a registered
    object or is treated as absent. *)
Definition GetParentNetworkObject (m : ReplicationManager) (o : NetworkObject)
    : option NetworkObject :=
  match parentNetworkObject_ o with
  | Some pid => GetNetworkObject m pid true
  | None => None
  end.

(** Modelled from the spec: children are not stored, they are the registered
    objects whose parent is the given one, found by scanning. *)
Definition GetChildrenNetworkObjects (m : ReplicationManager) (o : NetworkObject)
    : list NetworkObject :=
  filter (fun c => GetParentNetworkObject m c = Some o) (trackedComponents_ m).

(** [networkObjectsDirty_[index] = true]: a write inside the vector; stdpp's
    insert leaves the list alone out of range, where the C++ is undefined. *)
Definition NetworkObjectRegistry_OnComponentAdded
    (o : NetworkObject) (m : ReplicationManager) : ReplicationManager :=
  let m := Base_OnComponentAdded o m in
  let networkId := GetNetworkId o in
  let '(index, version) := DeconstructComponentReference networkId in
  let m :=
    if bool_decide (length (networkObjectsDirty_ m) ≤ index)
    then set_dirty (resize (index + 1) false (networkObjectsDirty_ m)) m
    else m in
  let m := set_dirty (<[index := true]> (networkObjectsDirty_ m)) m in
  let m := emit (OnNetworkObjectAdded o) m in
  emit (Log LOG_DEBUG "NetworkObject {} is added") m.

Definition QueueNetworkObjectUpdate
    (o : NetworkObject) (m : ReplicationManager) : ReplicationManager :=
  let networkId := GetNetworkId o in
  if decide (GetNetworkObject m networkId true = Some o) then
    let index := (DeconstructComponentReference networkId).1 in
    set_dirty (<[index := true]> (networkObjectsDirty_ m)) m
  else
    emit (Log LOG_WARNING "Cannot queue update for unknown NetworkObject {}") m.

Definition NetworkObjectRegistry_OnComponentRemoved
    (o : NetworkObject) (m : ReplicationManager) : ReplicationManager :=
  let m :=
    match GetParentNetworkObject m o with
    | Some parentObject =>
        if decide (GetNetworkId parentObject ≠ NetworkId_None)
        then QueueNetworkObjectUpdate parentObject m
        else m
    | None => m
    end in
  let m := emit (OnNetworkObjectRemoved o) m in
  let m := emit (Log LOG_DEBUG "NetworkObject {} is removed") m in
  Base_OnComponentRemoved o m.

(** One turn of the loop of [UpdateNetworkObjects]. *)
Definition UpdateNetworkObjects_step
    (m : ReplicationManager) (index : nat) : ReplicationManager :=
  match networkObjectsDirty_ m !! index with
  | Some true =>
      let m :=
        match GetNetworkObjectByIndex m index with
        | Some networkObject =>
            emit (GetWorldTransform (GetNode networkObject))
              (emit (UpdateObjectHierarchy networkObject) m)
        | None => m
        end in
      set_dirty (<[index := false]> (networkObjectsDirty_ m)) m
  | _ => m
  end.

(** The loop runs [index] from 0 up to the size of the vector, which no turn
    changes. *)
Definition UpdateNetworkObjects (m : ReplicationManager) : ReplicationManager :=
  foldl UpdateNetworkObjects_step m (seq 0 (length (networkObjectsDirty_ m))).

(** [GetSortedNetworkObjects]: the second loop walks the vector it appends
    to.  [i] is the loop index; the loop ends when [i] reaches the size.
    The recursion is bounded by [fuel]; [None] means the bound was hit. *)
Fixpoint GetSortedNetworkObjects_loop
    (m : ReplicationManager) (fuel i : nat) (networkObjects : list NetworkObject)
    : option (list NetworkObject) :=
  match fuel with
  | 0 => None
  | S fuel =>
      match networkObjects !! i with
      | None => Some networkObjects
      | Some x =>
          GetSortedNetworkObjects_loop m fuel (S i)
            (networkObjects ++ GetChildrenNetworkObjects m x)
      end
  end.

Definition GetSortedNetworkObjects_roots (m : ReplicationManager) : list NetworkObject :=
  filter (fun o => GetParentNetworkObject m o = None) (GetTrackedComponents m).

Definition GetSortedNetworkObjects_fuel (fuel : nat) (m : ReplicationManager)
    : option (list NetworkObject) :=
  GetSortedNetworkObjects_loop m fuel 0 (GetSortedNetworkObjects_roots m).

(** One more turn than there are registered objects is always enough (see
    [GetSortedNetworkObjects_loop_total]). *)
Definition GetSortedNetworkObjects (m : ReplicationManager) : option (list NetworkObject) :=
  GetSortedNetworkObjects_fuel (S (length (GetTrackedComponents m))) m.

(** ** ReplicationManager *)

(** Modelled from the spec: [IsStandalone] is declared in the header; the
    manager is standalone when its mode is Standalone. *)
Definition IsStandalone (m : ReplicationManager) : bool :=
  match mode_ m with Standalone => true | _ => false end.

Definition OnComponentAdded (o : NetworkObject) (m : ReplicationManager) :=
  let m := NetworkObjectRegistry_OnComponentAdded o m in
  if IsStandalone m then
    set_standalone
      (mkStandaloneData ({[GetNetworkId o]} ∪ recentlyAddedObjects_ (standalone_ m))) m
  else m.

Definition OnComponentRemoved (o : NetworkObject) (m : ReplicationManager) :=
  let m :=
    if IsStandalone m then
      set_standalone
        (mkStandaloneData (recentlyAddedObjects_ (standalone_ m) ∖ {[GetNetworkId o]})) m
    else m in
  NetworkObjectRegistry_OnComponentRemoved o m.

(** Modelled from the spec: [Node::Remove] is declared outside this file.
    Taking a node out of the scene removes the components it owns through
    the normal removal path, which is the manager's [OnComponentRemoved].
    The scene tree above the nodes is not modelled: every node that owns a
    NetworkObject is in the snapshot and is removed in its turn. *)
Definition Node_Remove_run (n : Node) (m : ReplicationManager) : ReplicationManager :=
  let m := emit (Node_Remove n) m in
  foldl (fun m o => OnComponentRemoved o m) m
    (filter (fun o => GetNode o = n) (trackedComponents_ m)).

(** Modelled from the spec: [WeakPtr<Node>] is declared outside this file.
    A node taken out of the scene is released with its components, so the
    weak pointer of the snapshot is still set exactly while the node owns a
    registered component. *)
Definition Node_alive (m : ReplicationManager) (n : Node) : bool :=
  bool_decide (Exists (fun o => GetNode o = n) (trackedComponents_ m)).

Definition RemoveAllNetworkObjects (m : ReplicationManager) : ReplicationManager :=
  let nodesToRemove := map GetNode (GetNetworkObjects m) in
  let m :=
    foldl (fun m node => if Node_alive m node then Node_Remove_run node m else m)
      m nodesToRemove in
  let m := set_dirty [] m in
  emit (Log LOG_DEBUG "{} instances of NetworkObject removed") m.

Definition InitializeObjectsStandalone_step
    (m : ReplicationManager) (networkId : NetworkId) : ReplicationManager :=
  match GetNetworkObject m networkId true with
  | None => emit (Log LOG_ERROR "Cannot find recently added NetworkObject") m
  | Some networkObject =>
      emit (InitializeStandalone networkObject)
        (emit (SetNetworkMode networkObject NOM_Standalone) m)
  end.

(** The source walks an unordered set, in an order that is not fixed; the
    model walks the identifiers in the order of [elements].  What is stated
    of the calls of a tick is stated up to this order. *)
Definition InitializeObjectsStandalone (m : ReplicationManager) : ReplicationManager :=
  let m :=
    foldl InitializeObjectsStandalone_step m
      (elements (recentlyAddedObjects_ (standalone_ m))) in
  set_standalone (mkStandaloneData ∅) m.

Definition HandleSceneUpdate
    (eventType : SceneEventType) (timeStep : float) (m : ReplicationManager)
    : ReplicationManager :=
  match mode_ m with
  | Standalone =>
      let m := InitializeObjectsStandalone m in
      emit (Scene_SendEvent eventType timeStep timeStep) m
  | Server =>
      match server_ m with
      | Some s => set_server (Some (Server_ProcessSceneUpdate s eventType)) m
      | None => m
      end
  | Client =>
      match client_ m with
      | Some c =>
          match replica_ c with
          | Some r =>
              set_client
                (Some (mkClientData (connection_ c) (serverSettings_ c) (initialClock_ c)
                         (ackMagic_ c) (Some (Replica_ProcessSceneUpdate r eventType)))) m
          | None => m
          end
      | None => m
      end
  end.

Definition OnSceneUpdate (timeStep : float) (m : ReplicationManager) :=
  HandleSceneUpdate E_SCENENETWORKUPDATE timeStep m.

Definition OnScenePostUpdate (timeStep : float) (m : ReplicationManager) :=
  UpdateNetworkObjects (HandleSceneUpdate E_SCENENETWORKPOSTUPDATE timeStep m).

Definition Stop (m : ReplicationManager) : ReplicationManager :=
  let m :=
    match client_ m with
    | Some _ => set_client None (emit (Log LOG_INFO "Stopped client for scene replication") m)
    | None => m
    end in
  let m :=
    match server_ m with
    | Some _ => set_server None (emit (Log LOG_INFO "Stopped server for scene replication") m)
    | None => m
    end in
  let m := set_standalone (mkStandaloneData ∅) m in
  set_mode Standalone m.

Definition StartStandalone (m : ReplicationManager) : ReplicationManager :=
  let m := Stop m in
  let m := set_mode Standalone m in
  let m :=
    foldl (fun m networkObject =>
             emit (InitializeStandalone networkObject)
               (emit (SetNetworkMode networkObject NOM_Standalone) m))
      m (GetNetworkObjects m) in
  emit (Log LOG_INFO "Started standalone scene replication") m.

Definition StartServer (m : ReplicationManager) : ReplicationManager :=
  let m := Stop m in
  let m := set_mode Server m in
  let m := set_server (Some (MakeServerReplicator (scene_ m))) m in
  emit (Log LOG_INFO "Started server for scene replication") m.

Definition StartClient (connectionToServer : ConnectionPtr) (m : ReplicationManager)
    : ReplicationManager :=
  let m := Stop m in
  let m := set_mode Client m in
  let m := set_client (Some (mkClientData connectionToServer None None None None)) m in
  let m := RemoveAllNetworkObjects m in
  emit (Log LOG_INFO "Started client for scene replication") m.

(** Modelled from the spec: [ClientData::IsReadyToInitialize] is declared in
    the header; the client is ready once both the settings bundle and the
    initial clock snapshot have been received. *)
Definition IsReadyToInitialize (c : ClientData) : bool :=
  bool_decide (is_Some (serverSettings_ c)) && bool_decide (is_Some (initialClock_ c)).

(** The initialization at the end of [ProcessMessageOnUninitializedClient].
    The three optionals are dereferenced; the magic token is set by the same
    message that sets the settings, so the last branch is never taken from a
    client made by [StartClient]. *)
Definition InitializeIfReady
    (connection : AbstractConnection) (c : ClientData) (m : ReplicationManager)
    : ReplicationManager :=
  if IsClockSynchronized connection && IsReadyToInitialize c then
    match initialClock_ c, serverSettings_ c, ackMagic_ c with
    | Some clock, Some settings, Some magic =>
        let replica := MakeClientReplica (scene_ m) (conn_addr connection) clock settings in
        let m :=
          set_client
            (Some (mkClientData (connection_ c) (serverSettings_ c) (initialClock_ c)
                     (ackMagic_ c) (Some replica))) m in
        emit (WriteSerializedMessage (conn_addr connection) MSG_SYNCHRONIZED
                (mkMsgSynchronized magic) ReliableUnordered) m
    | _, _, _ => set_client (Some c) m
    end
  else set_client (Some c) m.

Definition ProcessMessageOnUninitializedClient
    (connection : AbstractConnection) (messageId : NetworkMessageId)
    (messageData : MemoryBuffer) (c : ClientData) (m : ReplicationManager)
    : bool * ReplicationManager :=
  match messageId with
  | MSG_CONFIGURE =>
      let msg := ReadMsgConfigure messageData in
      let m := emit (LogMessagePayload (conn_addr connection) messageId) m in
      let c :=
        mkClientData (connection_ c) (Some (settings_ msg)) (initialClock_ c)
          (Some (magic_ msg)) (replica_ c) in
      (true, InitializeIfReady connection c m)
  | MSG_SCENE_CLOCK =>
      let msg := ReadMsgSceneClock messageData in
      let m := emit (LogMessagePayload (conn_addr connection) messageId) m in
      let c :=
        mkClientData (connection_ c) (serverSettings_ c) (Some msg)
          (ackMagic_ c) (replica_ c) in
      (true, InitializeIfReady connection c m)
  | _ => (false, m)
  end.

Definition ProcessMessage
    (connection : AbstractConnection) (messageId : NetworkMessageId)
    (messageData : MemoryBuffer) (m : ReplicationManager)
    : bool * ReplicationManager :=
  match client_ m with
  | Some c =>
      match replica_ c with
      | None => ProcessMessageOnUninitializedClient connection messageId messageData c m
      | Some r =>
          let '(handled, r) := Replica_ProcessMessage r messageId messageData in
          (handled,
           set_client
             (Some (mkClientData (connection_ c) (serverSettings_ c) (initialClock_ c)
                      (ackMagic_ c) (Some r))) m)
      end
  | None =>
      match server_ m with
      | Some s =>
          let '(handled, s) :=
            Server_ProcessMessage s (conn_addr connection) messageId messageData in
          (handled, set_server (Some s) m)
      | None => (false, m)
      end
  end.

Definition DropConnection (connection : ConnectionPtr) (m : ReplicationManager)
    : ReplicationManager :=
  match server_ m with
  | Some s => set_server (Some (Server_RemoveConnection s connection)) m
  | None =>
      match client_ m with
      | Some c =>
          if decide (connection_ c = connection) then StartStandalone m else m
      | None => m
      end
  end.

(** [ea::string::joined] and the one format string of the file. *)
Fixpoint joined (l : list string) (sep : string) : string :=
  match l with
  | [] => ""
  | [x] => x
  | x :: rest => x +:+ sep +:+ joined rest sep
  end.

Definition isEmpty {A} (l : list A) : bool :=
  match l with [] => true | _ => false end.

(** [connection] is what the weak pointer [client_->connection_] gives at the
    time of the call: [None] when the connection is gone. *)
Definition GetUninitializedClientDebugInfo_waitList
    (connection : option AbstractConnection) (c : ClientData) : list string :=
  let waitList := [] in
  let waitList :=
    match connection with
    | Some conn =>
        if negb (IsClockSynchronized conn) then waitList ++ ["system clock"] else waitList
    | None => waitList
    end in
  let waitList :=
    if negb (bool_decide (is_Some (serverSettings_ c)))
    then waitList ++ ["settings"] else waitList in
  let waitList :=
    if negb (bool_decide (is_Some (initialClock_ c))) || isEmpty waitList
    then waitList ++ ["server scene time"] else waitList in
  waitList.

Definition GetUninitializedClientDebugInfo
    (connection : option AbstractConnection) (c : ClientData) : string :=
  "Connecting... Waiting for "
    +:+ joined (GetUninitializedClientDebugInfo_waitList connection c) ", "
    +:+ "...".

Definition GetDebugInfo (connection : option AbstractConnection) (m : ReplicationManager)
    : string :=
  match client_ m, server_ m with
  | Some c, _ =>
      match replica_ c with
      | Some r => Replica_GetDebugInfo r
      | None => GetUninitializedClientDebugInfo connection c
      end
  | None, Some s => Server_GetDebugInfo s
  | None, None => ""
  end.

(** ** Vocabulary of the statements *)

(** The dirty set: the indices whose flag is set. *)
Definition IsDirty (m : ReplicationManager) (index : nat) : Prop :=
  networkObjectsDirty_ m !! index = Some true.

(** Every registered object has a flag of its own.  [OnComponentAdded]
    establishes this for the object it registers. *)
Definition DirtyCovers (m : ReplicationManager) : Prop :=
  ∀ o, o ∈ trackedComponents_ m →
       (GetNetworkId o).1 < length (networkObjectsDirty_ m).

(** [x] stands strictly before [y] in [l]. *)
Definition before (x y : NetworkObject) (l : list NetworkObject) : Prop :=
  ∃ i j, l !! i = Some x ∧ l !! j = Some y ∧ i < j.

(** [a] is the parent of [d], or the parent of its parent, and so on. *)
Inductive Ancestor (m : ReplicationManager) (a : NetworkObject) : NetworkObject → Prop :=
| Ancestor_parent d :
    GetParentNetworkObject m d = Some a → Ancestor m a d
| Ancestor_step p d :
    GetParentNetworkObject m d = Some p → Ancestor m a p → Ancestor m a d.

(** Parent links are acyclic when no object is its own ancestor. *)
Definition AcyclicParents (m : ReplicationManager) : Prop :=
  ∀ o, ¬ Ancestor m o o.

(** The invariant of the second loop of [GetSortedNetworkObjects], at loop
    index [i] with the vector holding [out]: the vector lists registered
    objects without repetition; each of its objects is a root or stands
    after its parent, which the loop has already visited; the children of
    every visited object and all roots are in the vector. *)
Record SortedInv (m : ReplicationManager) (i : nat) (out : list NetworkObject) : Prop := {
  inv_nodup : NoDup out;
  inv_tracked : ∀ x, x ∈ out → x ∈ trackedComponents_ m;
  inv_index : i ≤ length out;
  inv_parent : ∀ j x, out !! j = Some x →
    GetParentNetworkObject m x = None ∨
    ∃ p k, GetParentNetworkObject m x = Some p ∧ out !! k = Some p ∧ k < j ∧ k < i;
  inv_children : ∀ k x c, k < i → out !! k = Some x →
    c ∈ trackedComponents_ m → GetParentNetworkObject m c = Some x → c ∈ out;
  inv_roots : ∀ x, x ∈ trackedComponents_ m →
    GetParentNetworkObject m x = None → x ∈ out
}.

(** A message as the transport delivers it to [ProcessMessage]: the
    connection it came over (with its clock status at that moment), the
    message identifier and the payload. *)
Definition Delivery : Type := AbstractConnection * NetworkMessageId * MemoryBuffer.

Definition deliver (m : ReplicationManager) (d : Delivery) : ReplicationManager :=
  (ProcessMessage d.1.1 d.1.2 d.2 m).2.

Definition deliverAll (ds : list Delivery) (m : ReplicationManager) : ReplicationManager :=
  foldl deliver m ds.

(** The Synchronized acknowledgements the manager has written so far. *)
Definition ackOf (e : Event) : option (ConnectionPtr * MsgSynchronized * PacketType) :=
  match e with
  | WriteSerializedMessage c MSG_SYNCHRONIZED msg packetType => Some (c, msg, packetType)
  | _ => None
  end.

Definition SynchronizedSent (m : ReplicationManager)
    : list (ConnectionPtr * MsgSynchronized * PacketType) :=
  omap ackOf (trace_ m).

Definition GetClientReplica (m : ReplicationManager) : option ClientReplica :=
  match client_ m with
  | Some c => replica_ c
  | None => None
  end.

(** The payload of the latest Configure, and of the latest SceneClock, among
    the messages delivered. *)
Definition lastConfigure (ds : list Delivery) : option (MsgConfigure VariantMap) :=
  last (omap (fun d : Delivery =>
                match d.1.2 with
                | MSG_CONFIGURE => Some (ReadMsgConfigure d.2)
                | _ => None
                end) ds).

Definition lastSceneClock (ds : list Delivery) : option MsgSceneClock :=
  last (omap (fun d : Delivery =>
                match d.1.2 with
                | MSG_SCENE_CLOCK => Some (ReadMsgSceneClock d.2)
                | _ => None
                end) ds).

(** The replica after it has been handed the messages [ds]. *)
Definition Replica_after (r : ClientReplica) (ds : list Delivery) : ClientReplica :=
  foldl (fun r (d : Delivery) => (Replica_ProcessMessage r d.1.2 d.2).2) r ds.

(** While there is no replica, the client data holds exactly what the
    latest Configure and the latest SceneClock brought, and no
    acknowledgement has been written. *)
Definition Awaiting (m0 : ReplicationManager) (c0 : ConnectionPtr)
    (ds : list Delivery) (m : ReplicationManager) : Prop :=
  client_ m
  = Some (mkClientData c0 (settings_ <$> lastConfigure ds) (lastSceneClock ds)
            (magic_ <$> lastConfigure ds) None)
  ∧ SynchronizedSent m = SynchronizedSent m0
  ∧ scene_ m = scene_ m0.


(** [item] occurs in [s]. *)
Fixpoint lists (item s : string) : bool :=
  String.prefix item s
  || match s with
     | EmptyString => false
     | String _ rest => lists item rest
     end.

(** What C8 says of the debug string, for a client whose connection is
    alive: each of the three items is named exactly when it is outstanding. *)
Definition NamesExactlyOutstanding (conn : AbstractConnection) (c : ClientData) : Prop :=
  let info := GetUninitializedClientDebugInfo (Some conn) c in
  (lists "system clock" info = true ↔ IsClockSynchronized conn = false)
  ∧ (lists "settings" info = true ↔ serverSettings_ c = None)
  ∧ (lists "server scene time" info = true ↔ initialClock_ c = None).

(** The data members that [ReplicationManager] itself declares: the mode and
    the state that goes with each mode. *)
Definition ModeState (m : ReplicationManager)
    : ReplicationManagerMode * StandaloneData
      * option ServerReplicator * option ClientData :=
  (mode_ m, standalone_ m, server_ m, client_ m).

(** The calls of one standalone initialization, in order. *)
Definition InitializeStandalone_calls (l : list NetworkObject) : list Event :=
  flat_map (fun o => [SetNetworkMode o NOM_Standalone; InitializeStandalone o]) l.

(** The operations of the registry and the manager that other code calls. *)
Inductive Operation :=
| Call_OnComponentAdded (o : NetworkObject)
| Call_OnComponentRemoved (o : NetworkObject)
| Call_QueueNetworkObjectUpdate (o : NetworkObject)
| Call_RemoveAllNetworkObjects
| Call_UpdateNetworkObjects
| Call_OnSceneUpdate (timeStep : float)
| Call_OnScenePostUpdate (timeStep : float)
| Call_Stop
| Call_StartStandalone
| Call_StartServer
| Call_StartClient (connectionToServer : ConnectionPtr)
| Call_ProcessMessage (d : Delivery)
| Call_DropConnection (connection : ConnectionPtr).

Definition call (op : Operation) (m : ReplicationManager) : ReplicationManager :=
  match op with
  | Call_OnComponentAdded o => OnComponentAdded o m
  | Call_OnComponentRemoved o => OnComponentRemoved o m
  | Call_QueueNetworkObjectUpdate o => QueueNetworkObjectUpdate o m
  | Call_RemoveAllNetworkObjects => RemoveAllNetworkObjects m
  | Call_UpdateNetworkObjects => UpdateNetworkObjects m
  | Call_OnSceneUpdate timeStep => OnSceneUpdate timeStep m
  | Call_OnScenePostUpdate timeStep => OnScenePostUpdate timeStep m
  | Call_Stop => Stop m
  | Call_StartStandalone => StartStandalone m
  | Call_StartServer => StartServer m
  | Call_StartClient c => StartClient c m
  | Call_ProcessMessage d => deliver m d
  | Call_DropConnection c => DropConnection c m
  end.

(** The operation takes an index out of the dirty set. *)
Definition ClearsAFlag (op : Operation) (m : ReplicationManager) : Prop :=
  ∃ index, IsDirty m index ∧ ¬ IsDirty (call op m) index.

(** The operations that reach [UpdateNetworkObjects] or
    [RemoveAllNetworkObjects]. *)
Definition FlushesFlags (op : Operation) : Prop :=
  match op with
  | Call_UpdateNetworkObjects | Call_OnScenePostUpdate _
  | Call_RemoveAllNetworkObjects | Call_StartClient _ => True
  | _ => False
  end.

(** The manager with [evs] appended to its trace and nothing else changed. *)
Definition emits (evs : list Event) (m : ReplicationManager) : ReplicationManager :=
  mkReplicationManager (scene_ m) (trackedComponents_ m) (networkObjectsDirty_ m)
    (mode_ m) (standalone_ m) (server_ m) (client_ m) (trace_ m ++ evs).

(** What one turn of [InitializeObjectsStandalone] calls. *)
Definition InitializeObjectsStandalone_calls
    (m : ReplicationManager) (networkId : NetworkId) : list Event :=
  match GetNetworkObject m networkId true with
  | None => [Log LOG_ERROR "Cannot find recently added NetworkObject"]
  | Some o => [SetNetworkMode o NOM_Standalone; InitializeStandalone o]
  end.

Definition isInitializeStandalone (o : NetworkObject) (e : Event) : bool :=
  match e with
  | InitializeStandalone o' => bool_decide (o' = o)
  | _ => false
  end.

Definition isSetStandalone (o : NetworkObject) (e : Event) : bool :=
  match e with
  | SetNetworkMode o' NOM_Standalone => bool_decide (o' = o)
  | _ => false
  end.

(** How many times [evs] initializes [o] as standalone, and how many times
    it sets its mode to Standalone. *)
Definition countInitializeStandalone (o : NetworkObject) (evs : list Event) : nat :=
  length (filter (fun e => isInitializeStandalone o e = true) evs).

Definition countSetStandalone (o : NetworkObject) (evs : list Event) : nat :=
  length (filter (fun e => isSetStandalone o e = true) evs).


(** What the manager did between two states of one run. *)
Definition callsSince (before_ after_ : ReplicationManager) : list Event :=
  drop (length (trace_ before_)) (trace_ after_).

Definition addAll (os : list NetworkObject) (m : ReplicationManager) : ReplicationManager :=
  foldl (fun m o => OnComponentAdded o m) m os.

(** An operation as the engine issues it: a component is added to the
    registry only when it is not in it. *)
Definition Allowed (op : Operation) (m : ReplicationManager) : Prop :=
  match op with
  | Call_OnComponentAdded o => ∀ x, x ∈ trackedComponents_ m → addr x ≠ addr o
  | _ => True
  end.

(** The states a manager goes through, from its construction on. *)
Inductive Reachable : ReplicationManager → Prop :=
| Reachable_new scene : Reachable (ReplicationManager_new scene)
| Reachable_call op m : Reachable m → Allowed op m → Reachable (call op m).

(** ** Vocabulary of the further properties *)

(** What [HandleSceneUpdate] asserts in each branch of its switch: no server
    and no client in Standalone mode, a server in Server mode, a client in
    Client mode. *)
Definition ModeInvariant (m : ReplicationManager) : Prop :=
  match mode_ m with
  | Standalone => server_ m = None ∧ client_ m = None
  | Server => is_Some (server_ m) ∧ client_ m = None
  | Client => is_Some (client_ m) ∧ server_ m = None
  end.

(** The optionals that the end of [ProcessMessageOnUninitializedClient]
    dereferences: the magic token is held exactly when the settings are, and
    a client with a replica holds settings and clock. *)
Definition HandshakeInvariant (m : ReplicationManager) : Prop :=
  ∀ c, client_ m = Some c →
    (is_Some (serverSettings_ c) ↔ is_Some (ackMagic_ c))
    ∧ (is_Some (replica_ c) →
       is_Some (serverSettings_ c) ∧ is_Some (initialClock_ c)).

(** What one turn of [UpdateNetworkObjects] calls at [index]. *)
Definition UpdateNetworkObjects_calls (m : ReplicationManager) (index : nat)
    : list Event :=
  match networkObjectsDirty_ m !! index, GetNetworkObjectByIndex m index with
  | Some true, Some networkObject =>
      [UpdateObjectHierarchy networkObject; GetWorldTransform (GetNode networkObject)]
  | _, _ => []
  end.

(** The objects whose removal [evs] announces, in order. *)
Definition removedSignals (evs : list Event) : list NetworkObject :=
  omap (fun e => match e with OnNetworkObjectRemoved o => Some o | _ => None end) evs.

(** An operation as the scene issues it: a component enters the registry
    under an index that no registered component holds, and only a registered
    component leaves it. *)
Definition Issued (op : Operation) (m : ReplicationManager) : Prop :=
  match op with
  | Call_OnComponentAdded o =>
      ∀ x, x ∈ trackedComponents_ m →
           addr x ≠ addr o ∧ (GetNetworkId x).1 ≠ (GetNetworkId o).1
  | Call_OnComponentRemoved o => o ∈ trackedComponents_ m
  | _ => True
  end.

Inductive Runs : ReplicationManager → Prop :=
| Runs_new scene : Runs (ReplicationManager_new scene)
| Runs_call op m : Runs m → Issued op m → Runs (call op m).

(** Registered objects have addresses and indices of their own, every
    recently added identifier is the identifier of a registered object, and
    the set is used in Standalone mode only. *)
Definition BookkeepingInvariant (m : ReplicationManager) : Prop :=
  NoDup (map addr (trackedComponents_ m))
  ∧ NoDup (map (fun o => (GetNetworkId o).1) (trackedComponents_ m))
  ∧ (∀ id, id ∈ recentlyAddedObjects_ (standalone_ m) →
           ∃ o, o ∈ trackedComponents_ m ∧ GetNetworkId o = id)
  ∧ (mode_ m ≠ Standalone → recentlyAddedObjects_ (standalone_ m) = ∅).

Definition isErrorLog (e : Event) : bool :=
  match e with Log LOG_ERROR _ => true | _ => false end.

(** [o] lies on a cycle of parent links, or descends from an object that
    does. *)
Definition BelowCycle (m : ReplicationManager) (o : NetworkObject) : Prop :=
  ∃ a, Ancestor m a a ∧ (a = o ∨ Ancestor m a o).


(** The removal notifications sent since [m0] and the objects still
    registered make up the registry of [m0]. *)
Definition RemovalInvariant (m0 m : ReplicationManager) : Prop :=
  (∃ evs, trace_ m = trace_ m0 ++ evs
          ∧ removedSignals evs ++ trackedComponents_ m ≡ₚ trackedComponents_ m0)
  ∧ NoDup (map addr (trackedComponents_ m)).

End Replication.

(** ** Settings queries

    The queries that the manager forwards to the server replicator or to the
    client replica, which are declared outside this file, and the values it
    answers with when it holds neither. *)

Class SettingQueries {C : Collaborators} := {
  NetworkSetting : Type;
  Variant : Type;
  (* Variant::EMPTY *)
  Variant_EMPTY : Variant;
  Variant_GetFloat : Variant -> float;
  (* 0.0f *)
  float_zero : float;
  (* NetworkSettings::UpdateFrequency.defaultValue_.GetUInt() *)
  UpdateFrequency_defaultValue : nat;
  ServerTracingDuration : NetworkSetting;
  ClientTracingDuration : NetworkSetting;
  Server_GetUpdateFrequency : ServerReplicator -> nat;
  Server_GetSetting : ServerReplicator -> NetworkSetting -> Variant;
  Replica_GetUpdateFrequency : ClientReplica -> nat;
  Replica_GetSetting : ClientReplica -> NetworkSetting -> Variant
}.

Section Settings.

Context {C : Collaborators} {Q : SettingQueries}.

Definition GetUpdateFrequency (m : ReplicationManager) : nat :=
  match server_ m with
  | Some s => Server_GetUpdateFrequency s
  | None =>
      match client_ m with
      | Some c =>
          match replica_ c with
          | Some r => Replica_GetUpdateFrequency r
          | None => UpdateFrequency_defaultValue
          end
      | None => UpdateFrequency_defaultValue
      end
  end.

Definition GetTraceDurationInSeconds (m : ReplicationManager) : float :=
  match server_ m with
  | Some s => Variant_GetFloat (Server_GetSetting s ServerTracingDuration)
  | None =>
      match client_ m with
      | Some c =>
          match replica_ c with
          | Some r => Variant_GetFloat (Replica_GetSetting r ClientTracingDuration)
          | None => float_zero
          end
      | None => float_zero
      end
  end.

Definition GetSetting (setting : NetworkSetting) (m : ReplicationManager) : Variant :=
  match server_ m with
  | Some s => Server_GetSetting s setting
  | None =>
      match client_ m with
      | Some c =>
          match replica_ c with
          | Some r => Replica_GetSetting r setting
          | None => Variant_EMPTY
          end
      | None => Variant_EMPTY
      end
  end.

End Settings.

(** Example queries: settings and their values are numbers. *)
Definition ExampleSettingQueries : @SettingQueries ExampleCollaborators := {|
  NetworkSetting := nat;
  Variant := nat;
  Variant_EMPTY := 0;
  Variant_GetFloat := (fun v => v) : nat -> @float ExampleCollaborators;
  float_zero := 0 : @float ExampleCollaborators;
  UpdateFrequency_defaultValue := 30;
  ServerTracingDuration := 1;
  ClientTracingDuration := 2;
  Server_GetUpdateFrequency := fun s => 60;
  Server_GetSetting := fun s setting => s.1 + setting;
  Replica_GetUpdateFrequency := fun r => 20;
  Replica_GetSetting := fun r setting => r.2 + setting
|}.

(** ** Example states

    A root object A, its child B and B's child C, over the example
    collaborators; used to run the model on concrete inputs. *)

Definition exampleA : NetworkObject := mkNetworkObject 100 (1, 0) None 10.
Definition exampleB : NetworkObject := mkNetworkObject 101 (2, 0) (Some (1, 0)) 11.
Definition exampleC : NetworkObject := mkNetworkObject 102 (3, 0) (Some (2, 0)) 12.

(** The object that takes B's slot after B is gone: same index, next version. *)
Definition exampleB' : NetworkObject := mkNetworkObject 103 (2, 1) (Some (1, 0)) 13.

Definition exampleNew : @ReplicationManager ExampleCollaborators :=
  ReplicationManager_new 7.

(** Registered in the order B, C, A: the child before its parent. *)
Definition exampleABC : @ReplicationManager ExampleCollaborators :=
  addAll [exampleB; exampleC; exampleA] exampleNew.

(** B removed and its slot reused by B'. *)
Definition exampleReused : @ReplicationManager ExampleCollaborators :=
  OnComponentAdded exampleB' (OnComponentRemoved exampleB exampleABC).

Definition exampleClient : @ReplicationManager ExampleCollaborators :=
  StartClient 9 exampleABC.

Definition exampleConfigure (synchronized : bool) (magic : nat) : @Delivery ExampleCollaborators :=
  (mkConnection 9 synchronized, MSG_CONFIGURE, [magic; 60]).

Definition exampleSceneClock (synchronized : bool) : @Delivery ExampleCollaborators :=
  (mkConnection 9 synchronized, MSG_SCENE_CLOCK, [1000]).

Definition exampleOther : @Delivery ExampleCollaborators :=
  (mkConnection 9 true, MSG_OTHER 77, []).


(** A client that has received A and B from the server. *)
Definition exampleClientWithObjects : @ReplicationManager ExampleCollaborators :=
  addAll [exampleA; exampleB] (StartClient 9 exampleNew).

(** A client that holds settings and clock but got both while its clock was
    not yet synchronized. *)
Definition exampleWaiting : @ClientData ExampleCollaborators :=
  @mkClientData ExampleCollaborators 9 (Some [60]) (Some 1000) (Some 42) None.



(** Two objects D and E that name each other as parent, and F below D. *)
Definition exampleD : NetworkObject := mkNetworkObject 104 (4, 0) (Some (5, 0)) 14.
Definition exampleE : NetworkObject := mkNetworkObject 105 (5, 0) (Some (4, 0)) 15.
Definition exampleF : NetworkObject := mkNetworkObject 106 (6, 0) (Some (4, 0)) 16.

Definition exampleCyclic : @ReplicationManager ExampleCollaborators :=
  addAll [exampleA; exampleD; exampleE; exampleF] exampleNew.

(** A client that has received the scene clock over a connection whose
    clock is not synchronized yet. *)
Definition exampleClientWithClock : @ReplicationManager ExampleCollaborators :=
  deliver exampleClient (exampleSceneClock false).

Definition exampleServer : @ReplicationManager ExampleCollaborators :=
  StartServer exampleABC.

(** C4 as the spec words it: an operation that takes an index out of the
    dirty set is [UpdateNetworkObjects] (or the post-update handler, which
    ends with it). *)
Definition OnlyUpdateNetworkObjectsClearsFlags {C : Collaborators} : Prop :=
  ∀ (op : Operation) (m : ReplicationManager),
    ClearsAFlag op m →
    op = Call_UpdateNetworkObjects ∨ ∃ timeStep, op = Call_OnScenePostUpdate timeStep.



(** * DebugRenderer

    The debug geometry of [Graphics/DebugRenderer.cpp]: the four vectors of
    lines and triangles and the functions that fill and empty them.  The
    camera, the vertex buffer and the draw queue are outside the model, and
    so is the capacity of the vectors. *)

(** The types the renderer takes from the math library: [float], and
    [Color] with its conversion to a packed unsigned value. *)
Class Numbers := {
  Float : Type;
  Color : Type;
  ToUInt : Color -> N
}.

Section DebugGeometry.

Context {G : Numbers}.

Record Vector3 := mkVector3 { x_ : Float; y_ : Float; z_ : Float }.

Record BoundingBox := mkBoundingBox { min_ : Vector3; max_ : Vector3 }.

(** [Vector3 vertices_[NUM_FRUSTUM_VERTICES]], read at constant indices. *)
Record Frustum := mkFrustum { vertices_ : nat -> Vector3 }.

Record Polyhedron := mkPolyhedron { faces_ : list (list Vector3) }.

Record DebugLine := mkDebugLine {
  start_ : Vector3;
  end_ : Vector3;
  color_ : N
}.

Record DebugTriangle := mkDebugTriangle {
  v1_ : Vector3;
  v2_ : Vector3;
  v3_ : Vector3;
  triangle_color_ : N
}.

Record DebugRenderer := mkDebugRenderer {
  lines_ : list DebugLine;
  noDepthLines_ : list DebugLine;
  triangles_ : list DebugTriangle;
  noDepthTriangles_ : list DebugTriangle
}.

Definition MAX_LINES : Z := 1000000.
Definition MAX_TRIANGLES : Z := 100000.

(** [size()] of a vector. *)
Definition size {A} (v : list A) : Z := Z.of_nat (length v).

(** The constructor leaves the four vectors as they are constructed: empty. *)
Definition DebugRenderer_new : DebugRenderer := mkDebugRenderer [] [] [] [].

Definition AddLine (start end' : Vector3) (color : N) (depthTest : bool)
    (r : DebugRenderer) : DebugRenderer :=
  if (MAX_LINES <=? size (lines_ r) + size (noDepthLines_ r))%Z then r
  else if depthTest then
    mkDebugRenderer (lines_ r ++ [mkDebugLine start end' color]) (noDepthLines_ r)
      (triangles_ r) (noDepthTriangles_ r)
  else
    mkDebugRenderer (lines_ r) (noDepthLines_ r ++ [mkDebugLine start end' color])
      (triangles_ r) (noDepthTriangles_ r).

Definition AddLine_Color (start end' : Vector3) (color : Color) (depthTest : bool)
    (r : DebugRenderer) : DebugRenderer :=
  AddLine start end' (ToUInt color) depthTest r.

Definition AddTriangle (v1 v2 v3 : Vector3) (color : N) (depthTest : bool)
    (r : DebugRenderer) : DebugRenderer :=
  if (MAX_TRIANGLES <=? size (triangles_ r) + size (noDepthTriangles_ r))%Z then r
  else if depthTest then
    mkDebugRenderer (lines_ r) (noDepthLines_ r)
      (triangles_ r ++ [mkDebugTriangle v1 v2 v3 color]) (noDepthTriangles_ r)
  else
    mkDebugRenderer (lines_ r) (noDepthLines_ r)
      (triangles_ r) (noDepthTriangles_ r ++ [mkDebugTriangle v1 v2 v3 color]).

Definition AddTriangle_Color (v1 v2 v3 : Vector3) (color : Color) (depthTest : bool)
    (r : DebugRenderer) : DebugRenderer :=
  AddTriangle v1 v2 v3 (ToUInt color) depthTest r.

Definition AddPolygon (v1 v2 v3 v4 : Vector3) (color : N) (depthTest : bool)
    (r : DebugRenderer) : DebugRenderer :=
  let r := AddTriangle v1 v2 v3 color depthTest r in
  AddTriangle v3 v4 v1 color depthTest r.

Definition AddPolygon_Color (v1 v2 v3 v4 : Vector3) (color : Color) (depthTest : bool)
    (r : DebugRenderer) : DebugRenderer :=
  let r := AddTriangle_Color v1 v2 v3 color depthTest r in
  AddTriangle_Color v3 v4 v1 color depthTest r.

Definition AddBoundingBox (box : BoundingBox) (color : Color) (depthTest solid : bool)
    (r : DebugRenderer) : DebugRenderer :=
  let min := min_ box in
  let max := max_ box in
  let v1 := mkVector3 (x_ max) (y_ min) (z_ min) in
  let v2 := mkVector3 (x_ max) (y_ max) (z_ min) in
  let v3 := mkVector3 (x_ min) (y_ max) (z_ min) in
  let v4 := mkVector3 (x_ min) (y_ min) (z_ max) in
  let v5 := mkVector3 (x_ max) (y_ min) (z_ max) in
  let v6 := mkVector3 (x_ min) (y_ max) (z_ max) in
  let uintColor := ToUInt color in
  if negb solid then
    let r := AddLine min v1 uintColor depthTest r in
    let r := AddLine v1 v2 uintColor depthTest r in
    let r := AddLine v2 v3 uintColor depthTest r in
    let r := AddLine v3 min uintColor depthTest r in
    let r := AddLine v4 v5 uintColor depthTest r in
    let r := AddLine v5 max uintColor depthTest r in
    let r := AddLine max v6 uintColor depthTest r in
    let r := AddLine v6 v4 uintColor depthTest r in
    let r := AddLine min v4 uintColor depthTest r in
    let r := AddLine v1 v5 uintColor depthTest r in
    let r := AddLine v2 max uintColor depthTest r in
    AddLine v3 v6 uintColor depthTest r
  else
    let r := AddPolygon min v1 v2 v3 uintColor depthTest r in
    let r := AddPolygon v4 v5 max v6 uintColor depthTest r in
    let r := AddPolygon min v4 v6 v3 uintColor depthTest r in
    let r := AddPolygon v1 v5 max v2 uintColor depthTest r in
    let r := AddPolygon v3 v2 max v6 uintColor depthTest r in
    AddPolygon min v1 v5 v4 uintColor depthTest r.

(** The overload with a transform; [transform] is the action of the matrix
    on a point, [transform * v]. *)
Definition AddBoundingBox_transform (box : BoundingBox) (transform : Vector3 -> Vector3)
    (color : Color) (depthTest solid : bool) (r : DebugRenderer) : DebugRenderer :=
  let min := min_ box in
  let max := max_ box in
  let v0 := transform min in
  let v1 := transform (mkVector3 (x_ max) (y_ min) (z_ min)) in
  let v2 := transform (mkVector3 (x_ max) (y_ max) (z_ min)) in
  let v3 := transform (mkVector3 (x_ min) (y_ max) (z_ min)) in
  let v4 := transform (mkVector3 (x_ min) (y_ min) (z_ max)) in
  let v5 := transform (mkVector3 (x_ max) (y_ min) (z_ max)) in
  let v6 := transform (mkVector3 (x_ min) (y_ max) (z_ max)) in
  let v7 := transform max in
  let uintColor := ToUInt color in
  if negb solid then
    let r := AddLine v0 v1 uintColor depthTest r in
    let r := AddLine v1 v2 uintColor depthTest r in
    let r := AddLine v2 v3 uintColor depthTest r in
    let r := AddLine v3 v0 uintColor depthTest r in
    let r := AddLine v4 v5 uintColor depthTest r in
    let r := AddLine v5 v7 uintColor depthTest r in
    let r := AddLine v7 v6 uintColor depthTest r in
    let r := AddLine v6 v4 uintColor depthTest r in
    let r := AddLine v0 v4 uintColor depthTest r in
    let r := AddLine v1 v5 uintColor depthTest r in
    let r := AddLine v2 v7 uintColor depthTest r in
    AddLine v3 v6 uintColor depthTest r
  else
    let r := AddPolygon v0 v1 v2 v3 uintColor depthTest r in
    let r := AddPolygon v4 v5 v7 v6 uintColor depthTest r in
    let r := AddPolygon v0 v4 v6 v3 uintColor depthTest r in
    let r := AddPolygon v1 v5 v7 v2 uintColor depthTest r in
    let r := AddPolygon v3 v2 v7 v6 uintColor depthTest r in
    AddPolygon v0 v1 v5 v4 uintColor depthTest r.

Definition AddFrustum (frustum : Frustum) (color : Color) (depthTest : bool)
    (r : DebugRenderer) : DebugRenderer :=
  let vertices := vertices_ frustum in
  let uintColor := ToUInt color in
  let r := AddLine (vertices 0) (vertices 1) uintColor depthTest r in
  let r := AddLine (vertices 1) (vertices 2) uintColor depthTest r in
  let r := AddLine (vertices 2) (vertices 3) uintColor depthTest r in
  let r := AddLine (vertices 3) (vertices 0) uintColor depthTest r in
  let r := AddLine (vertices 4) (vertices 5) uintColor depthTest r in
  let r := AddLine (vertices 5) (vertices 6) uintColor depthTest r in
  let r := AddLine (vertices 6) (vertices 7) uintColor depthTest r in
  let r := AddLine (vertices 7) (vertices 4) uintColor depthTest r in
  let r := AddLine (vertices 0) (vertices 4) uintColor depthTest r in
  let r := AddLine (vertices 1) (vertices 5) uintColor depthTest r in
  let r := AddLine (vertices 2) (vertices 6) uintColor depthTest r in
  AddLine (vertices 3) (vertices 7) uintColor depthTest r.

(** The inner loop of [AddPolyhedron] over one face.  [face[j]] reads inside
    the vector for every [j] the loop reaches, so the last branch of the
    match is never taken. *)
Definition AddPolyhedron_face (uintColor : N) (depthTest : bool)
    (r : DebugRenderer) (face : list Vector3) : DebugRenderer :=
  if bool_decide (3 ≤ length face) then
    foldl (fun r j =>
             match face !! j, face !! ((j + 1) `mod` length face) with
             | Some a, Some b => AddLine a b uintColor depthTest r
             | _, _ => r
             end)
      r (seq 0 (length face))
  else r.

Definition AddPolyhedron (poly : Polyhedron) (color : Color) (depthTest : bool)
    (r : DebugRenderer) : DebugRenderer :=
  let uintColor := ToUInt color in
  foldl (AddPolyhedron_face uintColor depthTest) r (faces_ poly).

Definition HasContent (r : DebugRenderer) : bool :=
  negb (isEmpty (lines_ r) && isEmpty (noDepthLines_ r)
        && isEmpty (triangles_ r) && isEmpty (noDepthTriangles_ r)).

(** The four [clear()] calls; the [reserve] calls that follow act on the
    capacity only. *)
Definition HandleEndFrame (r : DebugRenderer) : DebugRenderer :=
  mkDebugRenderer [] [] [] [].

(** ** Vocabulary of the statements *)

(** The calls that add or drop debug geometry. *)
Inductive Drawing :=
| Draw_AddLine (start end' : Vector3) (color : N) (depthTest : bool)
| Draw_AddLine_Color (start end' : Vector3) (color : Color) (depthTest : bool)
| Draw_AddTriangle (v1 v2 v3 : Vector3) (color : N) (depthTest : bool)
| Draw_AddTriangle_Color (v1 v2 v3 : Vector3) (color : Color) (depthTest : bool)
| Draw_AddPolygon (v1 v2 v3 v4 : Vector3) (color : N) (depthTest : bool)
| Draw_AddPolygon_Color (v1 v2 v3 v4 : Vector3) (color : Color) (depthTest : bool)
| Draw_AddBoundingBox (box : BoundingBox) (color : Color) (depthTest solid : bool)
| Draw_AddBoundingBox_transform
    (box : BoundingBox) (transform : Vector3 -> Vector3) (color : Color)
    (depthTest solid : bool)
| Draw_AddFrustum (frustum : Frustum) (color : Color) (depthTest : bool)
| Draw_AddPolyhedron (poly : Polyhedron) (color : Color) (depthTest : bool)
| Draw_HandleEndFrame.

Definition draw (op : Drawing) (r : DebugRenderer) : DebugRenderer :=
  match op with
  | Draw_AddLine start end' color depthTest => AddLine start end' color depthTest r
  | Draw_AddLine_Color start end' color depthTest =>
      AddLine_Color start end' color depthTest r
  | Draw_AddTriangle v1 v2 v3 color depthTest => AddTriangle v1 v2 v3 color depthTest r
  | Draw_AddTriangle_Color v1 v2 v3 color depthTest =>
      AddTriangle_Color v1 v2 v3 color depthTest r
  | Draw_AddPolygon v1 v2 v3 v4 color depthTest =>
      AddPolygon v1 v2 v3 v4 color depthTest r
  | Draw_AddPolygon_Color v1 v2 v3 v4 color depthTest =>
      AddPolygon_Color v1 v2 v3 v4 color depthTest r
  | Draw_AddBoundingBox box color depthTest solid =>
      AddBoundingBox box color depthTest solid r
  | Draw_AddBoundingBox_transform box transform color depthTest solid =>
      AddBoundingBox_transform box transform color depthTest solid r
  | Draw_AddFrustum frustum color depthTest => AddFrustum frustum color depthTest r
  | Draw_AddPolyhedron poly color depthTest => AddPolyhedron poly color depthTest r
  | Draw_HandleEndFrame => HandleEndFrame r
  end.

Definition drawAll (ops : list Drawing) (r : DebugRenderer) : DebugRenderer :=
  foldl (fun r op => draw op r) r ops.

(** Both caps hold. *)
Definition WithinCaps (r : DebugRenderer) : Prop :=
  (size (lines_ r) + size (noDepthLines_ r) ≤ MAX_LINES)%Z
  ∧ (size (triangles_ r) + size (noDepthTriangles_ r) ≤ MAX_TRIANGLES)%Z.

(** Nothing that [r] holds is dropped or moved in [r']. *)
Definition Keeps (r r' : DebugRenderer) : Prop :=
  lines_ r `prefix_of` lines_ r'
  ∧ noDepthLines_ r `prefix_of` noDepthLines_ r'
  ∧ triangles_ r `prefix_of` triangles_ r'
  ∧ noDepthTriangles_ r `prefix_of` noDepthTriangles_ r'.

(** How many more lines, and how many more triangles, the caps leave room for. *)
Definition lineRoom (r : DebugRenderer) : nat :=
  Z.to_nat (MAX_LINES - (size (lines_ r) + size (noDepthLines_ r))).

Definition triangleRoom (r : DebugRenderer) : nat :=
  Z.to_nat (MAX_TRIANGLES - (size (triangles_ r) + size (noDepthTriangles_ r))).

(** The renderer with as many of [ls] stored as the cap allows, in the
    vector that [depthTest] selects. *)
Definition withLines (ls : list DebugLine) (depthTest : bool) (r : DebugRenderer)
    : DebugRenderer :=
  if depthTest then
    mkDebugRenderer (lines_ r ++ take (lineRoom r) ls) (noDepthLines_ r)
      (triangles_ r) (noDepthTriangles_ r)
  else
    mkDebugRenderer (lines_ r) (noDepthLines_ r ++ take (lineRoom r) ls)
      (triangles_ r) (noDepthTriangles_ r).

Definition withTriangles (ts : list DebugTriangle) (depthTest : bool) (r : DebugRenderer)
    : DebugRenderer :=
  if depthTest then
    mkDebugRenderer (lines_ r) (noDepthLines_ r)
      (triangles_ r ++ take (triangleRoom r) ts) (noDepthTriangles_ r)
  else
    mkDebugRenderer (lines_ r) (noDepthLines_ r)
      (triangles_ r) (noDepthTriangles_ r ++ take (triangleRoom r) ts).

(** A corner of a box: for each axis, whether it takes the coordinate of
    [max_] rather than of [min_]. *)
Definition Corner : Type := bool * bool * bool.

Definition boxCorner (box : BoundingBox) (c : Corner) : Vector3 :=
  mkVector3 (if c.1.1 then x_ (max_ box) else x_ (min_ box))
            (if c.1.2 then y_ (max_ box) else y_ (min_ box))
            (if c.2 then z_ (max_ box) else z_ (min_ box)).

(** On how many axes two corners differ. *)
Definition axesApart (a b : Corner) : nat :=
  (if bool_decide (a.1.1 = b.1.1) then 0 else 1)
  + (if bool_decide (a.1.2 = b.1.2) then 0 else 1)
  + (if bool_decide (a.2 = b.2) then 0 else 1).

(** The corner lies on the side of the box where the coordinate of [axis]
    (0, 1, 2 for x, y, z) is that of [max_] or, for [false], of [min_]. *)
Definition onSide (axis : nat) (side : bool) (c : Corner) : bool :=
  match axis with
  | 0 => bool_decide (c.1.1 = side)
  | 1 => bool_decide (c.1.2 = side)
  | _ => bool_decide (c.2 = side)
  end.

(** A quadrilateral of corners goes around one side of the box: its corners
    lie on that side and each is one axis apart from the next. *)
Definition aroundSide (axis : nat) (side : bool) (q : Corner * Corner * Corner * Corner)
    : bool :=
  let '(a, b, c, d) := q in
  forallb (onSide axis side) [a; b; c; d]
  && forallb (fun p : Corner * Corner => bool_decide (axesApart p.1 p.2 = 1))
       [(a, b); (b, c); (c, d); (d, a)].

(** The two triangles that [AddPolygon] makes of a quadrilateral. *)
Definition polygonTriangles (color : N) (q : Vector3 * Vector3 * Vector3 * Vector3)
    : list DebugTriangle :=
  let '(v1, v2, v3, v4) := q in
  [mkDebugTriangle v1 v2 v3 color; mkDebugTriangle v3 v4 v1 color].

(** The closed loop through the vertices of a face: a line from each vertex
    to the next and from the last to the first. *)
Definition faceLoop (color : N) (face : list Vector3) : list DebugLine :=
  if bool_decide (3 ≤ length face)
  then zip_with (fun a b => mkDebugLine a b color) face (rotate 1 face)
  else [].

End DebugGeometry.

(** Example numbers: integers for floats, the packed value for a color. *)
Definition ExampleNumbers : Numbers := {|
  Float := Z;
  Color := N;
  ToUInt := fun c => c
|}.

Definition exampleVector (x y z : Z) : @Vector3 ExampleNumbers :=
  @mkVector3 ExampleNumbers x y z.

Definition exampleBox : @BoundingBox ExampleNumbers :=
  mkBoundingBox (exampleVector 0 0 0) (exampleVector 1 2 3).

Definition exampleFace : list (@Vector3 ExampleNumbers) :=
  [exampleVector 0 0 0; exampleVector 1 0 0; exampleVector 1 1 0; exampleVector 0 1 0].

(** Unfolds the field updates so that projections compute. *)
Ltac unfold_setters :=
  unfold set_tracked, set_dirty, set_mode, set_standalone, set_server, set_client, emit;
  simpl.

(** Settles a decidable closed proposition by evaluating its decision. *)
Ltac decide_by_computation :=
  match goal with |- ?P => apply (bool_decide_unpack P); vm_compute; exact I end.

(** * Properties *)

Section Properties.

Context {C : Collaborators}.

(** ** UpdateNetworkObjects *)

Lemma UpdateNetworkObjects_step_tracked (m : ReplicationManager) i :
  trackedComponents_ (UpdateNetworkObjects_step m i) = trackedComponents_ m.
Proof.
  unfold UpdateNetworkObjects_step.
  destruct (networkObjectsDirty_ m !! i) as [[|]|]; try reflexivity.
  destruct (GetNetworkObjectByIndex m i); reflexivity.
Qed.

(** Whatever the flag was and whether or not the index still resolves, a
    turn of the loop leaves the flag at [false]. *)
Lemma UpdateNetworkObjects_step_dirty (m : ReplicationManager) i :
  networkObjectsDirty_ (UpdateNetworkObjects_step m i)
  = <[i := false]> (networkObjectsDirty_ m).
Proof.
  unfold UpdateNetworkObjects_step.
  destruct (networkObjectsDirty_ m !! i) as [[|]|] eqn:E.
  - destruct (GetNetworkObjectByIndex m i); reflexivity.
  - symmetry. by apply list_insert_id.
  - symmetry. apply list_insert_ge. by apply lookup_ge_None.
Qed.

Lemma UpdateNetworkObjects_step_clean (m : ReplicationManager) i :
  ¬ IsDirty m i → UpdateNetworkObjects_step m i = m.
Proof.
  unfold IsDirty, UpdateNetworkObjects_step. intros H.
  destruct (networkObjectsDirty_ m !! i) as [[|]|]; congruence.
Qed.

Lemma UpdateNetworkObjects_loop_clean l (m : ReplicationManager) :
  (∀ i, ¬ IsDirty m i) → foldl UpdateNetworkObjects_step m l = m.
Proof.
  intros H. induction l as [|i l IH]; simpl; [done|].
  rewrite UpdateNetworkObjects_step_clean; auto.
Qed.

Lemma UpdateNetworkObjects_loop_dirty l (m : ReplicationManager) :
  networkObjectsDirty_ (foldl UpdateNetworkObjects_step m l)
  = foldl (fun d i => <[i := false]> d) (networkObjectsDirty_ m) l.
Proof.
  revert m. induction l as [|i l IH]; intros m; simpl; [done|].
  by rewrite IH, UpdateNetworkObjects_step_dirty.
Qed.

Lemma clear_flags_length l (d : list bool) :
  length (foldl (fun d i => <[i := false]> d) d l) = length d.
Proof.
  revert d. induction l as [|i l IH]; intros d; simpl; [done|].
  by rewrite IH, length_insert.
Qed.

Lemma clear_flags_lookup l (d : list bool) j :
  j ∈ l ∨ d !! j = Some false → j < length d →
  foldl (fun d i => <[i := false]> d) d l !! j = Some false.
Proof.
  revert d. induction l as [|i l IH]; intros d H Hlt; simpl.
  - destruct H as [H|H]; [by apply elem_of_nil in H|done].
  - apply IH; [|by rewrite length_insert].
    destruct (decide (i = j)) as [->|Hne].
    + right. by apply list_lookup_insert_eq.
    + rewrite list_lookup_insert_ne by done.
      destruct H as [H|H]; [|by right].
      apply elem_of_cons in H as [->|H]; [done|by left].
Qed.

Lemma UpdateNetworkObjects_dirty (m : ReplicationManager) :
  networkObjectsDirty_ (UpdateNetworkObjects m)
  = replicate (length (networkObjectsDirty_ m)) false.
Proof.
  unfold UpdateNetworkObjects. rewrite UpdateNetworkObjects_loop_dirty.
  apply list_eq. intros j.
  destruct (Nat.lt_ge_cases j (length (networkObjectsDirty_ m))) as [Hlt|Hge].
  - rewrite clear_flags_lookup; [|left; apply elem_of_seq; lia|done].
    symmetry. by apply lookup_replicate_2.
  - rewrite !lookup_ge_None_2; [done| |].
    + by rewrite length_replicate.
    + by rewrite clear_flags_length.
Qed.

(** C3: after [UpdateNetworkObjects] every entry of the dirty vector is
    [false] (the vector keeps its size, so this includes the entries whose
    index resolves to no object), and a second call changes nothing: neither
    the registry nor the trace of calls made. *)
Theorem UpdateNetworkObjects_clears_all_and_is_idempotent (m : ReplicationManager) :
  length (networkObjectsDirty_ (UpdateNetworkObjects m)) = length (networkObjectsDirty_ m)
  ∧ Forall (fun flag => flag = false) (networkObjectsDirty_ (UpdateNetworkObjects m))
  ∧ (∀ index, IsDirty m index → GetNetworkObjectByIndex m index = None →
              networkObjectsDirty_ (UpdateNetworkObjects m) !! index = Some false)
  ∧ UpdateNetworkObjects (UpdateNetworkObjects m) = UpdateNetworkObjects m.
Proof.
  pose proof (UpdateNetworkObjects_dirty m) as Hd.
  split; [by rewrite Hd, length_replicate|].
  split; [rewrite Hd; apply Forall_forall; by intros b [-> _]%elem_of_replicate|].
  split.
  - intros i Hi _. rewrite Hd. apply lookup_replicate_2.
    unfold IsDirty in Hi. by apply lookup_lt_Some in Hi.
  - unfold UpdateNetworkObjects at 1. apply UpdateNetworkObjects_loop_clean.
    intros i. unfold IsDirty. rewrite Hd. intros [? _]%lookup_replicate. done.
Qed.

(** ** QueueNetworkObjectUpdate *)

Lemma GetTrackedComponentByReferenceIndex_elem (m : ReplicationManager) i o :
  GetTrackedComponentByReferenceIndex m i = Some o →
  o ∈ trackedComponents_ m ∧ (GetNetworkId o).1 = i.
Proof.
  unfold GetTrackedComponentByReferenceIndex. intros H.
  apply find_some in H as [Hin Hi]. split.
  - by apply list_elem_of_In.
  - by apply bool_decide_eq_true_1 in Hi.
Qed.

Lemma GetNetworkObject_elem (m : ReplicationManager) id check o :
  GetNetworkObject m id check = Some o →
  o ∈ trackedComponents_ m ∧ (GetNetworkId o).1 = id.1.
Proof.
  unfold GetNetworkObject, GetTrackedComponentByReference. intros H.
  destruct (GetTrackedComponentByReferenceIndex m id.1) as [x|] eqn:E; [|done].
  apply GetTrackedComponentByReferenceIndex_elem in E.
  destruct (check && _); [done|]. by inversion H; subst.
Qed.

(** C6: a pointer that is not the object registered under its own
    identifier (the slot is empty, holds another version, or holds another
    object) leaves the registry as it was and only logs a warning, so no
    flag changes; the registered object itself gets its own flag set and no
    other flag changes. *)
Theorem QueueNetworkObjectUpdate_guards_stale_pointers
    (o : NetworkObject) (m : ReplicationManager) :
  (GetNetworkObject m (GetNetworkId o) true ≠ Some o →
     QueueNetworkObjectUpdate o m
     = emit (Log LOG_WARNING "Cannot queue update for unknown NetworkObject {}") m
     ∧ networkObjectsDirty_ (QueueNetworkObjectUpdate o m) = networkObjectsDirty_ m)
  ∧ (GetNetworkObject m (GetNetworkId o) true = Some o → DirtyCovers m →
     IsDirty (QueueNetworkObjectUpdate o m) (GetNetworkId o).1
     ∧ (∀ j, j ≠ (GetNetworkId o).1 →
             networkObjectsDirty_ (QueueNetworkObjectUpdate o m) !! j
             = networkObjectsDirty_ m !! j)
     ∧ length (networkObjectsDirty_ (QueueNetworkObjectUpdate o m))
       = length (networkObjectsDirty_ m)
     ∧ trace_ (QueueNetworkObjectUpdate o m) = trace_ m
     ∧ trackedComponents_ (QueueNetworkObjectUpdate o m) = trackedComponents_ m).
Proof.
  unfold QueueNetworkObjectUpdate. split.
  - intros Hne. rewrite decide_False by done. done.
  - intros Heq Hcov. rewrite decide_True by done. simpl.
    apply GetNetworkObject_elem in Heq as [Hin _].
    specialize (Hcov _ Hin). unfold IsDirty, DeconstructComponentReference. simpl.
    split; [by apply list_lookup_insert_eq|].
    split; [intros j Hj; by apply list_lookup_insert_ne|].
    split; [apply length_insert|done].
Qed.

(** ** GetSortedNetworkObjects *)

Lemma elem_of_GetChildrenNetworkObjects (m : ReplicationManager) x c :
  c ∈ GetChildrenNetworkObjects m x
  ↔ GetParentNetworkObject m c = Some x ∧ c ∈ trackedComponents_ m.
Proof. unfold GetChildrenNetworkObjects. by rewrite list_elem_of_filter. Qed.

Lemma elem_of_GetSortedNetworkObjects_roots (m : ReplicationManager) x :
  x ∈ GetSortedNetworkObjects_roots m
  ↔ GetParentNetworkObject m x = None ∧ x ∈ trackedComponents_ m.
Proof. unfold GetSortedNetworkObjects_roots. by rewrite list_elem_of_filter. Qed.

Lemma GetParentNetworkObject_elem (m : ReplicationManager) c p :
  GetParentNetworkObject m c = Some p → p ∈ trackedComponents_ m.
Proof.
  unfold GetParentNetworkObject. destruct (parentNetworkObject_ c); [|done].
  intros H. by apply GetNetworkObject_elem in H as [? _].
Qed.

Lemma SortedInv_init (m : ReplicationManager) :
  NoDup (trackedComponents_ m) → SortedInv m 0 (GetSortedNetworkObjects_roots m).
Proof.
  intros Hnd. split.
  - by apply NoDup_filter.
  - intros x Hx. by apply elem_of_GetSortedNetworkObjects_roots in Hx as [_ ?].
  - lia.
  - intros j x Hx. left.
    apply list_elem_of_lookup_2 in Hx.
    by apply elem_of_GetSortedNetworkObjects_roots in Hx as [? _].
  - intros k x c Hk. lia.
  - intros x Hin Hroot. by apply elem_of_GetSortedNetworkObjects_roots.
Qed.

Lemma SortedInv_step (m : ReplicationManager) i out x :
  NoDup (trackedComponents_ m) →
  SortedInv m i out → out !! i = Some x →
  SortedInv m (S i) (out ++ GetChildrenNetworkObjects m x).
Proof.
  intros Hnd [I1 I2 I3 I4 I5 I6] Hx.
  pose proof (lookup_lt_Some _ _ _ Hx) as Hlt.
  split.
  - apply NoDup_app. split; [done|]. split.
    + intros c Hc Hchild.
      apply elem_of_GetChildrenNetworkObjects in Hchild as [Hpar _].
      apply list_elem_of_lookup_1 in Hc as [j Hj].
      destruct (I4 _ _ Hj) as [Hroot|(p & k & Hp & Hk & _ & Hki)]; [congruence|].
      assert (p = x) as -> by congruence.
      pose proof (proj1 (NoDup_alt out) I1 _ _ _ Hk Hx). lia.
    + by apply NoDup_filter.
  - intros c [Hc|Hc]%elem_of_app; [by apply I2|].
    by apply elem_of_GetChildrenNetworkObjects in Hc as [_ ?].
  - rewrite length_app. lia.
  - intros j c Hj.
    apply lookup_app_Some in Hj as [Hj|[Hge Hj]].
    + destruct (I4 _ _ Hj) as [Hroot|(p & k & Hp & Hk & Hkj & Hki)]; [by left|].
      right. exists p, k. split; [done|]. split; [|lia].
      rewrite lookup_app_l; [done|]. by apply lookup_lt_Some in Hk.
    + apply list_elem_of_lookup_2, elem_of_GetChildrenNetworkObjects in Hj as [Hpar _].
      right. exists x, i. split; [done|]. split; [|lia].
      by rewrite lookup_app_l.
  - intros k y c Hk Hy Hc Hpar. apply elem_of_app.
    destruct (decide (k = i)) as [->|Hne].
    + rewrite lookup_app_l in Hy by done.
      assert (y = x) as -> by congruence.
      right. by apply elem_of_GetChildrenNetworkObjects.
    + left. assert (k < i) as Hki by lia.
      rewrite lookup_app_l in Hy by lia.
      by eapply I5.
  - intros y Hy Hroot. apply elem_of_app. left. by apply I6.
Qed.

Lemma SortedInv_length (m : ReplicationManager) i out :
  NoDup (trackedComponents_ m) → SortedInv m i out →
  length out ≤ length (trackedComponents_ m).
Proof.
  intros Hnd [I1 I2 _ _ _ _].
  apply submseteq_length, NoDup_submseteq; done.
Qed.

(** The loop ends: with more fuel than objects still to visit it returns,
    and the invariant holds with every position visited. *)
Lemma GetSortedNetworkObjects_loop_total (m : ReplicationManager) fuel i out :
  NoDup (trackedComponents_ m) → SortedInv m i out →
  length (trackedComponents_ m) < fuel + i →
  ∃ sorted, GetSortedNetworkObjects_loop m fuel i out = Some sorted
            ∧ SortedInv m (length sorted) sorted.
Proof.
  intros Hnd. revert i out. induction fuel as [|fuel IH]; intros i out Hinv Hfuel.
  - pose proof (SortedInv_length _ _ _ Hnd Hinv).
    pose proof (inv_index _ _ _ Hinv). simpl in Hfuel. lia.
  - simpl. destruct (out !! i) as [x|] eqn:Hx.
    + apply IH; [by apply SortedInv_step|lia].
    + exists out. split; [done|].
      apply lookup_ge_None in Hx. pose proof (inv_index _ _ _ Hinv).
      by replace (length out) with i by lia.
Qed.

Lemma GetSortedNetworkObjects_loop_fuel_mono (m : ReplicationManager) fuel fuel' i out r :
  fuel ≤ fuel' →
  GetSortedNetworkObjects_loop m fuel i out = Some r →
  GetSortedNetworkObjects_loop m fuel' i out = Some r.
Proof.
  revert fuel' i out. induction fuel as [|fuel IH]; intros fuel' i out Hle; [done|].
  destruct fuel' as [|fuel']; [lia|]. simpl.
  destruct (out !! i); [|done]. apply IH. lia.
Qed.

Lemma before_trans x y z (l : list NetworkObject) :
  NoDup l → before x y l → before y z l → before x z l.
Proof.
  intros Hnd (i & j & Hi & Hj & Hij) (j' & k & Hj' & Hk & Hjk).
  assert (j = j') as <- by (eapply NoDup_alt; eauto).
  exists i, k. split_and!; [done..|lia].
Qed.

(** Walking up from a member of a set in which every object has its parent
    gives chains of any length, each object an ancestor of those before. *)
Lemma parent_chain (m : ReplicationManager) (P : NetworkObject → Prop) :
  (∀ x, P x → ∃ p, GetParentNetworkObject m x = Some p ∧ P p) →
  ∀ n o, P o →
  ∃ l, length l = n ∧ Forall P (o :: l)
       ∧ (∀ i j x y, (o :: l) !! i = Some x → (o :: l) !! j = Some y → i < j →
                     Ancestor m y x).
Proof.
  intros Hclosed. induction n as [|n IH]; intros o Ho.
  - exists []. split; [done|]. split; [by apply Forall_singleton|].
    intros i j x y Hi Hj Hij. apply lookup_lt_Some in Hj. simpl in Hj. lia.
  - destruct (Hclosed _ Ho) as (p & Hp & HPp).
    destruct (IH _ HPp) as (l & Hlen & Hall & Hanc).
    exists (p :: l). split; [simpl; lia|]. split; [by apply Forall_cons|].
    intros i j x y Hi Hj Hij.
    destruct j as [|j]; [lia|]. simpl in Hj.
    destruct i as [|i]; simpl in Hi.
    + inversion Hi; subst x.
      destruct j as [|j]; simpl in Hj.
      * inversion Hj; subst y. by apply Ancestor_parent.
      * eapply Ancestor_step; [done|].
        apply (Hanc 0 (S j)); [done|done|lia].
    + apply (Hanc i j); [done|done|lia].
Qed.

(** In a finite registry without cycles such a set is empty. *)
Lemma acyclic_no_closed_set (m : ReplicationManager) (P : NetworkObject → Prop) :
  AcyclicParents m →
  (∀ x, P x → x ∈ trackedComponents_ m) →
  (∀ x, P x → ∃ p, GetParentNetworkObject m x = Some p ∧ P p) →
  ∀ o, ¬ P o.
Proof.
  intros Hacyc Hsub Hclosed o Ho.
  destruct (parent_chain m P Hclosed (length (trackedComponents_ m)) o Ho)
    as (l & Hlen & Hall & Hanc).
  assert (NoDup (o :: l)) as Hnd.
  { apply NoDup_alt. intros i j x Hi Hj.
    destruct (lt_eq_lt_dec i j) as [[Hlt|Heq]|Hgt]; [|done|].
    - destruct (Hacyc x). by apply (Hanc i j).
    - destruct (Hacyc x). by apply (Hanc j i). }
  assert (length (o :: l) ≤ length (trackedComponents_ m)) as Hle.
  { apply submseteq_length, NoDup_submseteq; [done|].
    intros x Hx. apply Hsub. by eapply Forall_forall in Hall. }
  simpl in Hle. lia.
Qed.

Lemma SortedInv_complete (m : ReplicationManager) sorted :
  AcyclicParents m → SortedInv m (length sorted) sorted →
  ∀ o, o ∈ trackedComponents_ m → o ∈ sorted.
Proof.
  intros Hacyc [I1 I2 I3 I4 I5 I6] o Ho.
  destruct (decide (o ∈ sorted)) as [|Hnot]; [done|].
  exfalso.
  apply (acyclic_no_closed_set m
           (fun x => x ∈ trackedComponents_ m ∧ x ∉ sorted) Hacyc) with o;
    [by intros x [? _]| |done].
  intros x [Hx Hnx].
  destruct (GetParentNetworkObject m x) as [p|] eqn:Hp.
  - exists p. split; [done|]. split; [by eapply GetParentNetworkObject_elem|].
    intros [k Hk]%list_elem_of_lookup_1. apply Hnx.
    apply (I5 k p x); [by eapply lookup_lt_Some|done..].
  - destruct Hnx. by apply I6.
Qed.

Lemma SortedInv_parent_before (m : ReplicationManager) sorted c p :
  SortedInv m (length sorted) sorted →
  c ∈ sorted → GetParentNetworkObject m c = Some p → before p c sorted.
Proof.
  intros [I1 I2 I3 I4 I5 I6] [j Hj]%list_elem_of_lookup_1 Hp.
  destruct (I4 _ _ Hj) as [Hroot|(p' & k & Hp' & Hk & Hkj & _)]; [congruence|].
  assert (p' = p) as -> by congruence.
  by exists k, j.
Qed.

Lemma SortedInv_ancestor_before (m : ReplicationManager) sorted a d :
  AcyclicParents m → SortedInv m (length sorted) sorted →
  Ancestor m a d → d ∈ trackedComponents_ m → before a d sorted.
Proof.
  intros Hacyc Hinv Hanc. induction Hanc as [d Hp|p d Hp Hanc IH]; intros Hd.
  - eapply SortedInv_parent_before; [done| |done]. by eapply SortedInv_complete.
  - eapply before_trans; [by apply (inv_nodup _ _ _ Hinv)| |].
    + apply IH. by eapply GetParentNetworkObject_elem.
    + eapply SortedInv_parent_before; [done| |done]. by eapply SortedInv_complete.
Qed.

(** C2: in a registry that lists no object twice and whose parent links are
    acyclic, [GetSortedNetworkObjects] returns (the loop ends within the
    fuel given, and with any larger fuel gives the same vector) and the
    vector holds every registered object exactly once, every object after
    its parent and every object before all of its descendants. *)
Theorem GetSortedNetworkObjects_lists_parents_first (m : ReplicationManager) :
  NoDup (trackedComponents_ m) → AcyclicParents m →
  ∃ sorted,
    GetSortedNetworkObjects m = Some sorted
    ∧ (∀ fuel, length (trackedComponents_ m) < fuel →
               GetSortedNetworkObjects_fuel fuel m = Some sorted)
    ∧ sorted ≡ₚ trackedComponents_ m
    ∧ NoDup sorted
    ∧ (∀ c p, c ∈ trackedComponents_ m → GetParentNetworkObject m c = Some p →
              before p c sorted)
    ∧ (∀ a d, d ∈ trackedComponents_ m → Ancestor m a d → before a d sorted).
Proof.
  intros Hnd Hacyc.
  pose proof (SortedInv_init m Hnd) as H0.
  destruct (GetSortedNetworkObjects_loop_total m
              (S (length (trackedComponents_ m))) 0 _ Hnd H0) as (sorted & Hrun & Hinv);
    [lia|].
  exists sorted. split; [done|]. split.
  { intros fuel Hfuel.
    eapply GetSortedNetworkObjects_loop_fuel_mono; [|done]. lia. }
  split.
  { apply NoDup_Permutation; [by apply (inv_nodup _ _ _ Hinv)|done|].
    intros x. split; [by apply (inv_tracked _ _ _ Hinv)|].
    by apply SortedInv_complete. }
  split; [by apply (inv_nodup _ _ _ Hinv)|]. split.
  - intros c p Hc Hp. eapply SortedInv_parent_before; [done| |done].
    by eapply SortedInv_complete.
  - intros a d Hd Hanc. by eapply SortedInv_ancestor_before.
Qed.

(** ** The client handshake *)

Lemma deliverAll_snoc ds d (m : ReplicationManager) :
  deliverAll (ds ++ [d]) m = deliver (deliverAll ds m) d.
Proof. unfold deliverAll. by rewrite foldl_app. Qed.

Lemma SynchronizedSent_emit e (m : ReplicationManager) :
  SynchronizedSent (emit e m) = SynchronizedSent m ++ from_option (fun a => [a]) [] (ackOf e).
Proof.
  unfold SynchronizedSent. simpl. rewrite omap_app. simpl.
  by destruct (ackOf e).
Qed.

Lemma lastConfigure_snoc ds (d : Delivery) :
  lastConfigure (ds ++ [d])
  = match d.1.2 with
    | MSG_CONFIGURE => Some (ReadMsgConfigure d.2)
    | _ => lastConfigure ds
    end.
Proof.
  unfold lastConfigure. rewrite omap_app. simpl.
  destruct d.1.2; simpl; rewrite ?app_nil_r, ?last_snoc; done.
Qed.

Lemma lastSceneClock_snoc ds (d : Delivery) :
  lastSceneClock (ds ++ [d])
  = match d.1.2 with
    | MSG_SCENE_CLOCK => Some (ReadMsgSceneClock d.2)
    | _ => lastSceneClock ds
    end.
Proof.
  unfold lastSceneClock. rewrite omap_app. simpl.
  destruct d.1.2; simpl; rewrite ?app_nil_r, ?last_snoc; done.
Qed.

Lemma SynchronizedSent_set_client x (m : ReplicationManager) :
  SynchronizedSent (set_client x m) = SynchronizedSent m.
Proof. reflexivity. Qed.

(** Once the replica exists, messages go to it and the manager itself
    writes nothing. *)
Lemma deliver_initialized (m : ReplicationManager) c r (d : Delivery) :
  client_ m = Some c → replica_ c = Some r →
  deliver m d
  = set_client
      (Some (mkClientData (connection_ c) (serverSettings_ c) (initialClock_ c)
               (ackMagic_ c) (Some (Replica_ProcessMessage r d.1.2 d.2).2))) m.
Proof.
  intros Hc Hr. unfold deliver, ProcessMessage. rewrite Hc, Hr.
  by destruct (Replica_ProcessMessage r d.1.2 d.2).
Qed.

Lemma deliverAll_initialized ds : ∀ (m : ReplicationManager) c r,
  client_ m = Some c → replica_ c = Some r →
  GetClientReplica (deliverAll ds m) = Some (Replica_after r ds)
  ∧ SynchronizedSent (deliverAll ds m) = SynchronizedSent m.
Proof.
  induction ds as [|d ds IH]; intros m c r Hc Hr.
  - simpl. unfold GetClientReplica. by rewrite Hc.
  - simpl. rewrite (deliver_initialized m c r d Hc Hr).
    match goal with |- context [deliverAll ds (set_client (Some ?c') m)] =>
      destruct (IH (set_client (Some c') m) c' _ eq_refl eq_refl) as [IH1 IH2]
    end.
    rewrite IH1, IH2. done.
Qed.


Lemma Awaiting_start (m0 : ReplicationManager) c0 :
  client_ m0 = Some (mkClientData c0 None None None None) → Awaiting m0 c0 [] m0.
Proof. intros H. by split. Qed.

(** The message that completes the handshake: a Configure or SceneClock over
    a connection with a synchronized clock, after which both are held. *)
Lemma deliver_completes (m0 m : ReplicationManager) c0 ds (d : Delivery) cfg clock :
  Awaiting m0 c0 ds m →
  d.1.2 = MSG_CONFIGURE ∨ d.1.2 = MSG_SCENE_CLOCK →
  IsClockSynchronized d.1.1 = true →
  lastConfigure (ds ++ [d]) = Some cfg →
  lastSceneClock (ds ++ [d]) = Some clock →
  client_ (deliver m d)
  = Some (mkClientData c0 (Some (settings_ cfg)) (Some clock) (Some (magic_ cfg))
            (Some (MakeClientReplica (scene_ m0) (conn_addr d.1.1) clock (settings_ cfg))))
  ∧ SynchronizedSent (deliver m d)
    = SynchronizedSent m0
      ++ [(conn_addr d.1.1, mkMsgSynchronized (magic_ cfg), ReliableUnordered)].
Proof.
  intros (Hc & Hs & Hscene) Hid Hsync Hcfg Hclk.
  rewrite lastConfigure_snoc in Hcfg. rewrite lastSceneClock_snoc in Hclk.
  unfold deliver, ProcessMessage. rewrite Hc. simpl.
  unfold ProcessMessageOnUninitializedClient, InitializeIfReady, IsReadyToInitialize.
  destruct Hid as [Hid|Hid]; rewrite Hid in *; simpl; rewrite Hsync; simpl.
  - inversion Hcfg; subst cfg. rewrite Hclk. simpl.
    rewrite Hscene. split; [done|].
    rewrite SynchronizedSent_emit, SynchronizedSent_set_client, SynchronizedSent_emit.
    cbn [ackOf from_option]. by rewrite Hs, app_nil_r.
  - inversion Hclk; subst clock. rewrite Hcfg. simpl.
    rewrite Hscene. split; [done|].
    rewrite SynchronizedSent_emit, SynchronizedSent_set_client, SynchronizedSent_emit.
    cbn [ackOf from_option]. by rewrite Hs, app_nil_r.
Qed.

(** Any other message leaves the client waiting. *)
Lemma deliver_awaiting (m0 m : ReplicationManager) c0 ds (d : Delivery) :
  Awaiting m0 c0 ds m →
  (d.1.2 ≠ MSG_CONFIGURE ∧ d.1.2 ≠ MSG_SCENE_CLOCK)
  ∨ IsClockSynchronized d.1.1 = false
  ∨ lastConfigure (ds ++ [d]) = None
  ∨ lastSceneClock (ds ++ [d]) = None →
  Awaiting m0 c0 (ds ++ [d]) (deliver m d).
Proof.
  intros (Hc & Hs & Hscene) Hwhy.
  rewrite lastConfigure_snoc, lastSceneClock_snoc in Hwhy.
  unfold Awaiting. rewrite lastConfigure_snoc, lastSceneClock_snoc.
  unfold deliver, ProcessMessage. rewrite Hc. simpl.
  unfold ProcessMessageOnUninitializedClient, InitializeIfReady, IsReadyToInitialize.
  destruct d.1.2 eqn:Hid; simpl; try done.
  - destruct (IsClockSynchronized d.1.1) eqn:Hsync; simpl;
      [|by rewrite SynchronizedSent_set_client, SynchronizedSent_emit, app_nil_r].
    destruct Hwhy as [[? _]|[?|[?|Hclk]]]; try done.
    rewrite Hclk. simpl.
    by rewrite SynchronizedSent_set_client, SynchronizedSent_emit, app_nil_r.
  - destruct (IsClockSynchronized d.1.1) eqn:Hsync; simpl;
      [|by rewrite SynchronizedSent_set_client, SynchronizedSent_emit, app_nil_r].
    destruct Hwhy as [[_ ?]|[?|[Hcfg|?]]]; try done.
    rewrite Hcfg. simpl.
    by rewrite SynchronizedSent_set_client, SynchronizedSent_emit, app_nil_r.
Qed.

Lemma Awaiting_no_replica (m0 m : ReplicationManager) c0 ds :
  Awaiting m0 c0 ds m → GetClientReplica m = None.
Proof. intros (Hc & _). unfold GetClientReplica. by rewrite Hc. Qed.

(** As long as no replica exists the client is in the waiting state
    described by the messages received so far. *)
Lemma deliverAll_awaiting (m0 : ReplicationManager) c0 ds :
  client_ m0 = Some (mkClientData c0 None None None None) →
  GetClientReplica (deliverAll ds m0) = None →
  Awaiting m0 c0 ds (deliverAll ds m0).
Proof.
  intros H0. induction ds as [|d ds IH] using rev_ind; intros Hnone.
  - by apply Awaiting_start.
  - rewrite deliverAll_snoc in *.
    destruct (GetClientReplica (deliverAll ds m0)) as [r|] eqn:Hr.
    { exfalso. unfold GetClientReplica in Hr.
      destruct (client_ (deliverAll ds m0)) as [c|] eqn:Hc; [|done].
      rewrite (deliver_initialized _ c r d Hc Hr) in Hnone. done. }
    specialize (IH eq_refl).
    destruct (decide (d.1.2 = MSG_CONFIGURE ∨ d.1.2 = MSG_SCENE_CLOCK)) as [Hid|Hid];
      [|apply deliver_awaiting; [done|left; tauto]].
    destruct (IsClockSynchronized d.1.1) eqn:Hsync;
      [|apply deliver_awaiting; [done|by right; left]].
    destruct (lastConfigure (ds ++ [d])) as [cfg|] eqn:Hcfg;
      [|apply deliver_awaiting; [done|by right; right; left]].
    destruct (lastSceneClock (ds ++ [d])) as [clock|] eqn:Hclk;
      [|apply deliver_awaiting; [done|by right; right; right]].
    exfalso.
    destruct (deliver_completes m0 _ c0 ds d cfg clock IH Hid Hsync Hcfg Hclk) as [Hc _].
    unfold GetClientReplica in Hnone. by rewrite Hc in Hnone.
Qed.

Lemma lastSceneClock_absent (ds : list Delivery) :
  Forall (fun d : Delivery => d.1.2 ≠ MSG_SCENE_CLOCK) ds → lastSceneClock ds = None.
Proof.
  induction ds as [|d ds IH] using rev_ind; intros H; [done|].
  rewrite Forall_app, Forall_singleton in H. destruct H as [H1 H2].
  rewrite lastSceneClock_snoc. simpl in H2. destruct d.1.2 eqn:E; auto; congruence.
Qed.

Lemma lastConfigure_absent (ds : list Delivery) :
  Forall (fun d : Delivery => d.1.2 ≠ MSG_CONFIGURE) ds → lastConfigure ds = None.
Proof.
  induction ds as [|d ds IH] using rev_ind; intros H; [done|].
  rewrite Forall_app, Forall_singleton in H. destruct H as [H1 H2].
  rewrite lastConfigure_snoc. simpl in H2. destruct d.1.2 eqn:E; auto; congruence.
Qed.

Lemma deliverAll_stays_awaiting (m0 : ReplicationManager) c0 ds :
  client_ m0 = Some (mkClientData c0 None None None None) →
  Forall (fun d : Delivery => d.1.2 ≠ MSG_SCENE_CLOCK) ds
  ∨ Forall (fun d : Delivery => d.1.2 ≠ MSG_CONFIGURE) ds
  ∨ Forall (fun d : Delivery => IsClockSynchronized d.1.1 = false) ds →
  Awaiting m0 c0 ds (deliverAll ds m0).
Proof.
  intros H0. induction ds as [|d ds IH] using rev_ind; intros Hwhy.
  - by apply Awaiting_start.
  - rewrite deliverAll_snoc. apply deliver_awaiting.
    + apply IH. rewrite !Forall_app in Hwhy. tauto.
    + destruct Hwhy as [H|[H|H]].
      * right; right; right. by apply lastSceneClock_absent.
      * right; right; left. by apply lastConfigure_absent.
      * right; left. rewrite Forall_app, Forall_singleton in H. tauto.
Qed.

(** C1: on a client that [StartClient] has just set up, (1) as long as no
    SceneClock (or no Configure) has arrived, whatever else has, there is no
    replica and no acknowledgement; (2) as long as every message arrives
    while the connection reports an unsynchronized clock, there is no
    replica and no acknowledgement either, even with both messages in;
    (3) when a Configure or SceneClock arrives over a connection whose clock
    is synchronized, there was no replica before it and both kinds have now
    arrived, the replica is built from the latest clock and settings, and
    over the whole run, whatever follows, exactly one Synchronized message
    is written: to that connection, with the magic of the latest Configure,
    reliable and unordered.  The replica at the end is that one replica,
    having been handed the messages that followed. *)
Theorem client_handshake_synchronizes_exactly_once
    (m0 : ReplicationManager) (c0 : ConnectionPtr) :
  client_ m0 = Some (mkClientData c0 None None None None) →
  (∀ ds,
     Forall (fun d : Delivery => d.1.2 ≠ MSG_SCENE_CLOCK) ds
     ∨ Forall (fun d : Delivery => d.1.2 ≠ MSG_CONFIGURE) ds →
     GetClientReplica (deliverAll ds m0) = None
     ∧ SynchronizedSent (deliverAll ds m0) = SynchronizedSent m0)
  ∧ (∀ ds,
       Forall (fun d : Delivery => IsClockSynchronized d.1.1 = false) ds →
       GetClientReplica (deliverAll ds m0) = None
       ∧ SynchronizedSent (deliverAll ds m0) = SynchronizedSent m0)
  ∧ (∀ pre (d : Delivery) post cfg clock,
       GetClientReplica (deliverAll pre m0) = None →
       d.1.2 = MSG_CONFIGURE ∨ d.1.2 = MSG_SCENE_CLOCK →
       IsClockSynchronized d.1.1 = true →
       lastConfigure (pre ++ [d]) = Some cfg →
       lastSceneClock (pre ++ [d]) = Some clock →
       GetClientReplica (deliverAll (pre ++ d :: post) m0)
       = Some (Replica_after
                 (MakeClientReplica (scene_ m0) (conn_addr d.1.1) clock (settings_ cfg))
                 post)
       ∧ SynchronizedSent (deliverAll (pre ++ d :: post) m0)
         = SynchronizedSent m0
           ++ [(conn_addr d.1.1, mkMsgSynchronized (magic_ cfg), ReliableUnordered)]).
Proof.
  intros H0. split; [|split].
  - intros ds Hwhy.
    assert (Awaiting m0 c0 ds (deliverAll ds m0)) as Ha
      by (apply deliverAll_stays_awaiting; tauto).
    split; [by eapply Awaiting_no_replica|apply Ha].
  - intros ds Hwhy.
    assert (Awaiting m0 c0 ds (deliverAll ds m0)) as Ha
      by (apply deliverAll_stays_awaiting; tauto).
    split; [by eapply Awaiting_no_replica|apply Ha].
  - intros pre d post cfg clock Hnone Hid Hsync Hcfg Hclk.
    pose proof (deliverAll_awaiting m0 c0 pre H0 Hnone) as Ha.
    destruct (deliver_completes m0 _ c0 pre d cfg clock Ha Hid Hsync Hcfg Hclk)
      as [Hc Hsent].
    unfold deliverAll in *. rewrite foldl_app. simpl.
    destruct (deliverAll_initialized post _ _ _ Hc eq_refl) as [Hr Hs].
    unfold deliverAll in *. rewrite Hr, Hs, Hsent. done.
Qed.

(** ** ProcessMessage and DropConnection *)


(** ** Frames: what each operation leaves alone *)

Lemma emits_nil (m : ReplicationManager) : emits [] m = m.
Proof. destruct m. unfold emits. simpl. by rewrite app_nil_r. Qed.

Lemma emits_emits evs1 evs2 (m : ReplicationManager) :
  emits evs2 (emits evs1 m) = emits (evs1 ++ evs2) m.
Proof. unfold emits. simpl. by rewrite app_assoc. Qed.

Lemma emit_emits e (m : ReplicationManager) : emit e m = emits [e] m.
Proof. reflexivity. Qed.

Lemma StartStandalone_loop l (m : ReplicationManager) :
  foldl (fun m networkObject =>
           emit (InitializeStandalone networkObject)
             (emit (SetNetworkMode networkObject NOM_Standalone) m)) m l
  = emits (InitializeStandalone_calls l) m.
Proof.
  revert m. induction l as [|o l IH]; intros m; simpl.
  - by rewrite emits_nil.
  - rewrite IH. rewrite !emit_emits, !emits_emits. done.
Qed.

Lemma InitializeObjectsStandalone_loop ids (m : ReplicationManager) :
  foldl InitializeObjectsStandalone_step m ids
  = emits (flat_map (InitializeObjectsStandalone_calls m) ids) m.
Proof.
  revert m. induction ids as [|id ids IH]; intros m; simpl.
  - by rewrite emits_nil.
  - rewrite IH.
    assert (InitializeObjectsStandalone_step m id
            = emits (InitializeObjectsStandalone_calls m id) m) as ->.
    { unfold InitializeObjectsStandalone_step, InitializeObjectsStandalone_calls.
      destruct (GetNetworkObject m id true); [|done].
      by rewrite !emit_emits, emits_emits. }
    by rewrite emits_emits.
Qed.

Lemma Stop_fields (m : ReplicationManager) :
  mode_ (Stop m) = Standalone
  ∧ standalone_ (Stop m) = mkStandaloneData ∅
  ∧ server_ (Stop m) = None
  ∧ client_ (Stop m) = None
  ∧ scene_ (Stop m) = scene_ m
  ∧ trackedComponents_ (Stop m) = trackedComponents_ m
  ∧ networkObjectsDirty_ (Stop m) = networkObjectsDirty_ m.
Proof.
  unfold Stop. destruct (client_ m) eqn:Hc; simpl; destruct (server_ m) eqn:Hs; done.
Qed.


Lemma QueueNetworkObjectUpdate_frame o (m : ReplicationManager) :
  mode_ (QueueNetworkObjectUpdate o m) = mode_ m
  ∧ standalone_ (QueueNetworkObjectUpdate o m) = standalone_ m
  ∧ server_ (QueueNetworkObjectUpdate o m) = server_ m
  ∧ client_ (QueueNetworkObjectUpdate o m) = client_ m
  ∧ scene_ (QueueNetworkObjectUpdate o m) = scene_ m
  ∧ trackedComponents_ (QueueNetworkObjectUpdate o m) = trackedComponents_ m.
Proof. unfold QueueNetworkObjectUpdate. by case_decide. Qed.

Lemma NetworkObjectRegistry_OnComponentRemoved_frame o (m : ReplicationManager) :
  mode_ (NetworkObjectRegistry_OnComponentRemoved o m) = mode_ m
  ∧ standalone_ (NetworkObjectRegistry_OnComponentRemoved o m) = standalone_ m
  ∧ server_ (NetworkObjectRegistry_OnComponentRemoved o m) = server_ m
  ∧ client_ (NetworkObjectRegistry_OnComponentRemoved o m) = client_ m
  ∧ scene_ (NetworkObjectRegistry_OnComponentRemoved o m) = scene_ m
  ∧ trackedComponents_ (NetworkObjectRegistry_OnComponentRemoved o m)
    = filter (fun x => addr x ≠ addr o) (trackedComponents_ m).
Proof.
  unfold NetworkObjectRegistry_OnComponentRemoved.
  destruct (GetParentNetworkObject m o) as [p|]; [|done].
  case_decide; [|done].
  destruct (QueueNetworkObjectUpdate_frame p m) as (H1 & H2 & H3 & H4 & H5 & H6).
  simpl. by rewrite H1, H2, H3, H4, H5, H6.
Qed.

Lemma OnComponentRemoved_frame o (m : ReplicationManager) :
  mode_ (OnComponentRemoved o m) = mode_ m
  ∧ server_ (OnComponentRemoved o m) = server_ m
  ∧ client_ (OnComponentRemoved o m) = client_ m
  ∧ scene_ (OnComponentRemoved o m) = scene_ m
  ∧ (IsStandalone m = false → standalone_ (OnComponentRemoved o m) = standalone_ m)
  ∧ trackedComponents_ (OnComponentRemoved o m)
    = filter (fun x => addr x ≠ addr o) (trackedComponents_ m).
Proof.
  unfold OnComponentRemoved.
  match goal with |- context [NetworkObjectRegistry_OnComponentRemoved o ?m'] =>
    destruct (NetworkObjectRegistry_OnComponentRemoved_frame o m')
      as (H1 & H2 & H3 & H4 & H5 & H6)
  end.
  rewrite H1, H2, H3, H4, H5, H6.
  destruct (IsStandalone m); simpl; split_and!; done.
Qed.

Lemma OnComponentRemoved_loop_frame l : ∀ (m : ReplicationManager),
  let m' := foldl (fun m o => OnComponentRemoved o m) m l in
  mode_ m' = mode_ m ∧ server_ m' = server_ m ∧ client_ m' = client_ m
  ∧ scene_ m' = scene_ m
  ∧ (IsStandalone m = false → standalone_ m' = standalone_ m)
  ∧ (∀ x, x ∈ trackedComponents_ m' → x ∈ trackedComponents_ m ∧ x ∉ l).
Proof.
  induction l as [|o l IH]; intros m; simpl.
  - split_and!; try done. intros x Hx. split; [done|]. apply not_elem_of_nil.
  - destruct (IH (OnComponentRemoved o m)) as (H1 & H2 & H3 & H4 & H5 & H6).
    destruct (OnComponentRemoved_frame o m) as (F1 & F2 & F3 & F4 & F5 & F6).
    rewrite H1, H2, H3, H4, F1, F2, F3, F4. split_and!; try done.
    + intros Hs. rewrite H5, F5; [done..|]. unfold IsStandalone in *. by rewrite F1.
    + intros x Hx. apply H6 in Hx as [Hx Hnl]. rewrite F6 in Hx.
      apply list_elem_of_filter in Hx as [Hne Hx]. split; [done|].
      intros [->|?]%elem_of_cons; done.
Qed.

Lemma Node_Remove_run_frame n (m : ReplicationManager) :
  let m' := Node_Remove_run n m in
  mode_ m' = mode_ m ∧ server_ m' = server_ m ∧ client_ m' = client_ m
  ∧ scene_ m' = scene_ m
  ∧ (IsStandalone m = false → standalone_ m' = standalone_ m)
  ∧ (∀ x, x ∈ trackedComponents_ m' → x ∈ trackedComponents_ m ∧ GetNode x ≠ n).
Proof.
  unfold Node_Remove_run.
  match goal with |- context [foldl ?f ?m0 ?l] =>
    destruct (OnComponentRemoved_loop_frame l m0) as (H1 & H2 & H3 & H4 & H5 & H6)
  end.
  simpl in *. split_and!; try done.
  intros x Hx. apply H6 in Hx as [Hx Hnl]. split; [done|].
  intros Hn. apply Hnl. by apply list_elem_of_filter.
Qed.

Lemma RemoveAllNetworkObjects_loop_frame nodes : ∀ (m : ReplicationManager),
  let m' :=
    foldl (fun m node => if Node_alive m node then Node_Remove_run node m else m)
      m nodes in
  mode_ m' = mode_ m ∧ server_ m' = server_ m ∧ client_ m' = client_ m
  ∧ scene_ m' = scene_ m
  ∧ (IsStandalone m = false → standalone_ m' = standalone_ m)
  ∧ (∀ x, x ∈ trackedComponents_ m' → x ∈ trackedComponents_ m ∧ GetNode x ∉ nodes).
Proof.
  induction nodes as [|n nodes IH]; intros m; simpl.
  - split_and!; try done. intros x Hx. split; [done|]. apply not_elem_of_nil.
  - match goal with |- context [foldl ?f ?m1 nodes] =>
      destruct (IH m1) as (H1 & H2 & H3 & H4 & H5 & H6);
      assert (mode_ m1 = mode_ m ∧ server_ m1 = server_ m ∧ client_ m1 = client_ m
              ∧ scene_ m1 = scene_ m
              ∧ (IsStandalone m = false → standalone_ m1 = standalone_ m)
              ∧ (∀ x, x ∈ trackedComponents_ m1 →
                      x ∈ trackedComponents_ m ∧ GetNode x ≠ n))
        as (F1 & F2 & F3 & F4 & F5 & F6)
    end.
    { unfold Node_alive. case_bool_decide as Halive.
      - apply Node_Remove_run_frame.
      - split_and!; try done. intros x Hx. split; [done|].
        intros Hn. apply Halive. apply Exists_exists. by exists x. }
    rewrite H1, H2, H3, H4, F1, F2, F3, F4. split_and!; try done.
    + intros Hs. rewrite H5, F5; [done..|]. unfold IsStandalone in *. by rewrite F1.
    + intros x Hx. apply H6 in Hx as [Hx Hnl]. apply F6 in Hx as [Hx Hn].
      split; [done|]. intros [?|?]%elem_of_cons; done.
Qed.

(** [RemoveAllNetworkObjects] empties the registry and the dirty vector and
    keeps the mode; outside Standalone mode it keeps the standalone
    bookkeeping too. *)
Lemma RemoveAllNetworkObjects_frame (m : ReplicationManager) :
  let m' := RemoveAllNetworkObjects m in
  mode_ m' = mode_ m ∧ server_ m' = server_ m ∧ client_ m' = client_ m
  ∧ scene_ m' = scene_ m
  ∧ (IsStandalone m = false → standalone_ m' = standalone_ m)
  ∧ trackedComponents_ m' = []
  ∧ networkObjectsDirty_ m' = [].
Proof.
  pose proof (RemoveAllNetworkObjects_loop_frame (map GetNode (GetNetworkObjects m)) m)
    as (H1 & H2 & H3 & H4 & H5 & H6).
  unfold RemoveAllNetworkObjects.
  set (M := foldl _ m _) in *.
  change (mode_ M = mode_ m ∧ server_ M = server_ m ∧ client_ M = client_ m
          ∧ scene_ M = scene_ m
          ∧ (IsStandalone m = false → standalone_ M = standalone_ m)
          ∧ trackedComponents_ M = [] ∧ @nil bool = []).
  split_and!; try done.
  destruct (trackedComponents_ M) as [|x rest] eqn:E; [done|].
  destruct (H6 x) as [Hx Hn]; [by left|].
  destruct Hn. unfold GetNetworkObjects, GetTrackedComponents.
  apply list_elem_of_fmap. by exists x.
Qed.

(** ** Mode transitions *)

Lemma StartStandalone_emits (m : ReplicationManager) :
  StartStandalone m
  = emits (InitializeStandalone_calls (trackedComponents_ m)
           ++ [Log LOG_INFO "Started standalone scene replication"])
      (set_mode Standalone (Stop m)).
Proof.
  unfold StartStandalone. rewrite StartStandalone_loop, emit_emits, emits_emits.
  assert (GetNetworkObjects (set_mode Standalone (Stop m)) = trackedComponents_ m) as ->;
    [|done].
  by destruct (Stop_fields m) as (_ & _ & _ & _ & _ & H & _).
Qed.

Lemma StartStandalone_fields (m : ReplicationManager) :
  ModeState (StartStandalone m) = (Standalone, mkStandaloneData ∅, None, None)
  ∧ scene_ (StartStandalone m) = scene_ m
  ∧ trackedComponents_ (StartStandalone m) = trackedComponents_ m
  ∧ networkObjectsDirty_ (StartStandalone m) = networkObjectsDirty_ m.
Proof.
  rewrite StartStandalone_emits.
  destruct m as [scene tracked dirty mode standalone [s|] [c|] trace]; done.
Qed.

Lemma StartServer_fields (m : ReplicationManager) :
  ModeState (StartServer m)
  = (Server, mkStandaloneData ∅, Some (MakeServerReplicator (scene_ m)), None)
  ∧ scene_ (StartServer m) = scene_ m
  ∧ trackedComponents_ (StartServer m) = trackedComponents_ m
  ∧ networkObjectsDirty_ (StartServer m) = networkObjectsDirty_ m.
Proof.
  destruct m as [scene tracked dirty mode standalone [s|] [c|] trace]; done.
Qed.

Lemma StartClient_fields c (m : ReplicationManager) :
  ModeState (StartClient c m)
  = (Client, mkStandaloneData ∅, None, Some (mkClientData c None None None None))
  ∧ scene_ (StartClient c m) = scene_ m
  ∧ trackedComponents_ (StartClient c m) = []
  ∧ networkObjectsDirty_ (StartClient c m) = [].
Proof.
  unfold StartClient.
  set (M1 := set_client _ (set_mode Client (Stop m))).
  assert (mode_ M1 = Client ∧ standalone_ M1 = mkStandaloneData ∅ ∧ server_ M1 = None
          ∧ client_ M1 = Some (mkClientData c None None None None)
          ∧ scene_ M1 = scene_ m) as (F1 & F2 & F3 & F4 & F5).
  { subst M1. destruct m as [scene tracked dirty mode standalone [s|] [cd|] trace]; done. }
  pose proof (RemoveAllNetworkObjects_frame M1) as (H1 & H2 & H3 & H4 & H5 & H6 & H7).
  cbv zeta in *. unfold ModeState.
  change (mode_ (emit ?e ?X)) with (mode_ X).
  change (standalone_ (emit ?e ?X)) with (standalone_ X).
  change (server_ (emit ?e ?X)) with (server_ X).
  change (client_ (emit ?e ?X)) with (client_ X).
  change (scene_ (emit ?e ?X)) with (scene_ X).
  change (trackedComponents_ (emit ?e ?X)) with (trackedComponents_ X).
  change (networkObjectsDirty_ (emit ?e ?X)) with (networkObjectsDirty_ X).
  rewrite H1, H2, H3, H4, H5, H6, H7, F1, F2, F3, F4, F5; [done|].
  unfold IsStandalone. by rewrite F1.
Qed.




(** C10: with a server replicator the call only hands the connection to
    it; on a client whose connection is the one dropped the manager goes
    standalone through [StartStandalone], which discards the client state
    (handshake or replica) and initializes every registered object as
    standalone, once each and in registration order; on a client bound to
    another connection nothing changes. *)
Theorem DropConnection_of_the_client_connection_goes_standalone
    (connection : ConnectionPtr) (m : ReplicationManager) :
  (∀ s, server_ m = Some s →
        DropConnection connection m
        = set_server (Some (Server_RemoveConnection s connection)) m)
  ∧ (∀ c, server_ m = None → client_ m = Some c → connection_ c = connection →
          DropConnection connection m = StartStandalone m
          ∧ ModeState (DropConnection connection m)
            = (Standalone, mkStandaloneData ∅, None, None)
          ∧ trackedComponents_ (DropConnection connection m) = trackedComponents_ m
          ∧ trace_ (DropConnection connection m)
            = trace_ m
              ++ [Log LOG_INFO "Stopped client for scene replication"]
              ++ InitializeStandalone_calls (trackedComponents_ m)
              ++ [Log LOG_INFO "Started standalone scene replication"])
  ∧ (∀ c, server_ m = None → client_ m = Some c → connection_ c ≠ connection →
          DropConnection connection m = m).
Proof.
  unfold DropConnection. split_and!.
  - intros s ->. done.
  - intros c Hs Hc Heq. rewrite Hs, Hc, decide_True by done.
    split; [done|].
    destruct (StartStandalone_fields m) as (-> & _ & -> & _).
    split; [done|]. split; [done|].
    rewrite StartStandalone_emits.
    destruct m as [scene tracked dirty mode standalone server client trace].
    simpl in Hs, Hc. subst server client. simpl. by rewrite <- app_assoc.
  - intros c Hs Hc Hne. by rewrite Hs, Hc, decide_False.
Qed.

(** ** The dirty flags *)

Lemma IsDirty_insert_true (d : list bool) index i :
  d !! i = Some true → <[index := true]> d !! i = Some true.
Proof.
  intros H. destruct (decide (index = i)) as [->|Hne].
  - apply list_lookup_insert_eq. by eapply lookup_lt_Some.
  - by rewrite list_lookup_insert_ne.
Qed.

Lemma QueueNetworkObjectUpdate_keeps_flags o (m : ReplicationManager) i :
  IsDirty m i → IsDirty (QueueNetworkObjectUpdate o m) i.
Proof.
  unfold IsDirty, QueueNetworkObjectUpdate. intros H.
  case_decide; [|done]. simpl. by apply IsDirty_insert_true.
Qed.

Lemma NetworkObjectRegistry_OnComponentAdded_keeps_flags o (m : ReplicationManager) i :
  IsDirty m i → IsDirty (NetworkObjectRegistry_OnComponentAdded o m) i.
Proof.
  unfold IsDirty, NetworkObjectRegistry_OnComponentAdded, DeconstructComponentReference.
  intros H. destruct (GetNetworkId o) as [index version]. simpl.
  pose proof (lookup_lt_Some _ _ _ H) as Hlt.
  case_bool_decide as Hlen; simpl; apply IsDirty_insert_true; [|done].
  rewrite lookup_resize; [done|lia|done].
Qed.

Lemma OnComponentAdded_keeps_flags o (m : ReplicationManager) i :
  IsDirty m i → IsDirty (OnComponentAdded o m) i.
Proof.
  intros H. unfold OnComponentAdded.
  destruct (IsStandalone _); [|by apply NetworkObjectRegistry_OnComponentAdded_keeps_flags].
  by apply (NetworkObjectRegistry_OnComponentAdded_keeps_flags o) in H.
Qed.

Lemma NetworkObjectRegistry_OnComponentRemoved_keeps_flags o (m : ReplicationManager) i :
  IsDirty m i → IsDirty (NetworkObjectRegistry_OnComponentRemoved o m) i.
Proof.
  intros H. unfold NetworkObjectRegistry_OnComponentRemoved.
  destruct (GetParentNetworkObject m o) as [p|]; [|done].
  case_decide; [|done].
  by apply (QueueNetworkObjectUpdate_keeps_flags p) in H.
Qed.

Lemma OnComponentRemoved_keeps_flags o (m : ReplicationManager) i :
  IsDirty m i → IsDirty (OnComponentRemoved o m) i.
Proof.
  intros H. unfold OnComponentRemoved.
  apply NetworkObjectRegistry_OnComponentRemoved_keeps_flags.
  by destruct (IsStandalone m).
Qed.

Lemma HandleSceneUpdate_dirty eventType timeStep (m : ReplicationManager) :
  networkObjectsDirty_ (HandleSceneUpdate eventType timeStep m) = networkObjectsDirty_ m.
Proof.
  unfold HandleSceneUpdate. destruct (mode_ m).
  - unfold InitializeObjectsStandalone. by rewrite InitializeObjectsStandalone_loop.
  - by destruct (server_ m).
  - destruct (client_ m) as [c|]; [|done]. by destruct (replica_ c).
Qed.

Lemma ProcessMessage_dirty connection messageId messageData (m : ReplicationManager) :
  networkObjectsDirty_ (ProcessMessage connection messageId messageData m).2
  = networkObjectsDirty_ m.
Proof.
  unfold ProcessMessage. destruct (client_ m) as [c|].
  - destruct (replica_ c) as [r|].
    + by destruct (Replica_ProcessMessage r messageId messageData).
    + unfold ProcessMessageOnUninitializedClient, InitializeIfReady.
      destruct messageId; simpl; try done.
      all: destruct (IsClockSynchronized connection && _); try done.
      all: repeat match goal with |- context [match ?x with _ => _ end] =>
             destruct x end; done.
  - destruct (server_ m) as [s|]; [|done].
    by destruct (Server_ProcessMessage s (conn_addr connection) messageId messageData).
Qed.

Lemma DropConnection_dirty connection (m : ReplicationManager) :
  networkObjectsDirty_ (DropConnection connection m) = networkObjectsDirty_ m.
Proof.
  unfold DropConnection. destruct (server_ m); [done|].
  destruct (client_ m) as [c|]; [|done]. case_decide; [|done].
  by pose proof (StartStandalone_fields m) as (_ & _ & _ & Hd).
Qed.

(** C4, as the code has it: the operations that take an index out of the
    dirty set are [UpdateNetworkObjects] and [RemoveAllNetworkObjects], and
    the two that call them, [OnScenePostUpdate] and [StartClient]; every
    other operation leaves each set flag set.  After
    [RemoveAllNetworkObjects] or [StartClient] the dirty vector is empty. *)
Theorem only_update_and_remove_all_clear_flags (op : Operation) (m : ReplicationManager) :
  (ClearsAFlag op m → FlushesFlags op)
  ∧ networkObjectsDirty_ (call Call_RemoveAllNetworkObjects m) = []
  ∧ (∀ c, networkObjectsDirty_ (call (Call_StartClient c) m) = []).
Proof.
  split; [|split].
  - intros (i & Hi & Hnot).
    destruct op; simpl in *; try done; exfalso; apply Hnot; clear Hnot.
    + by apply OnComponentAdded_keeps_flags.
    + by apply OnComponentRemoved_keeps_flags.
    + by apply QueueNetworkObjectUpdate_keeps_flags.
    + unfold IsDirty, OnSceneUpdate in *. by rewrite HandleSceneUpdate_dirty.
    + pose proof (Stop_fields m) as (_ & _ & _ & _ & _ & _ & H).
      unfold IsDirty in *. by rewrite H.
    + pose proof (StartStandalone_fields m) as (_ & _ & _ & H).
      unfold IsDirty in *. by rewrite H.
    + pose proof (StartServer_fields m) as (_ & _ & _ & H).
      unfold IsDirty in *. by rewrite H.
    + unfold IsDirty, deliver in *. by rewrite ProcessMessage_dirty.
    + unfold IsDirty in *. by rewrite DropConnection_dirty.
  - by pose proof (RemoveAllNetworkObjects_frame m) as (_ & _ & _ & _ & _ & _ & H).
  - intros c. by pose proof (StartClient_fields c m) as (_ & _ & _ & H).
Qed.

(** ** The debug string of a client that is not yet initialized *)

(** C8, as the code has it: "system clock" is named exactly when the
    connection is still there and reports an unsynchronized clock;
    "settings" exactly when no settings have arrived; "server scene time"
    when no initial clock has arrived and also, so that the list is never
    empty, when nothing else is named. *)
Theorem debug_info_names_outstanding_items
    (connection : option AbstractConnection) (c : ClientData) :
  let info := GetUninitializedClientDebugInfo connection c in
  (lists "system clock" info = true
   ↔ ∃ conn, connection = Some conn ∧ IsClockSynchronized conn = false)
  ∧ (lists "settings" info = true ↔ serverSettings_ c = None)
  ∧ (lists "server scene time" info = true
     ↔ initialClock_ c = None
       ∨ (lists "system clock" info = false ∧ lists "settings" info = false)).
Proof.
  destruct c as [c0 settings clock magic replica].
  unfold GetUninitializedClientDebugInfo, GetUninitializedClientDebugInfo_waitList.
  destruct connection as [[a [|]]|], settings as [st|], clock as [ck|]; simpl.
  all: split_and!; split; try done; try (intros [? [[= <-] ?]]; done);
    try (intros [? [[=] ?]]; done); try (intros [?|[? ?]]; done); eauto.
Qed.

(** ** Standalone initialization *)

Lemma GetNetworkObject_id (m : ReplicationManager) id o :
  GetNetworkObject m id true = Some o → GetNetworkId o = id.
Proof.
  unfold GetNetworkObject, GetTrackedComponentByReference. intros H.
  destruct (GetTrackedComponentByReferenceIndex m id.1) as [x|] eqn:E; [|done].
  apply GetTrackedComponentByReferenceIndex_elem in E as [_ Hi].
  simpl in H. case_bool_decide as Hv; simpl in H; [|done].
  inversion H; subst x. destruct (GetNetworkId o), id; simpl in *; congruence.
Qed.

Lemma countInitializeStandalone_app o evs1 evs2 :
  countInitializeStandalone o (evs1 ++ evs2)
  = countInitializeStandalone o evs1 + countInitializeStandalone o evs2.
Proof. unfold countInitializeStandalone. by rewrite filter_app, length_app. Qed.

Lemma countSetStandalone_app o evs1 evs2 :
  countSetStandalone o (evs1 ++ evs2)
  = countSetStandalone o evs1 + countSetStandalone o evs2.
Proof. unfold countSetStandalone. by rewrite filter_app, length_app. Qed.




Lemma OnSceneUpdate_standalone timeStep (m : ReplicationManager) :
  mode_ m = Standalone →
  OnSceneUpdate timeStep m
  = set_standalone (mkStandaloneData ∅)
      (emits (flat_map (InitializeObjectsStandalone_calls m)
                (elements (recentlyAddedObjects_ (standalone_ m)))
              ++ [Scene_SendEvent E_SCENENETWORKUPDATE timeStep timeStep]) m).
Proof.
  intros Hm. unfold OnSceneUpdate, HandleSceneUpdate. rewrite Hm.
  unfold InitializeObjectsStandalone. rewrite InitializeObjectsStandalone_loop.
  unfold_setters. unfold emits. simpl. by rewrite <- app_assoc.
Qed.

Lemma find_app_Some {A} (f : A → bool) l k x :
  List.find f l = Some x → List.find f (l ++ k) = Some x.
Proof. induction l as [|y l IH]; simpl; [done|]. by destruct (f y). Qed.

Lemma find_app_None {A} (f : A → bool) l k :
  List.find f l = None → List.find f (l ++ k) = List.find f k.
Proof. induction l as [|y l IH]; simpl; [done|]. by destruct (f y). Qed.

Lemma OnComponentAdded_fields o (m : ReplicationManager) :
  mode_ (OnComponentAdded o m) = mode_ m
  ∧ trackedComponents_ (OnComponentAdded o m) = trackedComponents_ m ++ [o]
  ∧ (mode_ m = Standalone →
     recentlyAddedObjects_ (standalone_ (OnComponentAdded o m))
     = {[GetNetworkId o]} ∪ recentlyAddedObjects_ (standalone_ m)).
Proof.
  unfold OnComponentAdded, NetworkObjectRegistry_OnComponentAdded, IsStandalone,
    DeconstructComponentReference.
  destruct (GetNetworkId o) as [index version] eqn:Hid. simpl.
  case_bool_decide; simpl; destruct (mode_ m) eqn:Hm; simpl; by rewrite ?Hid.
Qed.



Lemma addAll_fields os : ∀ (m : ReplicationManager),
  mode_ (addAll os m) = mode_ m
  ∧ trackedComponents_ (addAll os m) = trackedComponents_ m ++ os.
Proof.
  induction os as [|o os IH]; intros m; simpl.
  - by rewrite app_nil_r.
  - destruct (IH (OnComponentAdded o m)) as [-> ->].
    destruct (OnComponentAdded_fields o m) as (-> & -> & _).
    by rewrite <- app_assoc.
Qed.

Lemma addAll_snoc os o (m : ReplicationManager) :
  addAll (os ++ [o]) m = OnComponentAdded o (addAll os m).
Proof. unfold addAll. by rewrite foldl_app. Qed.


Lemma OnComponentRemoved_recentlyAdded o (m : ReplicationManager) :
  mode_ m = Standalone →
  recentlyAddedObjects_ (standalone_ (OnComponentRemoved o m))
  = recentlyAddedObjects_ (standalone_ m) ∖ {[GetNetworkId o]}.
Proof.
  intros Hm. unfold OnComponentRemoved, IsStandalone. rewrite Hm.
  match goal with |- context [NetworkObjectRegistry_OnComponentRemoved o ?m'] =>
    destruct (NetworkObjectRegistry_OnComponentRemoved_frame o m') as (_ & H2 & _)
  end.
  by rewrite H2.
Qed.



(** ** What holds in every reachable state *)

Lemma UpdateNetworkObjects_tracked (m : ReplicationManager) :
  trackedComponents_ (UpdateNetworkObjects m) = trackedComponents_ m.
Proof.
  unfold UpdateNetworkObjects. generalize (seq 0 (length (networkObjectsDirty_ m))).
  intros l. revert m. induction l as [|i l IH]; intros m; simpl; [done|].
  by rewrite IH, UpdateNetworkObjects_step_tracked.
Qed.

Lemma HandleSceneUpdate_tracked eventType timeStep (m : ReplicationManager) :
  trackedComponents_ (HandleSceneUpdate eventType timeStep m) = trackedComponents_ m.
Proof.
  unfold HandleSceneUpdate. destruct (mode_ m).
  - unfold InitializeObjectsStandalone. by rewrite InitializeObjectsStandalone_loop.
  - by destruct (server_ m).
  - destruct (client_ m) as [c|]; [|done]. by destruct (replica_ c).
Qed.

Lemma ProcessMessage_tracked connection messageId messageData (m : ReplicationManager) :
  trackedComponents_ (ProcessMessage connection messageId messageData m).2
  = trackedComponents_ m.
Proof.
  unfold ProcessMessage. destruct (client_ m) as [c|].
  - destruct (replica_ c) as [r|].
    + by destruct (Replica_ProcessMessage r messageId messageData).
    + unfold ProcessMessageOnUninitializedClient, InitializeIfReady.
      destruct messageId; simpl; try done.
      all: destruct (IsClockSynchronized connection && _); try done.
      all: repeat match goal with |- context [match ?x with _ => _ end] =>
             destruct x end; done.
  - destruct (server_ m) as [s|]; [|done].
    by destruct (Server_ProcessMessage s (conn_addr connection) messageId messageData).
Qed.

Lemma DropConnection_tracked connection (m : ReplicationManager) :
  trackedComponents_ (DropConnection connection m) = trackedComponents_ m.
Proof.
  unfold DropConnection. destruct (server_ m); [done|].
  destruct (client_ m) as [c|]; [|done]. case_decide; [|done].
  by pose proof (StartStandalone_fields m) as (_ & _ & Ht & _).
Qed.

(** What an operation does to the list of registered objects: it appends
    the object added, or drops some, or leaves the list alone. *)
Lemma call_tracked op (m : ReplicationManager) :
  (∃ o, op = Call_OnComponentAdded o
        ∧ trackedComponents_ (call op m) = trackedComponents_ m ++ [o])
  ∨ trackedComponents_ (call op m) `sublist_of` trackedComponents_ m.
Proof.
  assert (Hsame : ∀ m' : ReplicationManager,
            trackedComponents_ m' = trackedComponents_ m →
            trackedComponents_ m' `sublist_of` trackedComponents_ m)
    by (by intros m' ->).
  assert (Hnone : ∀ m' : ReplicationManager,
            trackedComponents_ m' = [] →
            trackedComponents_ m' `sublist_of` trackedComponents_ m)
    by (intros m' ->; apply sublist_nil_l).
  destruct op; cbn [call].
  - left. eexists. split; [done|]. apply OnComponentAdded_fields.
  - right. destruct (OnComponentRemoved_frame o m) as (_ & _ & _ & _ & _ & ->).
    apply sublist_filter.
  - right. apply Hsame. apply QueueNetworkObjectUpdate_frame.
  - right. apply Hnone. apply RemoveAllNetworkObjects_frame.
  - right. apply Hsame. apply UpdateNetworkObjects_tracked.
  - right. apply Hsame. apply HandleSceneUpdate_tracked.
  - right. apply Hsame. unfold OnScenePostUpdate.
    by rewrite UpdateNetworkObjects_tracked, HandleSceneUpdate_tracked.
  - right. apply Hsame. apply Stop_fields.
  - right. apply Hsame. apply StartStandalone_fields.
  - right. apply Hsame. apply StartServer_fields.
  - right. apply Hnone. apply StartClient_fields.
  - right. apply Hsame. apply ProcessMessage_tracked.
  - right. apply Hsame. apply DropConnection_tracked.
Qed.

(** No object is registered twice. *)
Lemma Reachable_NoDup (m : ReplicationManager) :
  Reachable m → NoDup (trackedComponents_ m).
Proof.
  induction 1 as [scene|op m Hm IH Hok]; [apply NoDup_nil_2|].
  destruct (call_tracked op m) as [(o & -> & ->)|Hsub].
  - apply NoDup_app. split; [done|]. split; [|apply NoDup_singleton].
    intros x Hx ->%list_elem_of_singleton. by apply (Hok o).
  - by eapply sublist_NoDup.
Qed.

Lemma DirtyCovers_Forall (m : ReplicationManager) :
  DirtyCovers m
  ↔ Forall (fun o => (GetNetworkId o).1 < length (networkObjectsDirty_ m))
      (trackedComponents_ m).
Proof. unfold DirtyCovers. by rewrite Forall_forall. Qed.

Lemma NetworkObjectRegistry_OnComponentAdded_dirty_length o (m : ReplicationManager) :
  length (networkObjectsDirty_ m)
  ≤ length (networkObjectsDirty_ (NetworkObjectRegistry_OnComponentAdded o m))
  ∧ (GetNetworkId o).1
    < length (networkObjectsDirty_ (NetworkObjectRegistry_OnComponentAdded o m)).
Proof.
  unfold NetworkObjectRegistry_OnComponentAdded, DeconstructComponentReference.
  destruct (GetNetworkId o) as [index version]. simpl.
  case_bool_decide as Hlen; simpl; rewrite length_insert, ?length_resize; lia.
Qed.

(** Every registered object has a flag in the dirty vector. *)
Lemma Reachable_DirtyCovers (m : ReplicationManager) :
  Reachable m → DirtyCovers m.
Proof.
  induction 1 as [scene|op m Hm IH Hok].
  { intros o Ho. by apply elem_of_nil in Ho. }
  assert (Hsame : ∀ m' : ReplicationManager,
            (∀ x, x ∈ trackedComponents_ m' → x ∈ trackedComponents_ m) →
            length (networkObjectsDirty_ m') = length (networkObjectsDirty_ m) →
            DirtyCovers m').
  { intros m' Hsub Hlen x Hx. rewrite Hlen. by apply IH, Hsub. }
  assert (Hnone : ∀ m' : ReplicationManager, trackedComponents_ m' = [] → DirtyCovers m').
  { intros m' Ht x Hx. rewrite Ht in Hx. by apply elem_of_nil in Hx. }
  destruct op; cbn [call].
  - destruct (OnComponentAdded_fields o m) as (_ & Ht & _).
    destruct (NetworkObjectRegistry_OnComponentAdded_dirty_length o m) as [Hle Hlt].
    assert (networkObjectsDirty_ (OnComponentAdded o m)
            = networkObjectsDirty_ (NetworkObjectRegistry_OnComponentAdded o m)) as Hd.
    { unfold OnComponentAdded. by destruct (IsStandalone _). }
    intros x Hx. rewrite Ht in Hx. rewrite Hd.
    apply elem_of_app in Hx as [Hx|Hx];
      [|apply list_elem_of_singleton in Hx as ->; done].
    specialize (IH x Hx). lia.
  - apply Hsame.
    + intros x Hx. destruct (OnComponentRemoved_frame o m) as (_ & _ & _ & _ & _ & Ht).
      rewrite Ht in Hx. by apply list_elem_of_filter in Hx as [_ ?].
    + unfold OnComponentRemoved, NetworkObjectRegistry_OnComponentRemoved.
      destruct (IsStandalone m); simpl.
      all: match goal with |- context [GetParentNetworkObject ?m' ?o'] =>
             destruct (GetParentNetworkObject m' o') as [p|]; [|done] end.
      all: case_decide; [|done].
      all: unfold QueueNetworkObjectUpdate; case_decide; [|done].
      all: simpl; apply length_insert.
  - apply Hsame.
    + intros x. by destruct (QueueNetworkObjectUpdate_frame o m) as (_&_&_&_&_& ->).
    + unfold QueueNetworkObjectUpdate. case_decide; [|done]. apply length_insert.
  - apply Hnone. apply RemoveAllNetworkObjects_frame.
  - apply Hsame.
    + intros x. by rewrite UpdateNetworkObjects_tracked.
    + by rewrite UpdateNetworkObjects_dirty, length_replicate.
  - apply Hsame.
    + intros x. unfold OnSceneUpdate. by rewrite HandleSceneUpdate_tracked.
    + unfold OnSceneUpdate. by rewrite HandleSceneUpdate_dirty.
  - apply Hsame.
    + intros x. unfold OnScenePostUpdate.
      by rewrite UpdateNetworkObjects_tracked, HandleSceneUpdate_tracked.
    + unfold OnScenePostUpdate.
      by rewrite UpdateNetworkObjects_dirty, length_replicate, HandleSceneUpdate_dirty.
  - pose proof (Stop_fields m) as (_ & _ & _ & _ & _ & Ht & Hd).
    apply Hsame; [intros x; by rewrite Ht|by rewrite Hd].
  - pose proof (StartStandalone_fields m) as (_ & _ & Ht & Hd).
    apply Hsame; [intros x; by rewrite Ht|by rewrite Hd].
  - pose proof (StartServer_fields m) as (_ & _ & Ht & Hd).
    apply Hsame; [intros x; by rewrite Ht|by rewrite Hd].
  - apply Hnone. apply StartClient_fields.
  - apply Hsame.
    + intros x. unfold deliver. by rewrite ProcessMessage_tracked.
    + unfold deliver. by rewrite ProcessMessage_dirty.
  - apply Hsame.
    + intros x. by rewrite DropConnection_tracked.
    + by rewrite DropConnection_dirty.
Qed.

(** Parent links that go strictly down a rank have no cycle. *)
Lemma acyclic_by_rank (m : ReplicationManager) (rank : NetworkObject → nat) :
  (∀ c p, c ∈ trackedComponents_ m → GetParentNetworkObject m c = Some p →
          rank p < rank c) →
  AcyclicParents m.
Proof.
  intros Hrank.
  assert (Hanc : ∀ a d, Ancestor m a d →
            a ∈ trackedComponents_ m
            ∧ (d ∈ trackedComponents_ m → rank a < rank d)).
  { intros a d H. induction H as [d Hp|p d Hp Hanc [IHa IHr]].
    - split; [by eapply GetParentNetworkObject_elem|]. intros Hd. by apply Hrank.
    - split; [done|]. intros Hd.
      specialize (Hrank d p Hd Hp).
      specialize (IHr (GetParentNetworkObject_elem _ _ _ Hp)). lia. }
  intros o Ho. destruct (Hanc o o Ho) as [Hin Hlt]. specialize (Hlt Hin). lia.
Qed.

(** ** The mode and the state that goes with it *)

Lemma OnComponentAdded_frame o (m : ReplicationManager) :
  server_ (OnComponentAdded o m) = server_ m
  ∧ client_ (OnComponentAdded o m) = client_ m
  ∧ scene_ (OnComponentAdded o m) = scene_ m.
Proof.
  unfold OnComponentAdded, NetworkObjectRegistry_OnComponentAdded, IsStandalone,
    DeconstructComponentReference.
  destruct (GetNetworkId o) as [index version] eqn:Hid. simpl.
  case_bool_decide; simpl; destruct (mode_ m) eqn:Hm; simpl; by rewrite ?Hid.
Qed.

Lemma UpdateNetworkObjects_step_frame (m : ReplicationManager) i :
  mode_ (UpdateNetworkObjects_step m i) = mode_ m
  ∧ standalone_ (UpdateNetworkObjects_step m i) = standalone_ m
  ∧ server_ (UpdateNetworkObjects_step m i) = server_ m
  ∧ client_ (UpdateNetworkObjects_step m i) = client_ m
  ∧ scene_ (UpdateNetworkObjects_step m i) = scene_ m.
Proof.
  unfold UpdateNetworkObjects_step.
  destruct (networkObjectsDirty_ m !! i) as [[|]|]; try done.
  destruct (GetNetworkObjectByIndex m i); done.
Qed.

Lemma UpdateNetworkObjects_frame (m : ReplicationManager) :
  mode_ (UpdateNetworkObjects m) = mode_ m
  ∧ standalone_ (UpdateNetworkObjects m) = standalone_ m
  ∧ server_ (UpdateNetworkObjects m) = server_ m
  ∧ client_ (UpdateNetworkObjects m) = client_ m
  ∧ scene_ (UpdateNetworkObjects m) = scene_ m.
Proof.
  unfold UpdateNetworkObjects.
  generalize (seq 0 (length (networkObjectsDirty_ m))). intros l.
  revert m. induction l as [|i l IH]; intros m; [done|].
  simpl. pose proof (IH (UpdateNetworkObjects_step m i)) as (H1 & H2 & H3 & H4 & H5).
  pose proof (UpdateNetworkObjects_step_frame m i) as (G1 & G2 & G3 & G4 & G5).
  rewrite H1, H2, H3, H4, H5. done.
Qed.

Lemma InitializeObjectsStandalone_frame (m : ReplicationManager) :
  mode_ (InitializeObjectsStandalone m) = mode_ m
  ∧ server_ (InitializeObjectsStandalone m) = server_ m
  ∧ client_ (InitializeObjectsStandalone m) = client_ m
  ∧ scene_ (InitializeObjectsStandalone m) = scene_ m
  ∧ trackedComponents_ (InitializeObjectsStandalone m) = trackedComponents_ m
  ∧ standalone_ (InitializeObjectsStandalone m) = mkStandaloneData ∅.
Proof.
  unfold InitializeObjectsStandalone. by rewrite InitializeObjectsStandalone_loop.
Qed.

Lemma ModeInvariant_frame (m m' : ReplicationManager) :
  mode_ m' = mode_ m → server_ m' = server_ m → client_ m' = client_ m →
  ModeInvariant m → ModeInvariant m'.
Proof. unfold ModeInvariant. by intros -> -> ->. Qed.

Lemma HandleSceneUpdate_ModeInvariant eventType timeStep (m : ReplicationManager) :
  ModeInvariant m → ModeInvariant (HandleSceneUpdate eventType timeStep m).
Proof.
  unfold HandleSceneUpdate. intros H.
  destruct (mode_ m) eqn:E.
  - pose proof (InitializeObjectsStandalone_frame m) as (H1 & H2 & H3 & _).
    eapply ModeInvariant_frame; [exact H1|exact H2|exact H3|exact H].
  - destruct (server_ m) as [s|] eqn:Es; [|done].
    unfold ModeInvariant in *. simpl. rewrite E in *. split; [by eexists|apply H].
  - destruct (client_ m) as [c|] eqn:Ec; [|done].
    destruct (replica_ c); [|done].
    unfold ModeInvariant in *. simpl. rewrite E in *. split; [by eexists|apply H].
Qed.

Lemma deliver_ModeInvariant (m : ReplicationManager) (d : Delivery) :
  ModeInvariant m → ModeInvariant (deliver m d).
Proof.
  unfold deliver, ProcessMessage, ModeInvariant. intros H.
  destruct (client_ m) as [c|] eqn:Ec.
  - assert (mode_ m = Client ∧ server_ m = None) as [Hm Hs].
    { destruct (mode_ m); destruct H as [H1 H2]; done. }
    destruct (replica_ c) as [r|].
    + destruct (Replica_ProcessMessage r d.1.2 d.2) as [handled r']. simpl.
      rewrite Hm. split; [by eexists|done].
    + unfold ProcessMessageOnUninitializedClient, InitializeIfReady.
      destruct d.1.2; simpl; try (rewrite Hm, Ec; split; [by eexists|done]).
      all: match goal with |- context [if ?b then _ else _] => destruct b end.
      all: repeat match goal with
             | |- context [match ?x with Some _ => _ | None => _ end] => destruct x
             end.
      all: simpl; rewrite Hm; split; [by eexists|done].
  - destruct (server_ m) as [s|] eqn:Es; [|simpl; by rewrite Ec, Es].
    destruct (Server_ProcessMessage s (conn_addr d.1.1) d.1.2 d.2) as [handled s'].
    simpl. destruct (mode_ m); destruct H as [H1 H2]; done.
Qed.

Lemma ModeState_eq (m : ReplicationManager) mode standalone server client :
  ModeState m = (mode, standalone, server, client) →
  mode_ m = mode ∧ standalone_ m = standalone ∧ server_ m = server ∧ client_ m = client.
Proof. unfold ModeState. by intros [= ? ? ? ?]. Qed.

Lemma StartStandalone_ModeInvariant (m : ReplicationManager) :
  ModeInvariant (StartStandalone m).
Proof.
  pose proof (StartStandalone_fields m) as (H & _).
  apply ModeState_eq in H as (H1 & _ & H3 & H4).
  unfold ModeInvariant. by rewrite H1, H3, H4.
Qed.

Lemma DropConnection_ModeInvariant connection (m : ReplicationManager) :
  ModeInvariant m → ModeInvariant (DropConnection connection m).
Proof.
  unfold DropConnection. intros H.
  destruct (server_ m) as [s|] eqn:Es.
  - unfold ModeInvariant in *. simpl. rewrite Es in H.
    destruct (mode_ m); destruct H as [H1 H2]; done.
  - destruct (client_ m) as [c|]; [|done].
    case_decide; [apply StartStandalone_ModeInvariant|done].
Qed.

Lemma call_ModeInvariant op (m : ReplicationManager) :
  ModeInvariant m → ModeInvariant (call op m).
Proof.
  intros H. destruct op; cbn [call].
  - pose proof (OnComponentAdded_fields o m) as (H1 & _).
    pose proof (OnComponentAdded_frame o m) as (H2 & H3 & _).
    by eapply ModeInvariant_frame.
  - pose proof (OnComponentRemoved_frame o m) as (H1 & H2 & H3 & _).
    by eapply ModeInvariant_frame.
  - pose proof (QueueNetworkObjectUpdate_frame o m) as (H1 & _ & H2 & H3 & _).
    by eapply ModeInvariant_frame.
  - pose proof (RemoveAllNetworkObjects_frame m) as (H1 & H2 & H3 & _).
    by eapply ModeInvariant_frame.
  - pose proof (UpdateNetworkObjects_frame m) as (H1 & _ & H2 & H3 & _).
    by eapply ModeInvariant_frame.
  - by apply HandleSceneUpdate_ModeInvariant.
  - unfold OnScenePostUpdate.
    pose proof (UpdateNetworkObjects_frame
                  (HandleSceneUpdate E_SCENENETWORKPOSTUPDATE timeStep m))
      as (H1 & _ & H2 & H3 & _).
    eapply ModeInvariant_frame; [done..|]. by apply HandleSceneUpdate_ModeInvariant.
  - pose proof (Stop_fields m) as (H1 & _ & H2 & H3 & _).
    unfold ModeInvariant. by rewrite H1, H2, H3.
  - apply StartStandalone_ModeInvariant.
  - pose proof (StartServer_fields m) as (H1 & _).
    apply ModeState_eq in H1 as (H1 & _ & H3 & H4).
    unfold ModeInvariant. rewrite H1, H3, H4. split; [by eexists|done].
  - pose proof (StartClient_fields connectionToServer m) as (H1 & _).
    apply ModeState_eq in H1 as (H1 & _ & H3 & H4).
    unfold ModeInvariant. rewrite H1, H3, H4. split; [by eexists|done].
  - by apply deliver_ModeInvariant.
  - by apply DropConnection_ModeInvariant.
Qed.

(** X1: in every state that a manager reaches from its construction, the
    mode agrees with the state that is held: Standalone mode holds neither a
    server nor a client, Server mode holds a server and no client, Client
    mode holds a client and no server.  These are the three conditions that
    [HandleSceneUpdate] asserts, so none of its assertions fails, and its
    Server and Client branches always find the object they call. *)
Theorem HandleSceneUpdate_assertions_hold (m : ReplicationManager) :
  Reachable m →
  ModeInvariant m
  ∧ (mode_ m = Server → ∀ eventType timeStep, ∃ s,
       server_ m = Some s
       ∧ HandleSceneUpdate eventType timeStep m
         = set_server (Some (Server_ProcessSceneUpdate s eventType)) m)
  ∧ (mode_ m = Client → ∀ eventType timeStep, ∃ c,
       client_ m = Some c
       ∧ (replica_ c = None → HandleSceneUpdate eventType timeStep m = m)).
Proof.
  intros Hr.
  assert (ModeInvariant m) as Hinv.
  { induction Hr as [scene|op m Hr IH Hop]; [done|]. by apply call_ModeInvariant. }
  split; [done|]. unfold ModeInvariant in Hinv. split.
  - intros Hm eventType timeStep. rewrite Hm in Hinv. destruct Hinv as [[s Hs] _].
    exists s. split; [done|]. unfold HandleSceneUpdate. by rewrite Hm, Hs.
  - intros Hm eventType timeStep. rewrite Hm in Hinv. destruct Hinv as [[c Hc] _].
    exists c. split; [done|]. intros Hrep. unfold HandleSceneUpdate.
    by rewrite Hm, Hc, Hrep.
Qed.

(** ** The optionals of the client handshake *)

Lemma HandshakeInvariant_frame (m m' : ReplicationManager) :
  client_ m' = client_ m → HandshakeInvariant m → HandshakeInvariant m'.
Proof. unfold HandshakeInvariant. by intros ->. Qed.

Lemma HandshakeInvariant_None (m : ReplicationManager) :
  client_ m = None → HandshakeInvariant m.
Proof. unfold HandshakeInvariant. by intros ->. Qed.

Lemma HandleSceneUpdate_HandshakeInvariant eventType timeStep (m : ReplicationManager) :
  HandshakeInvariant m → HandshakeInvariant (HandleSceneUpdate eventType timeStep m).
Proof.
  unfold HandleSceneUpdate. intros H.
  destruct (mode_ m).
  - pose proof (InitializeObjectsStandalone_frame m) as (_ & _ & H3 & _).
    eapply HandshakeInvariant_frame; [exact H3|exact H].
  - destruct (server_ m); [|done]. by eapply HandshakeInvariant_frame.
  - destruct (client_ m) as [c|] eqn:Ec; [|done].
    destruct (replica_ c) as [r|] eqn:Er; [|done].
    intros c' [= <-]. simpl. destruct (H c Ec) as [H1 H2]. split; [done|].
    intros _. apply H2. by rewrite Er.
Qed.

Lemma deliver_HandshakeInvariant (m : ReplicationManager) (d : Delivery) :
  HandshakeInvariant m → HandshakeInvariant (deliver m d).
Proof.
  unfold deliver, ProcessMessage. intros H.
  destruct (client_ m) as [c|] eqn:Ec.
  - destruct (H c Ec) as [H1 H2].
    destruct c as [conn settings clock magic [r|]]; simpl in *.
    + destruct (Replica_ProcessMessage r d.1.2 d.2) as [handled r'].
      intros c' [= <-]. simpl. split; [done|]. intros _. apply H2. by eexists.
    + unfold ProcessMessageOnUninitializedClient, InitializeIfReady, IsReadyToInitialize.
      destruct d.1.2; simpl; try (intros c' Hc'; rewrite Ec in Hc'; by simplify_eq).
      * destruct (IsClockSynchronized d.1.1); simpl;
          [destruct clock; simpl|]; intros c' [= <-]; simpl;
          (split; [done|]); by intros [].
      * destruct (IsClockSynchronized d.1.1); simpl;
          [destruct settings, magic; simpl|]; intros c' [= <-]; simpl;
          (split; [done|]); by intros [].
  - destruct (server_ m) as [s|]; [|simpl; by apply HandshakeInvariant_None].
    destruct (Server_ProcessMessage s (conn_addr d.1.1) d.1.2 d.2) as [handled s'].
    by apply HandshakeInvariant_None.
Qed.

Lemma call_HandshakeInvariant op (m : ReplicationManager) :
  HandshakeInvariant m → HandshakeInvariant (call op m).
Proof.
  intros H. destruct op; cbn [call].
  - pose proof (OnComponentAdded_frame o m) as (_ & H3 & _).
    by eapply HandshakeInvariant_frame.
  - pose proof (OnComponentRemoved_frame o m) as (_ & _ & H3 & _).
    by eapply HandshakeInvariant_frame.
  - pose proof (QueueNetworkObjectUpdate_frame o m) as (_ & _ & _ & H3 & _).
    by eapply HandshakeInvariant_frame.
  - pose proof (RemoveAllNetworkObjects_frame m) as (_ & _ & H3 & _).
    by eapply HandshakeInvariant_frame.
  - pose proof (UpdateNetworkObjects_frame m) as (_ & _ & _ & H3 & _).
    by eapply HandshakeInvariant_frame.
  - by apply HandleSceneUpdate_HandshakeInvariant.
  - unfold OnScenePostUpdate.
    pose proof (UpdateNetworkObjects_frame
                  (HandleSceneUpdate E_SCENENETWORKPOSTUPDATE timeStep m))
      as (_ & _ & _ & H3 & _).
    eapply HandshakeInvariant_frame; [done|].
    by apply HandleSceneUpdate_HandshakeInvariant.
  - pose proof (Stop_fields m) as (_ & _ & _ & H3 & _).
    by apply HandshakeInvariant_None.
  - pose proof (StartStandalone_fields m) as (H1 & _).
    apply ModeState_eq in H1 as (_ & _ & _ & H4). by apply HandshakeInvariant_None.
  - pose proof (StartServer_fields m) as (H1 & _).
    apply ModeState_eq in H1 as (_ & _ & _ & H4). by apply HandshakeInvariant_None.
  - pose proof (StartClient_fields connectionToServer m) as (H1 & _).
    apply ModeState_eq in H1 as (_ & _ & _ & H4).
    intros c Hc. rewrite H4 in Hc. injection Hc as <-. simpl.
    split; [done|]. by intros [].
  - by apply deliver_HandshakeInvariant.
  - unfold DropConnection. destruct (server_ m); [by eapply HandshakeInvariant_frame|].
    destruct (client_ m) as [c|]; [|done]. case_decide; [|done].
    pose proof (StartStandalone_fields m) as (H1 & _).
    apply ModeState_eq in H1 as (_ & _ & _ & H4). by apply HandshakeInvariant_None.
Qed.

(** X2: in every state that a manager reaches from its construction,
    whether its client has a replica or not, the client holds the magic
    token exactly when it holds the settings, and a client with a replica
    holds settings and clock.  So the three optionals
    that [ProcessMessageOnUninitializedClient] dereferences are set when it
    dereferences them: over a synchronized connection, a client that holds
    the clock is initialized by the next Configure message, and a client
    that holds the settings is initialized by the next SceneClock message
    and acknowledges with the token it stored. *)
Theorem handshake_optionals_are_set_when_dereferenced (m : ReplicationManager) :
  Reachable m →
  HandshakeInvariant m
  ∧ (∀ (connection : AbstractConnection) (messageData : MemoryBuffer) (c : ClientData),
       client_ m = Some c → replica_ c = None →
       IsClockSynchronized connection = true →
       (∀ clock, initialClock_ c = Some clock →
          let m' := (ProcessMessage connection MSG_CONFIGURE messageData m).2 in
          GetClientReplica m'
          = Some (MakeClientReplica (scene_ m) (conn_addr connection) clock
                    (settings_ (ReadMsgConfigure messageData)))
          ∧ SynchronizedSent m'
            = SynchronizedSent m
              ++ [(conn_addr connection,
                   mkMsgSynchronized (magic_ (ReadMsgConfigure messageData)),
                   ReliableUnordered)])
       ∧ (∀ settings, serverSettings_ c = Some settings →
            let m' := (ProcessMessage connection MSG_SCENE_CLOCK messageData m).2 in
            ∃ magic,
              ackMagic_ c = Some magic
              ∧ GetClientReplica m'
                = Some (MakeClientReplica (scene_ m) (conn_addr connection)
                          (ReadMsgSceneClock messageData) settings)
              ∧ SynchronizedSent m'
                = SynchronizedSent m
                  ++ [(conn_addr connection, mkMsgSynchronized magic,
                       ReliableUnordered)])).
Proof.
  intros Hr.
  assert (HandshakeInvariant m) as Hinv.
  { induction Hr as [scene|op m Hr IH Hop]; [done|].
    by apply call_HandshakeInvariant. }
  split; [done|]. intros connection messageData c Hc Hrep Hsync.
  destruct (Hinv c Hc) as [Hmagic _].
  unfold ProcessMessage, ProcessMessageOnUninitializedClient, InitializeIfReady,
    IsReadyToInitialize, GetClientReplica.
  rewrite Hc, Hrep, Hsync. split.
  - intros clock Hclock. simpl. rewrite Hclock. simpl.
    split; [done|]. unfold SynchronizedSent. simpl.
    by rewrite !omap_app, app_nil_r.
  - intros settings Hsettings. simpl. rewrite Hsettings.
    destruct Hmagic as [[magic Hm] _]; [by eexists|]. exists magic.
    rewrite Hm. simpl. split; [done|]. split; [done|].
    unfold SynchronizedSent. simpl. by rewrite !omap_app, app_nil_r.
Qed.

(** ** The registry in the states a manager reaches *)

(** X3: in every state that a manager reaches from its construction, no
    object is registered twice and the dirty vector has a flag for every
    registered object, so that every index that resolves to an object is an
    index of the vector: the write of [QueueNetworkObjectUpdate] stays
    inside the vector and leaves its size as it is. *)
Theorem registered_objects_have_a_flag (m : ReplicationManager) :
  Reachable m →
  NoDup (trackedComponents_ m)
  ∧ DirtyCovers m
  ∧ (∀ index o, GetNetworkObjectByIndex m index = Some o →
                is_Some (networkObjectsDirty_ m !! index))
  ∧ (∀ o, GetNetworkObject m (GetNetworkId o) true = Some o →
          length (networkObjectsDirty_ (QueueNetworkObjectUpdate o m))
          = length (networkObjectsDirty_ m)
          ∧ IsDirty (QueueNetworkObjectUpdate o m) (GetNetworkId o).1).
Proof.
  intros Hr. pose proof (Reachable_DirtyCovers m Hr) as Hcov.
  split; [by apply Reachable_NoDup|]. split; [done|]. split.
  - intros index o Ho. apply lookup_lt_is_Some.
    apply GetTrackedComponentByReferenceIndex_elem in Ho as [Hin <-]. by apply Hcov.
  - intros o Ho. unfold QueueNetworkObjectUpdate, IsDirty.
    rewrite decide_True by done. simpl. rewrite length_insert. split; [done|].
    apply list_lookup_insert_eq.
    apply GetNetworkObject_elem in Ho as [Hin _]. by apply Hcov.
Qed.

(** ** GetSortedNetworkObjects on parent links with cycles *)

Lemma Ancestor_trans (m : ReplicationManager) a b c :
  Ancestor m a b → Ancestor m b c → Ancestor m a c.
Proof.
  intros Hab Hbc. induction Hbc as [c Hp|p c Hp Hbp IH].
  - by eapply Ancestor_step.
  - eapply Ancestor_step; [done|]. by apply IH.
Qed.

Lemma SortedInv_ancestor_listed_before (m : ReplicationManager) sorted a d :
  SortedInv m (length sorted) sorted →
  Ancestor m a d → d ∈ sorted → before a d sorted.
Proof.
  intros Hinv Hanc. induction Hanc as [d Hp|p d Hp Hanc IH]; intros Hd.
  - by eapply SortedInv_parent_before.
  - pose proof (SortedInv_parent_before _ _ _ _ Hinv Hd Hp) as Hpd.
    eapply before_trans; [by apply (inv_nodup _ _ _ Hinv)| |done].
    apply IH. destruct Hpd as (i & j & Hi & _). by eapply list_elem_of_lookup_2.
Qed.

Lemma before_irrefl x (l : list NetworkObject) : NoDup l → ¬ before x x l.
Proof.
  intros Hnd (i & j & Hi & Hj & Hij).
  pose proof (proj1 (NoDup_alt l) Hnd _ _ _ Hi Hj). lia.
Qed.

Lemma SortedInv_listed_unless_below_cycle (m : ReplicationManager) sorted o :
  SortedInv m (length sorted) sorted →
  o ∈ trackedComponents_ m → ¬ BelowCycle m o → o ∈ sorted.
Proof.
  intros [I1 I2 I3 I4 I5 I6] Ho Hfree.
  destruct (decide (o ∈ sorted)) as [|Hnot]; [done|]. exfalso.
  set (P := fun x => x ∈ trackedComponents_ m ∧ (x ∉ sorted)
                     ∧ (x = o ∨ Ancestor m x o)).
  assert (∀ x, P x → ∃ p, GetParentNetworkObject m x = Some p ∧ P p) as Hclosed.
  { intros x (Hx & Hnx & Hxo).
    destruct (GetParentNetworkObject m x) as [p|] eqn:Hp.
    - exists p. split; [done|]. split; [by eapply GetParentNetworkObject_elem|]. split.
      + intros [k Hk]%list_elem_of_lookup_1. apply Hnx.
        apply (I5 k p x); [by eapply lookup_lt_Some|done..].
      + right. destruct Hxo as [->|Hxo]; [by apply Ancestor_parent|].
        eapply Ancestor_trans; [|done]. by apply Ancestor_parent.
    - destruct Hnx. by apply I6. }
  destruct (parent_chain m P Hclosed (length (trackedComponents_ m)) o)
    as (l & Hlen & Hall & Hanc); [by split_and!; [| |left]|].
  assert (∀ i j x, (o :: l) !! i = Some x → (o :: l) !! j = Some x → i < j → False)
    as Hloop.
  { intros i j x Hi Hj Hij. apply Hfree. exists x. split; [by apply (Hanc i j)|].
    apply list_elem_of_lookup_2 in Hi.
    eapply Forall_forall in Hall; [|done]. by destruct Hall as (_ & _ & ?). }
  assert (NoDup (o :: l)) as Hnd.
  { apply NoDup_alt. intros i j x Hi Hj.
    destruct (lt_eq_lt_dec i j) as [[Hlt|Heq]|Hgt]; [|done|]; exfalso; eauto. }
  assert (length (o :: l) ≤ length (trackedComponents_ m)) as Hle.
  { apply submseteq_length, NoDup_submseteq; [done|].
    intros x Hx. eapply Forall_forall in Hall; [|done]. by destruct Hall. }
  simpl in Hle. lia.
Qed.

(** X4: whatever the parent links are, cyclic or not, in a registry that
    lists no object twice [GetSortedNetworkObjects] returns: the loop that
    walks the vector it appends to ends within one turn per registered
    object.  The vector lists an object at most once and a parent before
    its child; it lists exactly the registered objects that neither lie on
    a cycle of parent links nor descend from one, so the objects of a cycle
    and all below them are left out. *)
Theorem GetSortedNetworkObjects_leaves_out_cycles (m : ReplicationManager) :
  NoDup (trackedComponents_ m) →
  ∃ sorted,
    GetSortedNetworkObjects m = Some sorted
    ∧ NoDup sorted
    ∧ length sorted ≤ length (trackedComponents_ m)
    ∧ (∀ o, o ∈ sorted ↔ o ∈ trackedComponents_ m ∧ ¬ BelowCycle m o)
    ∧ (∀ c p, c ∈ sorted → GetParentNetworkObject m c = Some p → before p c sorted).
Proof.
  intros Hnd.
  pose proof (SortedInv_init m Hnd) as H0.
  destruct (GetSortedNetworkObjects_loop_total m
              (S (length (trackedComponents_ m))) 0 _ Hnd H0) as (sorted & Hrun & Hinv);
    [lia|].
  pose proof (inv_nodup _ _ _ Hinv) as Hnds.
  exists sorted. split; [done|]. split; [done|].
  split; [by eapply SortedInv_length|]. split.
  - intros o. split.
    + intros Ho. split; [by apply (inv_tracked _ _ _ Hinv)|].
      intros (a & Hcycle & [->|Hanc]).
      * eapply before_irrefl; [done|]. by eapply SortedInv_ancestor_listed_before.
      * pose proof (SortedInv_ancestor_listed_before _ _ _ _ Hinv Hanc Ho)
          as (i & j & Hi & _).
        eapply before_irrefl; [done|].
        eapply SortedInv_ancestor_listed_before; [done..|].
        by eapply list_elem_of_lookup_2.
    + intros [Ho Hfree]. by eapply SortedInv_listed_unless_below_cycle.
  - intros c p Hc Hp. by eapply SortedInv_parent_before.
Qed.

(** ** What UpdateNetworkObjects calls *)

Lemma UpdateNetworkObjects_step_trace (m : ReplicationManager) i :
  trace_ (UpdateNetworkObjects_step m i) = trace_ m ++ UpdateNetworkObjects_calls m i.
Proof.
  unfold UpdateNetworkObjects_step, UpdateNetworkObjects_calls.
  destruct (networkObjectsDirty_ m !! i) as [[|]|]; simpl; rewrite ?app_nil_r; try done.
  destruct (GetNetworkObjectByIndex m i); simpl; by rewrite ?app_nil_r, <- ?app_assoc.
Qed.

Lemma UpdateNetworkObjects_calls_ext (m m' : ReplicationManager) j :
  trackedComponents_ m' = trackedComponents_ m →
  networkObjectsDirty_ m' !! j = networkObjectsDirty_ m !! j →
  UpdateNetworkObjects_calls m' j = UpdateNetworkObjects_calls m j.
Proof.
  unfold UpdateNetworkObjects_calls, GetNetworkObjectByIndex,
    GetTrackedComponentByReferenceIndex.
  by intros -> ->.
Qed.

Lemma UpdateNetworkObjects_loop_trace l : ∀ (m0 m : ReplicationManager),
  NoDup l →
  (∀ j, j ∈ l → UpdateNetworkObjects_calls m j = UpdateNetworkObjects_calls m0 j) →
  trace_ (foldl UpdateNetworkObjects_step m l)
  = trace_ m ++ flat_map (UpdateNetworkObjects_calls m0) l.
Proof.
  induction l as [|i l IH]; intros m0 m Hnd Hsame; simpl; [by rewrite app_nil_r|].
  apply NoDup_cons in Hnd as [Hi Hnd].
  rewrite (IH m0); [|done|].
  - rewrite UpdateNetworkObjects_step_trace, <- app_assoc.
    rewrite Hsame; [done|by left].
  - intros j Hj. rewrite <- Hsame by (by right).
    apply UpdateNetworkObjects_calls_ext; [apply UpdateNetworkObjects_step_tracked|].
    rewrite UpdateNetworkObjects_step_dirty. apply list_lookup_insert_ne.
    by intros ->.
Qed.

Lemma UpdateNetworkObjects_trace (m : ReplicationManager) :
  trace_ (UpdateNetworkObjects m)
  = trace_ m
    ++ flat_map (UpdateNetworkObjects_calls m) (seq 0 (length (networkObjectsDirty_ m))).
Proof.
  unfold UpdateNetworkObjects.
  apply UpdateNetworkObjects_loop_trace; [apply NoDup_seq|done].
Qed.

Lemma callsSince_app (m m' : ReplicationManager) evs :
  trace_ m' = trace_ m ++ evs → callsSince m m' = evs.
Proof. unfold callsSince. intros ->. by rewrite drop_app_length. Qed.

(** X5: [UpdateNetworkObjects] calls, for the flagged indices that resolve
    to an object and in ascending order of the index, the object's
    [UpdateObjectHierarchy] and then the world transform of its node, and
    nothing else: an object is refreshed exactly when its index is flagged,
    and when no index is flagged the call changes nothing at all. *)
Theorem UpdateNetworkObjects_refreshes_flagged_objects (m : ReplicationManager) :
  callsSince m (UpdateNetworkObjects m)
  = flat_map (UpdateNetworkObjects_calls m) (seq 0 (length (networkObjectsDirty_ m)))
  ∧ (∀ o, UpdateObjectHierarchy o ∈ callsSince m (UpdateNetworkObjects m)
          ↔ ∃ index, IsDirty m index ∧ GetNetworkObjectByIndex m index = Some o)
  ∧ ((∀ index, ¬ IsDirty m index) → UpdateNetworkObjects m = m).
Proof.
  pose proof (callsSince_app _ _ _ (UpdateNetworkObjects_trace m)) as Hcalls.
  split; [done|]. split; [|by apply UpdateNetworkObjects_loop_clean].
  intros o. rewrite Hcalls, list_elem_of_In, in_flat_map. split.
  - intros (index & _ & Hin). exists index. apply list_elem_of_In in Hin.
    unfold UpdateNetworkObjects_calls, IsDirty in *.
    destruct (networkObjectsDirty_ m !! index) as [[|]|];
      try by apply elem_of_nil in Hin.
    destruct (GetNetworkObjectByIndex m index) as [x|];
      [|by apply elem_of_nil in Hin].
    apply elem_of_cons in Hin as [[= ->]|Hin]; [done|].
    by apply list_elem_of_singleton in Hin.
  - intros (index & Hdirty & Ho). exists index. split.
    + apply in_seq. apply lookup_lt_Some in Hdirty. lia.
    + apply list_elem_of_In. unfold UpdateNetworkObjects_calls, IsDirty in *.
      rewrite Hdirty, Ho. by left.
Qed.

(** ** What a tick of the scene does *)


Lemma HandleSceneUpdate_trace eventType timeStep (m : ReplicationManager) :
  mode_ m ≠ Standalone →
  trace_ (HandleSceneUpdate eventType timeStep m) = trace_ m.
Proof.
  intros Hm. unfold HandleSceneUpdate. destruct (mode_ m); [done| |].
  - by destruct (server_ m).
  - destruct (client_ m) as [c|]; [|done]. by destruct (replica_ c).
Qed.


(** ** Registration and removal of one object *)

Lemma OnComponentAdded_dirty o (m : ReplicationManager) :
  networkObjectsDirty_ (OnComponentAdded o m)
  = <[(GetNetworkId o).1 := true]>
      (if bool_decide (length (networkObjectsDirty_ m) ≤ (GetNetworkId o).1)
       then resize ((GetNetworkId o).1 + 1) false (networkObjectsDirty_ m)
       else networkObjectsDirty_ m)
  ∧ trace_ (OnComponentAdded o m)
    = trace_ m ++ [OnNetworkObjectAdded o; Log LOG_DEBUG "NetworkObject {} is added"].
Proof.
  unfold OnComponentAdded, NetworkObjectRegistry_OnComponentAdded, IsStandalone,
    DeconstructComponentReference.
  destruct (GetNetworkId o) as [index version] eqn:Hid. simpl.
  case_bool_decide; simpl; destruct (mode_ m) eqn:Hm; simpl;
    by rewrite <- ?app_assoc.
Qed.

(** X7: registration of an object sets the flag of its index and no other.
    When the index lies beyond the vector, the vector grows to end at this
    index and the flags it gains in between are clear; otherwise its size
    stays.  The flags of the other indices are kept, the object is appended
    to the registry, and the registry announces the object and logs the
    registration, in this order. *)
Theorem OnComponentAdded_flags_the_new_index (o : NetworkObject) (m : ReplicationManager) :
  let index := (GetNetworkId o).1 in
  let m' := OnComponentAdded o m in
  length (networkObjectsDirty_ m') = length (networkObjectsDirty_ m) `max` (index + 1)
  ∧ IsDirty m' index
  ∧ (∀ j, j ≠ index → j < length (networkObjectsDirty_ m) →
          networkObjectsDirty_ m' !! j = networkObjectsDirty_ m !! j)
  ∧ (∀ j, length (networkObjectsDirty_ m) ≤ j → j < index →
          networkObjectsDirty_ m' !! j = Some false)
  ∧ GetNetworkObjects m' = GetNetworkObjects m ++ [o]
  ∧ callsSince m m'
    = [OnNetworkObjectAdded o; Log LOG_DEBUG "NetworkObject {} is added"].
Proof.
  intros index m'. subst m'.
  pose proof (OnComponentAdded_dirty o m) as [Hd Ht].
  pose proof (OnComponentAdded_fields o m) as (_ & Htr & _).
  fold index in Hd. unfold IsDirty. rewrite Hd. clear Hd.
  split_and!.
  - rewrite length_insert. case_bool_decide; [rewrite length_resize|]; lia.
  - apply list_lookup_insert_eq.
    case_bool_decide; [rewrite length_resize|]; lia.
  - intros j Hne Hlt. rewrite list_lookup_insert_ne by done.
    case_bool_decide; [|done].
    apply lookup_resize; lia.
  - intros j Hge Hlt. rewrite list_lookup_insert_ne by lia.
    rewrite bool_decide_eq_true_2 by lia.
    apply lookup_resize_new; lia.
  - done.
  - by apply callsSince_app.
Qed.

Lemma GetParentNetworkObject_resolves (m : ReplicationManager) o p :
  GetParentNetworkObject m o = Some p →
  GetNetworkObject m (GetNetworkId p) true = Some p.
Proof.
  unfold GetParentNetworkObject. destruct (parentNetworkObject_ o) as [pid|]; [|done].
  intros H. by rewrite (GetNetworkObject_id _ _ _ H).
Qed.

Lemma OnComponentRemoved_shape o (m : ReplicationManager) :
  networkObjectsDirty_ (OnComponentRemoved o m)
  = match GetParentNetworkObject m o with
    | Some p =>
        if decide (GetNetworkId p ≠ NetworkId_None)
        then <[(GetNetworkId p).1 := true]> (networkObjectsDirty_ m)
        else networkObjectsDirty_ m
    | None => networkObjectsDirty_ m
    end
  ∧ trace_ (OnComponentRemoved o m)
    = trace_ m ++ [OnNetworkObjectRemoved o; Log LOG_DEBUG "NetworkObject {} is removed"].
Proof.
  assert (∀ M : ReplicationManager,
            trackedComponents_ M = trackedComponents_ m →
            networkObjectsDirty_ M = networkObjectsDirty_ m →
            trace_ M = trace_ m →
            networkObjectsDirty_ (NetworkObjectRegistry_OnComponentRemoved o M)
            = match GetParentNetworkObject m o with
              | Some p =>
                  if decide (GetNetworkId p ≠ NetworkId_None)
                  then <[(GetNetworkId p).1 := true]> (networkObjectsDirty_ m)
                  else networkObjectsDirty_ m
              | None => networkObjectsDirty_ m
              end
            ∧ trace_ (NetworkObjectRegistry_OnComponentRemoved o M)
              = trace_ m
                ++ [OnNetworkObjectRemoved o; Log LOG_DEBUG "NetworkObject {} is removed"])
    as Hreg.
  { intros M Htr Hd Ht.
    assert (∀ x, GetParentNetworkObject M x = GetParentNetworkObject m x) as Hpar.
    { intros x. unfold GetParentNetworkObject, GetNetworkObject,
        GetTrackedComponentByReference, GetTrackedComponentByReferenceIndex.
      by rewrite Htr. }
    unfold NetworkObjectRegistry_OnComponentRemoved. rewrite Hpar.
    destruct (GetParentNetworkObject m o) as [p|] eqn:Hp;
      [|simpl; by rewrite Hd, Ht, <- app_assoc].
    case_decide; [|simpl; by rewrite Hd, Ht, <- app_assoc].
    unfold QueueNetworkObjectUpdate. rewrite decide_True.
    - simpl. by rewrite Hd, Ht, <- app_assoc.
    - rewrite <- Hpar in Hp. by eapply GetParentNetworkObject_resolves. }
  unfold OnComponentRemoved. destruct (IsStandalone m); by apply Hreg.
Qed.

(** X8: removal of an object.  The registry announces the removal and logs
    it, and logs no warning: the parent it finds is registered under its own
    identifier, so the update it queues for the parent is never refused.
    When every registered object has a flag, the flag of the parent is set
    afterwards, unless the parent's identifier is the none identifier.  No
    flag is cleared, the flag of the removed object included; flags other
    than the parent's are as before, and so is the size of the vector. *)
Theorem OnComponentRemoved_flags_the_parent (o : NetworkObject) (m : ReplicationManager) :
  DirtyCovers m →
  let m' := OnComponentRemoved o m in
  callsSince m m'
  = [OnNetworkObjectRemoved o; Log LOG_DEBUG "NetworkObject {} is removed"]
  ∧ trackedComponents_ m' = filter (fun x => addr x ≠ addr o) (trackedComponents_ m)
  ∧ length (networkObjectsDirty_ m') = length (networkObjectsDirty_ m)
  ∧ (∀ p, GetParentNetworkObject m o = Some p → GetNetworkId p ≠ NetworkId_None →
          IsDirty m' (GetNetworkId p).1)
  ∧ (∀ j, IsDirty m j → IsDirty m' j)
  ∧ (∀ j, (∀ p, GetParentNetworkObject m o = Some p → j ≠ (GetNetworkId p).1) →
          networkObjectsDirty_ m' !! j = networkObjectsDirty_ m !! j).
Proof.
  intros Hcov m'. subst m'.
  pose proof (OnComponentRemoved_shape o m) as [Hd Ht].
  pose proof (OnComponentRemoved_frame o m) as (_ & _ & _ & _ & _ & Htr).
  split; [by apply callsSince_app|]. split; [done|].
  unfold IsDirty. rewrite Hd. clear Hd. split_and!.
  - destruct (GetParentNetworkObject m o); [|done].
    case_decide; [|done]. by rewrite length_insert.
  - intros p Hp Hid. rewrite Hp, decide_True by done.
    apply list_lookup_insert_eq. apply Hcov. by eapply GetParentNetworkObject_elem.
  - intros j Hj. destruct (GetParentNetworkObject m o) as [p|]; [|done].
    case_decide; [|done]. by apply IsDirty_insert_true.
  - intros j Hj. destruct (GetParentNetworkObject m o) as [p|]; [|done].
    case_decide; [|done]. apply list_lookup_insert_ne. intros <-. by apply (Hj p).
Qed.

(** ** Going standalone *)

Lemma Stop_trace (m : ReplicationManager) :
  ∃ logs, trace_ (Stop m) = trace_ m ++ logs
          ∧ Forall (fun e => ∃ message, e = Log LOG_INFO message) logs.
Proof.
  destruct m as [scene tracked dirty mode standalone [s|] [c|] trace]; simpl.
  - eexists [_; _]. rewrite <- app_assoc. split; [done|].
    repeat constructor; by eexists.
  - eexists [_]. split; [done|]. repeat constructor; by eexists.
  - eexists [_]. split; [done|]. repeat constructor; by eexists.
  - exists []. by rewrite app_nil_r.
Qed.

Lemma count_logs o logs :
  Forall (fun e => ∃ message, e = Log LOG_INFO message) logs →
  countSetStandalone o logs = 0 ∧ countInitializeStandalone o logs = 0.
Proof.
  unfold countSetStandalone, countInitializeStandalone.
  induction 1 as [|e logs [message ->] _ [IH1 IH2]]; [done|].
  by rewrite !filter_cons_False by done.
Qed.

Lemma InitializeStandalone_calls_count o l :
  NoDup l →
  countSetStandalone o (InitializeStandalone_calls l) = (if decide (o ∈ l) then 1 else 0)
  ∧ countInitializeStandalone o (InitializeStandalone_calls l)
    = (if decide (o ∈ l) then 1 else 0).
Proof.
  unfold countSetStandalone, countInitializeStandalone.
  induction 1 as [|x l Hx Hnd [IH1 IH2]]; [done|].
  change (InitializeStandalone_calls (x :: l))
    with (SetNetworkMode x NOM_Standalone :: InitializeStandalone x
          :: InitializeStandalone_calls l).
  destruct (decide (x = o)) as [->|Hne].
  - rewrite (decide_True (P := o ∈ o :: l)) by (by left).
    rewrite (decide_False (P := o ∈ l)) in IH1, IH2 by done.
    split.
    + rewrite filter_cons_True by (simpl; by rewrite bool_decide_eq_true_2).
      rewrite filter_cons_False by done. simpl. by rewrite IH1.
    + rewrite filter_cons_False by done.
      rewrite filter_cons_True by (simpl; by rewrite bool_decide_eq_true_2).
      simpl. by rewrite IH2.
  - assert ((if decide (o ∈ x :: l) then 1 else 0) = (if decide (o ∈ l) then 1 else 0))
      as ->.
    { destruct (decide (o ∈ l)) as [Hin|Hnin].
      - by rewrite decide_True by (by right).
      - rewrite decide_False; [done|]. intros [->|Hin]%elem_of_cons; done. }
    split.
    + rewrite filter_cons_False by (simpl; by rewrite bool_decide_eq_false_2).
      by rewrite filter_cons_False by done.
    + rewrite filter_cons_False by done.
      by rewrite filter_cons_False by (simpl; by rewrite bool_decide_eq_false_2).
Qed.

(** X9: going standalone initializes every registered object exactly once.
    In a registry that lists no object twice, [StartStandalone] sets the
    mode of each registered object to Standalone and initializes it once,
    and the scene-update tick that follows does not initialize it a second
    time, because [Stop] has emptied the set of recently added objects; an
    object that is not registered is not initialized at all. *)
Theorem StartStandalone_initializes_each_object_once
    (timeStep : float) (o : NetworkObject) (m : ReplicationManager) :
  NoDup (trackedComponents_ m) →
  let once := if decide (o ∈ trackedComponents_ m) then 1 else 0 in
  countSetStandalone o (callsSince m (StartStandalone m)) = once
  ∧ countInitializeStandalone o (callsSince m (StartStandalone m)) = once
  ∧ countSetStandalone o (callsSince m (OnSceneUpdate timeStep (StartStandalone m))) = once
  ∧ countInitializeStandalone o
      (callsSince m (OnSceneUpdate timeStep (StartStandalone m))) = once
  ∧ callsSince (StartStandalone m) (OnSceneUpdate timeStep (StartStandalone m))
    = [Scene_SendEvent E_SCENENETWORKUPDATE timeStep timeStep].
Proof.
  intros Hnd once.
  destruct (Stop_trace m) as (logs & Hlogs & Hall).
  destruct (count_logs o logs Hall) as [L1 L2].
  destruct (InitializeStandalone_calls_count o _ Hnd) as [I1 I2]. fold once in I1, I2.
  assert (trace_ (StartStandalone m)
          = trace_ m ++ logs ++ InitializeStandalone_calls (trackedComponents_ m)
              ++ [Log LOG_INFO "Started standalone scene replication"]) as Ht.
  { rewrite StartStandalone_emits.
    change (trace_ (emits ?evs (set_mode Standalone (Stop m))))
      with (trace_ (Stop m) ++ evs).
    by rewrite Hlogs, <- !app_assoc. }
  pose proof (StartStandalone_fields m) as (Hms & _).
  apply ModeState_eq in Hms as (Hmode & Hst & _).
  assert (trace_ (OnSceneUpdate timeStep (StartStandalone m))
          = trace_ (StartStandalone m)
            ++ [Scene_SendEvent E_SCENENETWORKUPDATE timeStep timeStep]) as Ht'.
  { rewrite OnSceneUpdate_standalone by done. rewrite Hst. simpl.
    by rewrite elements_empty. }
  rewrite (callsSince_app _ _ _ Ht), (callsSince_app _ _ _ Ht').
  assert (callsSince m (OnSceneUpdate timeStep (StartStandalone m))
          = logs ++ InitializeStandalone_calls (trackedComponents_ m)
              ++ [Log LOG_INFO "Started standalone scene replication"]
              ++ [Scene_SendEvent E_SCENENETWORKUPDATE timeStep timeStep]) as ->.
  { apply callsSince_app. by rewrite Ht', Ht, <- !app_assoc. }
  rewrite !countSetStandalone_app, !countInitializeStandalone_app, L1, L2, I1, I2.
  split_and!; try done; simpl; lia.
Qed.

(** ** The set of recently added objects *)

Lemma Standalone_dec (mode : ReplicationManagerMode) :
  {mode = Standalone} + {mode ≠ Standalone}.
Proof. destruct mode; [by left|by right..]. Qed.

Lemma BookkeepingInvariant_same (m m' : ReplicationManager) :
  trackedComponents_ m' = trackedComponents_ m →
  standalone_ m' = standalone_ m → mode_ m' = mode_ m →
  BookkeepingInvariant m → BookkeepingInvariant m'.
Proof. unfold BookkeepingInvariant. by intros -> -> ->. Qed.

Lemma BookkeepingInvariant_reset (m m' : ReplicationManager) :
  trackedComponents_ m' = trackedComponents_ m →
  standalone_ m' = mkStandaloneData ∅ →
  BookkeepingInvariant m → BookkeepingInvariant m'.
Proof.
  unfold BookkeepingInvariant. intros -> -> (H1 & H2 & _). simpl.
  split_and!; [done..| |done]. intros id Hid. by apply elem_of_empty in Hid.
Qed.

Lemma BookkeepingInvariant_empty (m' : ReplicationManager) :
  trackedComponents_ m' = [] → standalone_ m' = mkStandaloneData ∅ →
  BookkeepingInvariant m'.
Proof.
  unfold BookkeepingInvariant. intros -> ->. simpl.
  split_and!; [apply NoDup_nil_2..| |done].
  intros id Hid. by apply elem_of_empty in Hid.
Qed.

Lemma NoDup_map_inj {A B} (f : A → B) (l : list A) x y :
  NoDup (map f l) → x ∈ l → y ∈ l → f x = f y → x = y.
Proof.
  intros Hnd [i Hi]%list_elem_of_lookup_1 [j Hj]%list_elem_of_lookup_1 Heq.
  change (map f l) with (f <$> l) in Hnd.
  assert (i = j) as ->; [|congruence].
  eapply (proj1 (NoDup_alt _) Hnd); rewrite list_lookup_fmap.
  - by rewrite Hi.
  - rewrite Hj. simpl. by rewrite Heq.
Qed.

Lemma NoDup_map_filter {A B} (f : A → B) (P : A → Prop) `{∀ x, Decision (P x)}
    (l : list A) :
  NoDup (map f l) → NoDup (map f (filter P l)).
Proof.
  change (map f) with (fmap (M := list) f). intros Hnd.
  eapply sublist_NoDup; [done|]. apply fmap_sublist, sublist_filter.
Qed.

Lemma OnComponentAdded_standalone_other o (m : ReplicationManager) :
  mode_ m ≠ Standalone → standalone_ (OnComponentAdded o m) = standalone_ m.
Proof.
  unfold OnComponentAdded, NetworkObjectRegistry_OnComponentAdded, IsStandalone,
    DeconstructComponentReference.
  destruct (GetNetworkId o) as [index version] eqn:Hid. simpl.
  intros Hm. case_bool_decide; simpl; by destruct (mode_ m).
Qed.

Lemma OnComponentAdded_BookkeepingInvariant o (m : ReplicationManager) :
  BookkeepingInvariant m → Issued (Call_OnComponentAdded o) m →
  BookkeepingInvariant (OnComponentAdded o m).
Proof.
  intros (H1 & H2 & H3 & H4) Hnew. simpl in Hnew.
  destruct (OnComponentAdded_fields o m) as (Hm & Ht & Hs).
  unfold BookkeepingInvariant. rewrite Hm, Ht, !map_app. split_and!.
  - apply NoDup_app. split; [done|]. split; [|apply NoDup_singleton].
    intros a Ha ->%list_elem_of_singleton.
    change (map addr) with (fmap (M := list) addr) in Ha.
    apply list_elem_of_fmap in Ha as (x & Hax & Hx). by destruct (Hnew x Hx).
  - apply NoDup_app. split; [done|]. split; [|apply NoDup_singleton].
    intros a Ha ->%list_elem_of_singleton.
    apply (list_elem_of_fmap (λ o, (GetNetworkId o).1)) in Ha as (x & Hax & Hx).
    by destruct (Hnew x Hx).
  - intros id Hid. destruct (Standalone_dec (mode_ m)) as [Hst|Hst].
    + rewrite (Hs Hst) in Hid. apply elem_of_union in Hid as [Hid|Hid].
      * apply elem_of_singleton in Hid as ->. exists o. split; [|done].
        apply elem_of_app. right. by left.
      * destruct (H3 id Hid) as (x & Hx & Hxid). exists x. split; [|done].
        apply elem_of_app. by left.
    + rewrite OnComponentAdded_standalone_other, (H4 Hst) in Hid by done.
      by apply elem_of_empty in Hid.
  - intros Hst. rewrite OnComponentAdded_standalone_other by done. by apply H4.
Qed.

Lemma OnComponentRemoved_BookkeepingInvariant o (m : ReplicationManager) :
  BookkeepingInvariant m → o ∈ trackedComponents_ m →
  BookkeepingInvariant (OnComponentRemoved o m).
Proof.
  intros (H1 & H2 & H3 & H4) Ho.
  destruct (OnComponentRemoved_frame o m) as (Hm & _ & _ & _ & Hs & Ht).
  unfold BookkeepingInvariant. rewrite Hm, Ht. split_and!.
  - by apply NoDup_map_filter.
  - by apply NoDup_map_filter.
  - intros id Hid. destruct (Standalone_dec (mode_ m)) as [Hst|Hst].
    + rewrite OnComponentRemoved_recentlyAdded in Hid by done.
      apply elem_of_difference in Hid as [Hid Hne].
      destruct (H3 id Hid) as (x & Hx & Hxid). exists x. split; [|done].
      apply list_elem_of_filter. split; [|done]. intros Haddr.
      apply Hne, elem_of_singleton. rewrite <- Hxid. f_equal.
      by eapply (NoDup_map_inj addr).
    + rewrite Hs, (H4 Hst) in Hid by (unfold IsStandalone; by destruct (mode_ m)).
      by apply elem_of_empty in Hid.
  - intros Hst. rewrite Hs by (unfold IsStandalone; by destruct (mode_ m)).
    by apply H4.
Qed.

Lemma OnComponentRemoved_loop_BookkeepingInvariant l : ∀ (m : ReplicationManager),
  BookkeepingInvariant m → NoDup l → (∀ x, x ∈ l → x ∈ trackedComponents_ m) →
  BookkeepingInvariant (foldl (fun m o => OnComponentRemoved o m) m l).
Proof.
  induction l as [|o l IH]; intros m Hinv Hnd Hsub; [done|]. simpl.
  apply NoDup_cons in Hnd as [Ho Hnd].
  apply IH; [|done|].
  - apply OnComponentRemoved_BookkeepingInvariant; [done|]. apply Hsub. by left.
  - intros x Hx.
    destruct (OnComponentRemoved_frame o m) as (_ & _ & _ & _ & _ & ->).
    apply list_elem_of_filter. split; [|apply Hsub; by right].
    intros Haddr. apply Ho.
    destruct Hinv as (H1 & _).
    rewrite <- (NoDup_map_inj addr _ x o H1); [done| | |done]; apply Hsub;
      [by right|by left].
Qed.

Lemma Node_Remove_run_BookkeepingInvariant n (m : ReplicationManager) :
  BookkeepingInvariant m → BookkeepingInvariant (Node_Remove_run n m).
Proof.
  intros Hinv. unfold Node_Remove_run.
  apply OnComponentRemoved_loop_BookkeepingInvariant.
  - by eapply BookkeepingInvariant_same.
  - apply NoDup_filter. destruct Hinv as (H1 & _).
    by apply (NoDup_fmap_1 addr).
  - intros x Hx. by apply list_elem_of_filter in Hx as [_ ?].
Qed.

Lemma RemoveAllNetworkObjects_BookkeepingInvariant (m : ReplicationManager) :
  BookkeepingInvariant m → BookkeepingInvariant (RemoveAllNetworkObjects m).
Proof.
  intros Hinv. unfold RemoveAllNetworkObjects.
  eapply BookkeepingInvariant_same; [done..|].
  generalize (map GetNode (GetNetworkObjects m)). intros nodes.
  revert m Hinv. induction nodes as [|n nodes IH]; intros m Hinv; [done|].
  simpl. apply IH. destruct (Node_alive m n); [|done].
  by apply Node_Remove_run_BookkeepingInvariant.
Qed.

Lemma ProcessMessage_frame connection messageId messageData (m : ReplicationManager) :
  mode_ (ProcessMessage connection messageId messageData m).2 = mode_ m
  ∧ standalone_ (ProcessMessage connection messageId messageData m).2 = standalone_ m.
Proof.
  unfold ProcessMessage. destruct (client_ m) as [c|].
  - destruct (replica_ c) as [r|].
    + by destruct (Replica_ProcessMessage r messageId messageData).
    + unfold ProcessMessageOnUninitializedClient, InitializeIfReady.
      destruct messageId; simpl; try done.
      all: destruct (IsClockSynchronized connection && _); try done.
      all: repeat match goal with |- context [match ?x with _ => _ end] =>
             destruct x end; done.
  - destruct (server_ m) as [s|]; [|done].
    by destruct (Server_ProcessMessage s (conn_addr connection) messageId messageData).
Qed.

Lemma HandleSceneUpdate_BookkeepingInvariant eventType timeStep (m : ReplicationManager) :
  BookkeepingInvariant m → BookkeepingInvariant (HandleSceneUpdate eventType timeStep m).
Proof.
  intros Hinv. unfold HandleSceneUpdate. destruct (mode_ m) eqn:Hm.
  - pose proof (InitializeObjectsStandalone_frame m) as (_ & _ & _ & _ & Ht & Hs).
    eapply BookkeepingInvariant_reset; [exact Ht|exact Hs|done].
  - destruct (server_ m); [|done]. by eapply BookkeepingInvariant_same.
  - destruct (client_ m) as [c|]; [|done]. destruct (replica_ c); [|done].
    by eapply BookkeepingInvariant_same.
Qed.

Lemma StartStandalone_BookkeepingInvariant (m : ReplicationManager) :
  BookkeepingInvariant m → BookkeepingInvariant (StartStandalone m).
Proof.
  intros Hinv. pose proof (StartStandalone_fields m) as (H1 & _ & H2 & _).
  apply ModeState_eq in H1 as (_ & H1 & _).
  by eapply BookkeepingInvariant_reset.
Qed.

Lemma call_BookkeepingInvariant op (m : ReplicationManager) :
  BookkeepingInvariant m → Issued op m → BookkeepingInvariant (call op m).
Proof.
  intros Hinv Hop. destruct op; cbn [call].
  - by apply OnComponentAdded_BookkeepingInvariant.
  - by apply OnComponentRemoved_BookkeepingInvariant.
  - pose proof (QueueNetworkObjectUpdate_frame o m) as (H1 & H2 & _ & _ & _ & H3).
    by eapply BookkeepingInvariant_same.
  - by apply RemoveAllNetworkObjects_BookkeepingInvariant.
  - pose proof (UpdateNetworkObjects_frame m) as (H1 & H2 & _).
    eapply BookkeepingInvariant_same; [apply UpdateNetworkObjects_tracked|done..].
  - by apply HandleSceneUpdate_BookkeepingInvariant.
  - unfold OnScenePostUpdate.
    pose proof (UpdateNetworkObjects_frame
                  (HandleSceneUpdate E_SCENENETWORKPOSTUPDATE timeStep m))
      as (H1 & H2 & _).
    eapply BookkeepingInvariant_same; [apply UpdateNetworkObjects_tracked|done..|].
    by apply HandleSceneUpdate_BookkeepingInvariant.
  - pose proof (Stop_fields m) as (_ & H1 & _ & _ & _ & H2 & _).
    by eapply BookkeepingInvariant_reset.
  - by apply StartStandalone_BookkeepingInvariant.
  - pose proof (StartServer_fields m) as (H1 & _ & H2 & _).
    apply ModeState_eq in H1 as (_ & H1 & _).
    by eapply BookkeepingInvariant_reset.
  - pose proof (StartClient_fields connectionToServer m) as (H1 & _ & H2 & _).
    apply ModeState_eq in H1 as (_ & H1 & _).
    by apply BookkeepingInvariant_empty.
  - pose proof (ProcessMessage_frame d.1.1 d.1.2 d.2 m) as [H1 H2].
    eapply BookkeepingInvariant_same; [apply ProcessMessage_tracked|done..].
  - unfold DropConnection. destruct (server_ m); [by eapply BookkeepingInvariant_same|].
    destruct (client_ m) as [c|]; [|done]. case_decide; [|done].
    by apply StartStandalone_BookkeepingInvariant.
Qed.

Lemma BookkeepingInvariant_resolves (m : ReplicationManager) id :
  BookkeepingInvariant m → id ∈ recentlyAddedObjects_ (standalone_ m) →
  ∃ o, GetNetworkObject m id true = Some o ∧ GetNetworkId o = id.
Proof.
  intros (_ & H2 & H3 & _) Hid. destruct (H3 id Hid) as (o & Ho & <-).
  exists o. split; [|done].
  unfold GetNetworkObject, GetTrackedComponentByReference,
    GetTrackedComponentByReferenceIndex.
  destruct (List.find _ (trackedComponents_ m)) as [x|] eqn:E.
  - apply find_some in E as [Hx Hi]. apply bool_decide_eq_true_1 in Hi.
    apply list_elem_of_In in Hx.
    rewrite (NoDup_map_inj (λ o, (GetNetworkId o).1) _ x o H2) by done.
    by rewrite bool_decide_eq_true_2.
  - eapply find_none in E; [|by apply list_elem_of_In].
    by rewrite bool_decide_eq_true_2 in E.
Qed.

(** X10: the recently added objects are found when the tick looks for them.
    When components enter the registry under an index that no registered
    component holds and only registered components leave it, then in every
    state that the manager reaches each identifier in the set of recently
    added objects resolves to a registered object with this identifier, and
    the set is empty outside Standalone mode.  So the scene-update tick
    initializes one object for each identifier of the set and
    [InitializeObjectsStandalone] never logs that it cannot find a recently
    added object. *)
Theorem recently_added_objects_are_found (timeStep : float) (m : ReplicationManager) :
  Runs m →
  (∀ id, id ∈ recentlyAddedObjects_ (standalone_ m) →
         ∃ o, GetNetworkObject m id true = Some o ∧ GetNetworkId o = id)
  ∧ (mode_ m ≠ Standalone → recentlyAddedObjects_ (standalone_ m) = ∅)
  ∧ (∀ e, e ∈ callsSince m (OnSceneUpdate timeStep m) → isErrorLog e = false)
  ∧ (∀ id, id ∈ recentlyAddedObjects_ (standalone_ m) →
           ∃ o, GetNetworkId o = id ∧ o ∈ trackedComponents_ m
                ∧ InitializeStandalone o ∈ callsSince m (OnSceneUpdate timeStep m)).
Proof.
  intros Hruns.
  assert (BookkeepingInvariant m) as Hinv.
  { induction Hruns as [scene|op m Hruns IH Hop].
    - by apply BookkeepingInvariant_empty.
    - by apply call_BookkeepingInvariant. }
  pose proof (BookkeepingInvariant_resolves m) as Hres.
  split; [by intros id; apply Hres|].
  split; [by destruct Hinv as (_ & _ & _ & ?)|].
  destruct (Standalone_dec (mode_ m)) as [Hm|Hm].
  - assert (callsSince m (OnSceneUpdate timeStep m)
            = flat_map (InitializeObjectsStandalone_calls m)
                (elements (recentlyAddedObjects_ (standalone_ m)))
              ++ [Scene_SendEvent E_SCENENETWORKUPDATE timeStep timeStep]) as ->.
    { rewrite OnSceneUpdate_standalone by done. by apply callsSince_app. }
    split.
    + intros e [He|He]%elem_of_app; [|by apply list_elem_of_singleton in He as ->].
      apply list_elem_of_In, in_flat_map in He as (id & Hid & He).
      apply list_elem_of_In, elem_of_elements in Hid.
      destruct (Hres id Hinv Hid) as (o & Ho & _).
      unfold InitializeObjectsStandalone_calls in He. rewrite Ho in He.
      apply list_elem_of_In in He.
      apply elem_of_cons in He as [->|He]; [done|].
      by apply list_elem_of_singleton in He as ->.
    + intros id Hid. destruct (Hres id Hinv Hid) as (o & Ho & Hoid).
      exists o. split; [done|].
      split; [by apply GetNetworkObject_elem in Ho as [? _]|].
      apply elem_of_app. left. apply list_elem_of_In, in_flat_map.
      exists id. split; [by apply list_elem_of_In, elem_of_elements|].
      unfold InitializeObjectsStandalone_calls. rewrite Ho. right. by left.
  - destruct Hinv as (_ & _ & _ & Hempty). rewrite (Hempty Hm).
    split; [|by intros id Hid; apply elem_of_empty in Hid].
    intros e He. unfold OnSceneUpdate in He.
    rewrite (callsSince_app m _ []) in He; [by apply elem_of_nil in He|].
    by rewrite HandleSceneUpdate_trace, app_nil_r.
Qed.

(** ** The queries in each mode *)

Lemma Reachable_ModeInvariant (m : ReplicationManager) :
  Reachable m → ModeInvariant m.
Proof.
  induction 1 as [scene|op m Hr IH Hop]; [done|]. by apply call_ModeInvariant.
Qed.

Section SettingsProperties.

Context {Q : SettingQueries}.

(** X11: the queries answer for the mode.  [GetDebugInfo] looks at the
    client first, the other queries look at the server first; in the states
    a manager reaches this makes no difference, because it never holds both.
    In Standalone mode, and in Client mode until the replica exists, the
    update frequency is the default value, a setting is the empty variant
    and the trace duration is zero; in Server mode the server replicator
    answers every query, in Client mode with a replica the replica does. *)
Theorem queries_answer_for_the_mode
    (connection : option AbstractConnection) (m : ReplicationManager) :
  Reachable m →
  (mode_ m = Standalone →
     GetUpdateFrequency m = UpdateFrequency_defaultValue
     ∧ (∀ setting, GetSetting setting m = Variant_EMPTY)
     ∧ GetTraceDurationInSeconds m = float_zero
     ∧ GetDebugInfo connection m = ""%string)
  ∧ (mode_ m = Server → ∃ s,
       server_ m = Some s
       ∧ GetUpdateFrequency m = Server_GetUpdateFrequency s
       ∧ (∀ setting, GetSetting setting m = Server_GetSetting s setting)
       ∧ GetTraceDurationInSeconds m
         = Variant_GetFloat (Server_GetSetting s ServerTracingDuration)
       ∧ GetDebugInfo connection m = Server_GetDebugInfo s)
  ∧ (mode_ m = Client → ∃ c,
       client_ m = Some c
       ∧ (replica_ c = None →
            GetUpdateFrequency m = UpdateFrequency_defaultValue
            ∧ (∀ setting, GetSetting setting m = Variant_EMPTY)
            ∧ GetTraceDurationInSeconds m = float_zero
            ∧ GetDebugInfo connection m = GetUninitializedClientDebugInfo connection c)
       ∧ (∀ r, replica_ c = Some r →
            GetUpdateFrequency m = Replica_GetUpdateFrequency r
            ∧ (∀ setting, GetSetting setting m = Replica_GetSetting r setting)
            ∧ GetTraceDurationInSeconds m
              = Variant_GetFloat (Replica_GetSetting r ClientTracingDuration)
            ∧ GetDebugInfo connection m = Replica_GetDebugInfo r)).
Proof.
  intros Hr. pose proof (Reachable_ModeInvariant m Hr) as Hinv.
  unfold ModeInvariant in Hinv.
  unfold GetUpdateFrequency, GetSetting, GetTraceDurationInSeconds, GetDebugInfo.
  split_and!; intros Hm; rewrite Hm in Hinv.
  - destruct Hinv as [-> ->]. done.
  - destruct Hinv as [[s ->] ->]. by exists s.
  - destruct Hinv as [[c ->] ->]. exists c. split; [done|]. split.
    + by intros ->.
    + by intros r ->.
Qed.

End SettingsProperties.

(** ** Lookup after registration and removal *)

Lemma find_filter_Some {A} (f : A → bool) (P : A → Prop) `{∀ x, Decision (P x)}
    (l : list A) x :
  List.find f l = Some x → P x → List.find f (filter P l) = Some x.
Proof.
  intros Hfind HP. induction l as [|y l IH]; [done|].
  simpl in Hfind. rewrite filter_cons. destruct (f y) eqn:Hy.
  - injection Hfind as ->. rewrite decide_True by done. simpl. by rewrite Hy.
  - destruct (decide (P y)); [simpl; rewrite Hy|]; by apply IH.
Qed.

Lemma GetNetworkObject_index (m : ReplicationManager) index version check o :
  GetNetworkObjectByIndex m index = Some o →
  GetNetworkObject m (index, version) check
  = if check && negb (bool_decide ((GetNetworkId o).2 = version)) then None else Some o.
Proof.
  unfold GetNetworkObject, GetTrackedComponentByReference, GetNetworkObjectByIndex.
  simpl. by intros ->.
Qed.

Lemma GetNetworkObject_None (m : ReplicationManager) id check :
  GetNetworkObjectByIndex m id.1 = None → GetNetworkObject m id check = None.
Proof.
  unfold GetNetworkObject, GetTrackedComponentByReference, GetNetworkObjectByIndex.
  by intros ->.
Qed.

(** X12: lookup after registration and after removal.  An object that
    enters the registry under an index that no registered object holds is
    found under its identifier and under its index; an identifier with the
    same index and another version finds it only when the version is not
    checked; and what a lookup found before, it still finds.  After the
    removal of a registered object, in a registry whose objects have
    addresses and indices of their own, its identifier and its index find
    nothing, and the lookups that found another object still find it. *)
Theorem lookup_after_registration_and_removal (o : NetworkObject) (m : ReplicationManager) :
  (Issued (Call_OnComponentAdded o) m →
     GetNetworkObject (OnComponentAdded o m) (GetNetworkId o) true = Some o
     ∧ GetNetworkObjectByIndex (OnComponentAdded o m) (GetNetworkId o).1 = Some o
     ∧ (∀ version,
          GetNetworkObject (OnComponentAdded o m) ((GetNetworkId o).1, version) false
          = Some o
          ∧ (version ≠ (GetNetworkId o).2 →
             GetNetworkObject (OnComponentAdded o m) ((GetNetworkId o).1, version) true
             = None))
     ∧ (∀ id check x,
          GetNetworkObject m id check = Some x →
          GetNetworkObject (OnComponentAdded o m) id check = Some x))
  ∧ (NoDup (map addr (trackedComponents_ m)) →
     NoDup (map (fun x => (GetNetworkId x).1) (trackedComponents_ m)) →
     o ∈ trackedComponents_ m →
     (∀ check, GetNetworkObject (OnComponentRemoved o m) (GetNetworkId o) check = None)
     ∧ GetNetworkObjectByIndex (OnComponentRemoved o m) (GetNetworkId o).1 = None
     ∧ (∀ id check x,
          x ≠ o → GetNetworkObject m id check = Some x →
          GetNetworkObject (OnComponentRemoved o m) id check = Some x)).
Proof.
  split.
  - intros Hnew. simpl in Hnew.
    destruct (OnComponentAdded_fields o m) as (_ & Ht & _).
    assert (GetNetworkObjectByIndex (OnComponentAdded o m) (GetNetworkId o).1 = Some o)
      as Hindex.
    { unfold GetNetworkObjectByIndex, GetTrackedComponentByReferenceIndex. rewrite Ht.
      rewrite find_app_None; [simpl; by rewrite bool_decide_eq_true_2|].
      destruct (List.find _ (trackedComponents_ m)) as [y|] eqn:E; [|done].
      apply find_some in E as [Hy Hi]. apply bool_decide_eq_true_1 in Hi.
      by destruct (Hnew y) as [_ ?]; [apply list_elem_of_In|]. }
    split_and!.
    + destruct (GetNetworkId o) as [index version] eqn:Hid.
      rewrite (GetNetworkObject_index _ _ _ _ _ Hindex), Hid. simpl.
      by rewrite bool_decide_eq_true_2.
    + done.
    + intros version. rewrite !(GetNetworkObject_index _ _ _ _ _ Hindex).
      split; [done|]. intros Hne. simpl. by rewrite bool_decide_eq_false_2.
    + intros id check x.
      unfold GetNetworkObject, GetTrackedComponentByReference,
        GetTrackedComponentByReferenceIndex. rewrite Ht.
      destruct (List.find _ (trackedComponents_ m)) as [y|] eqn:E; [|done].
      by rewrite (find_app_Some _ _ _ _ E).
  - intros Haddr Hidx Ho.
    destruct (OnComponentRemoved_frame o m) as (_ & _ & _ & _ & _ & Ht).
    assert (GetNetworkObjectByIndex (OnComponentRemoved o m) (GetNetworkId o).1 = None)
      as Hindex.
    { unfold GetNetworkObjectByIndex, GetTrackedComponentByReferenceIndex. rewrite Ht.
      destruct (List.find _ (filter _ _)) as [y|] eqn:E; [|done].
      apply find_some in E as [Hy Hi]. apply bool_decide_eq_true_1 in Hi.
      apply list_elem_of_In, list_elem_of_filter in Hy as [Hne Hy].
      destruct Hne. f_equal.
      by apply (NoDup_map_inj (λ x, (GetNetworkId x).1) (trackedComponents_ m)). }
    split_and!.
    + intros check. by apply GetNetworkObject_None.
    + done.
    + intros id check x Hne.
      unfold GetNetworkObject, GetTrackedComponentByReference,
        GetTrackedComponentByReferenceIndex. rewrite Ht.
      destruct (List.find _ (trackedComponents_ m)) as [y|] eqn:E; [|done].
      intros Hx. rewrite (find_filter_Some _ _ _ _ E); [done|].
      intros Hay. apply find_some in E as [Hy _]. apply list_elem_of_In in Hy.
      assert (y = o) as -> by (by apply (NoDup_map_inj addr (trackedComponents_ m))).
      destruct (check && _); congruence.
Qed.

(** ** What RemoveAllNetworkObjects announces *)

Lemma removedSignals_app evs1 evs2 :
  removedSignals (evs1 ++ evs2) = removedSignals evs1 ++ removedSignals evs2.
Proof. unfold removedSignals. apply omap_app. Qed.

Lemma registered_split (l : list NetworkObject) o :
  NoDup (map addr l) → o ∈ l →
  l ≡ₚ o :: filter (fun x => addr x ≠ addr o) l.
Proof.
  intros Hnd Ho. apply NoDup_Permutation.
  - by apply (NoDup_fmap_1 addr).
  - apply NoDup_cons. split.
    + by intros [? _]%list_elem_of_filter.
    + apply NoDup_filter. by apply (NoDup_fmap_1 addr).
  - intros x. rewrite elem_of_cons, list_elem_of_filter. split.
    + intros Hx. destruct (decide (x = o)) as [->|Hne]; [by left|].
      right. split; [|done]. intros Heq. apply Hne.
      by apply (NoDup_map_inj addr l).
    + by intros [->|[_ ?]].
Qed.

Lemma OnComponentRemoved_RemovalInvariant (m0 m : ReplicationManager) o :
  RemovalInvariant m0 m → o ∈ trackedComponents_ m →
  RemovalInvariant m0 (OnComponentRemoved o m).
Proof.
  intros [(evs & Ht & Hperm) Hnd] Ho.
  destruct (OnComponentRemoved_shape o m) as [_ Htrace].
  destruct (OnComponentRemoved_frame o m) as (_ & _ & _ & _ & _ & Htr).
  split; [|rewrite Htr; by apply NoDup_map_filter].
  eexists. split; [by rewrite Htrace, Ht, <- app_assoc|].
  rewrite removedSignals_app, Htr, <- Hperm, <- app_assoc. simpl.
  apply Permutation_app_head. symmetry. by apply registered_split.
Qed.

Lemma OnComponentRemoved_loop_RemovalInvariant (m0 : ReplicationManager) l :
  ∀ m : ReplicationManager,
  RemovalInvariant m0 m → NoDup l → (∀ x, x ∈ l → x ∈ trackedComponents_ m) →
  RemovalInvariant m0 (foldl (fun m o => OnComponentRemoved o m) m l).
Proof.
  induction l as [|o l IH]; intros m Hinv Hnd Hsub; [done|]. simpl.
  apply NoDup_cons in Hnd as [Ho Hnd].
  apply IH; [|done|].
  - apply OnComponentRemoved_RemovalInvariant; [done|]. apply Hsub. by left.
  - intros x Hx.
    destruct (OnComponentRemoved_frame o m) as (_ & _ & _ & _ & _ & ->).
    apply list_elem_of_filter. split; [|apply Hsub; by right].
    intros Haddr. apply Ho. destruct Hinv as [_ H1].
    rewrite <- (NoDup_map_inj addr _ x o H1); [done| | |done]; apply Hsub;
      [by right|by left].
Qed.

Lemma Node_Remove_run_RemovalInvariant (m0 m : ReplicationManager) n :
  RemovalInvariant m0 m → RemovalInvariant m0 (Node_Remove_run n m).
Proof.
  intros [(evs & Ht & Hperm) Hnd]. unfold Node_Remove_run.
  apply OnComponentRemoved_loop_RemovalInvariant.
  - split; [|done]. exists (evs ++ [Node_Remove n]). split.
    + simpl. by rewrite Ht, <- app_assoc.
    + rewrite removedSignals_app. simpl. by rewrite app_nil_r.
  - apply NoDup_filter. by apply (NoDup_fmap_1 addr).
  - intros x Hx. by apply list_elem_of_filter in Hx as [_ ?].
Qed.

(** X13: [RemoveAllNetworkObjects] announces the removal of every registered
    object exactly once.  In a registry whose objects have addresses of
    their own, the objects announced as removed during the call are the
    registered objects, each one once, in some order; afterwards no object
    is registered and the dirty vector is empty, and the mode is as it was.
    The same holds for [StartClient], which ends with this call. *)
Theorem RemoveAllNetworkObjects_announces_every_object
    (connection : ConnectionPtr) (m : ReplicationManager) :
  NoDup (map addr (trackedComponents_ m)) →
  removedSignals (callsSince m (RemoveAllNetworkObjects m)) ≡ₚ trackedComponents_ m
  ∧ trackedComponents_ (RemoveAllNetworkObjects m) = []
  ∧ networkObjectsDirty_ (RemoveAllNetworkObjects m) = []
  ∧ mode_ (RemoveAllNetworkObjects m) = mode_ m
  ∧ removedSignals (callsSince m (StartClient connection m)) ≡ₚ trackedComponents_ m.
Proof.
  intros Hnd.
  assert (∀ M : ReplicationManager,
            (∃ logs, trace_ M = trace_ m ++ logs ∧ removedSignals logs = [])
            → trackedComponents_ M = trackedComponents_ m →
            ∃ evs, trace_ (RemoveAllNetworkObjects M) = trace_ m ++ evs
                   ∧ removedSignals evs ≡ₚ trackedComponents_ m) as Hall.
  { intros M (logs & Hlogs & Hnone) HM.
    assert (RemovalInvariant m M) as H0.
    { split; [|by rewrite HM]. exists logs. split; [done|]. by rewrite Hnone, HM. }
    pose proof (RemoveAllNetworkObjects_frame M) as (_ & _ & _ & _ & _ & Hempty & _).
    cbv zeta in Hempty. revert Hempty. unfold RemoveAllNetworkObjects.
    generalize (map GetNode (GetNetworkObjects M)). intros nodes.
    assert (RemovalInvariant m
              (foldl (fun m node => if Node_alive m node then Node_Remove_run node m else m)
                 M nodes)) as [(evs & Ht & Hperm) _].
    { clear HM Hlogs. revert M H0.
      induction nodes as [|n nodes IH]; intros M H0; [done|].
      simpl. apply IH. destruct (Node_alive M n); [|done].
      by apply Node_Remove_run_RemovalInvariant. }
    intros Hempty.
    change (trackedComponents_ (emit ?e (set_dirty ?d ?X)))
      with (trackedComponents_ X) in Hempty.
    rewrite Hempty, app_nil_r in Hperm.
    exists (evs ++ [Log LOG_DEBUG "{} instances of NetworkObject removed"]). split.
    - simpl. by rewrite Ht, <- app_assoc.
    - rewrite removedSignals_app. simpl. by rewrite app_nil_r. }
  pose proof (RemoveAllNetworkObjects_frame m) as (Hmode & _ & _ & _ & _ & Htr & Hd).
  split_and!; [|done..|].
  - destruct (Hall m) as (evs & Ht & Hperm); [exists []; by rewrite app_nil_r|done|].
    by rewrite (callsSince_app _ _ _ Ht).
  - unfold StartClient.
    destruct (Hall (set_client (Some (mkClientData connection None None None None))
                      (set_mode Client (Stop m)))) as (evs & Ht & Hperm).
    + destruct (Stop_trace m) as (logs & Hlogs & Hinfo). exists logs.
      split; [done|]. clear Hlogs.
      induction Hinfo as [|e logs [message ->] _ IH]; done.
    + by destruct (Stop_fields m) as (_ & _ & _ & _ & _ & ? & _).
    + rewrite (callsSince_app m _
                 (evs ++ [Log LOG_INFO "Started client for scene replication"])).
      * rewrite removedSignals_app. simpl. by rewrite app_nil_r.
      * change (trace_ (emit ?e ?X)) with (trace_ X ++ [e]).
        by rewrite Ht, <- app_assoc.
Qed.

(** ** Runs that register a list of objects *)

Lemma Reachable_addAll os (m : ReplicationManager) :
  Reachable m → NoDup (map addr (trackedComponents_ m ++ os)) →
  Reachable (addAll os m).
Proof.
  intros Hr. induction os as [|o os IH] using rev_ind; intros Hnd; [done|].
  rewrite addAll_snoc. rewrite app_assoc, map_app in Hnd.
  apply NoDup_app in Hnd as (Hnd & Hdisj & _).
  apply (Reachable_call (Call_OnComponentAdded o)); [by apply IH|].
  intros x Hx Heq. destruct (addAll_fields os m) as [_ Htr]. rewrite Htr in Hx.
  apply (Hdisj (addr x)).
  - apply (list_elem_of_fmap addr). by exists x.
  - rewrite Heq. simpl. by left.
Qed.

Lemma Runs_addAll os (m : ReplicationManager) :
  Runs m →
  NoDup (map addr (trackedComponents_ m ++ os)) →
  NoDup (map (fun o => (GetNetworkId o).1) (trackedComponents_ m ++ os)) →
  Runs (addAll os m).
Proof.
  intros Hr. induction os as [|o os IH] using rev_ind; intros Hnd Hnd'; [done|].
  rewrite addAll_snoc. rewrite app_assoc, map_app in Hnd, Hnd'.
  apply NoDup_app in Hnd as (Hnd & Hdisj & _).
  apply NoDup_app in Hnd' as (Hnd' & Hdisj' & _).
  apply (Runs_call (Call_OnComponentAdded o)); [by apply IH|].
  intros x Hx. destruct (addAll_fields os m) as [_ Htr]. rewrite Htr in Hx.
  split; intros Heq.
  - apply (Hdisj (addr x)); [|rewrite Heq; simpl; by left].
    apply (list_elem_of_fmap addr). by exists x.
  - apply (Hdisj' (GetNetworkId x).1); [|rewrite Heq; simpl; by left].
    apply (list_elem_of_fmap (λ o, (GetNetworkId o).1)). by exists x.
Qed.

Lemma Reachable_OnComponentAdded o (m : ReplicationManager) :
  Reachable m → Allowed (Call_OnComponentAdded o) m → Reachable (OnComponentAdded o m).
Proof. apply (Reachable_call (Call_OnComponentAdded o)). Qed.

Lemma Reachable_OnComponentRemoved o (m : ReplicationManager) :
  Reachable m → Reachable (OnComponentRemoved o m).
Proof. intros H. by apply (Reachable_call (Call_OnComponentRemoved o)). Qed.

Lemma Reachable_deliver d (m : ReplicationManager) :
  Reachable m → Reachable (deliver m d).
Proof. intros H. by apply (Reachable_call (Call_ProcessMessage d)). Qed.

Lemma Reachable_StartClient connection (m : ReplicationManager) :
  Reachable m → Reachable (StartClient connection m).
Proof. intros H. by apply (Reachable_call (Call_StartClient connection)). Qed.

Lemma Reachable_StartServer (m : ReplicationManager) :
  Reachable m → Reachable (StartServer m).
Proof. intros H. by apply (Reachable_call Call_StartServer). Qed.

Lemma Runs_OnComponentAdded o (m : ReplicationManager) :
  Runs m → Issued (Call_OnComponentAdded o) m → Runs (OnComponentAdded o m).
Proof. apply (Runs_call (Call_OnComponentAdded o)). Qed.

Lemma Runs_OnComponentRemoved o (m : ReplicationManager) :
  Runs m → o ∈ trackedComponents_ m → Runs (OnComponentRemoved o m).
Proof. apply (Runs_call (Call_OnComponentRemoved o)). Qed.

End Properties.

(** * The model run on the example states *)

Example exampleABC_sorted :
  GetSortedNetworkObjects exampleABC = Some [exampleA; exampleB; exampleC].
Proof. reflexivity. Qed.

Example exampleABC_flags :
  networkObjectsDirty_ exampleABC = [false; true; true; true]
  ∧ networkObjectsDirty_ (UpdateNetworkObjects exampleABC) = [false; false; false; false].
Proof. split; reflexivity. Qed.

Example exampleReused_lookup :
  GetNetworkObject exampleReused (GetNetworkId exampleB) true = None
  ∧ GetNetworkObject exampleReused (GetNetworkId exampleB) false = Some exampleB'
  ∧ GetNetworkObject exampleReused (GetNetworkId exampleB') true = Some exampleB'.
Proof. vm_compute. done. Qed.

Example exampleClient_handshake :
  SynchronizedSent
    (deliverAll [exampleConfigure false 42; exampleOther; exampleSceneClock true;
                 exampleConfigure true 43] exampleClient)
  = [(9, mkMsgSynchronized 42, ReliableUnordered)].
Proof. reflexivity. Qed.

(** * Witnesses and counterexamples *)

#[local] Existing Instance ExampleCollaborators.

Lemma exampleABC_NoDup : NoDup (trackedComponents_ exampleABC).
Proof. decide_by_computation. Qed.

Lemma exampleABC_acyclic : AcyclicParents exampleABC.
Proof.
  apply (acyclic_by_rank _ (fun o => (GetNetworkId o).1)).
  intros c p Hc. vm_compute in Hc.
  repeat (apply elem_of_cons in Hc as [->|Hc]); [| | |by apply elem_of_nil in Hc].
  all: vm_compute; intros [= <-]; lia.
Qed.

(** C1 on an example: Configure alone, both messages without clock
    synchronization, and the full handshake followed by a second Configure. *)
Lemma client_handshake_witness :
  GetClientReplica (deliverAll [exampleConfigure true 42; exampleOther] exampleClient) = None
  ∧ SynchronizedSent
      (deliverAll [exampleConfigure false 42; exampleSceneClock false] exampleClient)
    = SynchronizedSent exampleClient
  ∧ SynchronizedSent
      (deliverAll ([exampleConfigure false 42; exampleOther]
                   ++ exampleSceneClock true :: [exampleConfigure true 43]) exampleClient)
    = SynchronizedSent exampleClient ++ [(9, mkMsgSynchronized 42, ReliableUnordered)].
Proof.
  assert (client_ exampleClient = Some (mkClientData 9 None None None None)) as H0
    by (vm_compute; reflexivity).
  destruct (client_handshake_synchronizes_exactly_once exampleClient 9 H0)
    as (H1 & H2 & H3).
  split; [|split].
  - apply H1. left. repeat constructor; discriminate.
  - apply H2. repeat constructor.
  - apply (H3 [exampleConfigure false 42; exampleOther] (exampleSceneClock true)
              [exampleConfigure true 43] (mkMsgConfigure 42 [60]) 1000).
    + vm_compute; reflexivity.
    + right; reflexivity.
    + reflexivity.
    + reflexivity.
    + reflexivity.
Defined.

(** C2 on the example registry. *)
Lemma GetSortedNetworkObjects_witness :
  ∃ sorted,
    GetSortedNetworkObjects exampleABC = Some sorted
    ∧ sorted ≡ₚ trackedComponents_ exampleABC
    ∧ before exampleA exampleB sorted
    ∧ before exampleA exampleC sorted.
Proof.
  destruct (GetSortedNetworkObjects_lists_parents_first exampleABC
              exampleABC_NoDup exampleABC_acyclic)
    as (sorted & Hrun & _ & Hperm & _ & Hparent & Hanc).
  exists sorted. split; [done|]. split; [done|]. split.
  - apply Hparent; [|reflexivity].
    vm_compute. apply elem_of_cons. by left.
  - apply Hanc.
    + vm_compute. apply elem_of_cons. right. apply elem_of_cons. by left.
    + apply (Ancestor_step _ _ exampleB); [reflexivity|].
      apply Ancestor_parent. reflexivity.
Defined.

(** C3 on an example: B has been removed, its flag is still set and its
    index resolves to nothing. *)
Lemma UpdateNetworkObjects_witness :
  networkObjectsDirty_
    (UpdateNetworkObjects (OnComponentRemoved exampleB exampleABC)) !! 2
  = Some false.
Proof.
  apply (UpdateNetworkObjects_clears_all_and_is_idempotent
           (OnComponentRemoved exampleB exampleABC)).
  - reflexivity.
  - reflexivity.
Defined.

(** C4: [RemoveAllNetworkObjects], and [StartClient] through it, take the
    flags of A, B and C out of the dirty set. *)
Lemma RemoveAllNetworkObjects_clears_flags :
  ClearsAFlag Call_RemoveAllNetworkObjects exampleABC
  ∧ ClearsAFlag (Call_StartClient 9) exampleABC
  ∧ ¬ @OnlyUpdateNetworkObjectsClearsFlags ExampleCollaborators.
Proof.
  assert (ClearsAFlag Call_RemoveAllNetworkObjects exampleABC) as H1.
  { exists 1. split; [reflexivity|]. intros H. vm_compute in H. discriminate. }
  split; [done|]. split.
  - exists 1. split; [reflexivity|]. intros H. vm_compute in H. discriminate.
  - intros Hclaim. destruct (Hclaim _ _ H1) as [?|[? ?]]; discriminate.
Qed.

Lemma only_update_and_remove_all_clear_flags_witness :
  FlushesFlags (Call_StartClient 9)
  ∧ networkObjectsDirty_ (call Call_RemoveAllNetworkObjects exampleABC) = [].
Proof.
  destruct (only_update_and_remove_all_clear_flags (Call_StartClient 9) exampleABC)
    as (H1 & H2 & _).
  split; [|exact H2]. apply H1.
  exists 1. split; [reflexivity|]. intros H. vm_compute in H. discriminate.
Defined.


(** C6 on an example: the pointer to B after B' has taken its slot, and B'
    itself. *)
Lemma QueueNetworkObjectUpdate_witness :
  networkObjectsDirty_
    (QueueNetworkObjectUpdate exampleB (UpdateNetworkObjects exampleReused))
  = networkObjectsDirty_ (UpdateNetworkObjects exampleReused)
  ∧ IsDirty (QueueNetworkObjectUpdate exampleB' (UpdateNetworkObjects exampleReused)) 2.
Proof.
  split.
  - apply (QueueNetworkObjectUpdate_guards_stale_pointers exampleB
             (UpdateNetworkObjects exampleReused)).
    vm_compute. discriminate.
  - apply (QueueNetworkObjectUpdate_guards_stale_pointers exampleB'
             (UpdateNetworkObjects exampleReused)).
    + vm_compute. reflexivity.
    + apply DirtyCovers_Forall. decide_by_computation.
Defined.



(** C8: the client holds settings and clock, its connection reports a
    synchronized clock, and the string still names the server scene time. *)
Lemma debug_info_names_scene_time_that_has_arrived :
  client_ (deliverAll [exampleConfigure false 42; exampleSceneClock false] exampleClient)
  = Some exampleWaiting
  ∧ GetUninitializedClientDebugInfo (Some (mkConnection 9 true)) exampleWaiting
    = "Connecting... Waiting for server scene time..."%string
  ∧ ¬ NamesExactlyOutstanding (mkConnection 9 true) exampleWaiting.
Proof.
  split; [vm_compute; reflexivity|]. split; [reflexivity|].
  intros (_ & _ & [H _]).
  assert (initialClock_ exampleWaiting = None) as Hnone by (apply H; reflexivity).
  discriminate Hnone.
Qed.


(** C10 on examples: dropping the client's connection, and another one. *)
Lemma DropConnection_witness :
  ModeState (DropConnection 9 exampleClientWithObjects)
  = (Standalone, mkStandaloneData ∅, None, None)
  ∧ DropConnection 8 exampleClientWithObjects = exampleClientWithObjects.
Proof.
  split.
  - apply (DropConnection_of_the_client_connection_goes_standalone 9
             exampleClientWithObjects) with (c := mkClientData 9 None None None None).
    + reflexivity.
    + vm_compute. reflexivity.
    + reflexivity.
  - apply (DropConnection_of_the_client_connection_goes_standalone 8
             exampleClientWithObjects) with (c := mkClientData 9 None None None None).
    + reflexivity.
    + vm_compute. reflexivity.
    + discriminate.
Defined.

(** ** The further properties on the example states *)

#[local] Existing Instance ExampleSettingQueries.

(** Splits a membership in a registry of the examples into its cases. *)
Ltac example_elements H :=
  vm_compute in H;
  repeat (apply elem_of_cons in H as [->|H]); [..|by apply elem_of_nil in H].

Lemma exampleABC_Reachable : Reachable exampleABC.
Proof. apply Reachable_addAll; [apply Reachable_new|decide_by_computation]. Qed.

Lemma exampleClient_Reachable : Reachable exampleClient.
Proof. apply Reachable_StartClient, exampleABC_Reachable. Qed.

Lemma exampleReused_Runs : Runs exampleReused.
Proof.
  apply Runs_OnComponentAdded; [apply Runs_OnComponentRemoved|].
  - apply Runs_addAll; [apply Runs_new|decide_by_computation..].
  - vm_compute. apply elem_of_cons. by left.
  - intros x Hx. example_elements Hx; split; vm_compute; lia.
Qed.

Lemma exampleReused_Reachable : Reachable exampleReused.
Proof.
  apply Reachable_OnComponentAdded;
    [apply Reachable_OnComponentRemoved, exampleABC_Reachable|].
  intros x Hx. example_elements Hx; vm_compute; lia.
Qed.

(** X1 on the example client. *)
Lemma HandleSceneUpdate_assertions_witness : ModeInvariant exampleClient.
Proof. apply (HandleSceneUpdate_assertions_hold exampleClient exampleClient_Reachable). Defined.

(** X2 on examples: the client holds the clock, and a Configure message
    arrives over the connection, now synchronized; the client that this
    gives, which has a replica, holds settings and clock. *)
Lemma handshake_optionals_witness :
  GetClientReplica
    (ProcessMessage (C := ExampleCollaborators) (mkConnection 9 true) MSG_CONFIGURE
       [42; 60] exampleClientWithClock).2
  = Some (@MakeClientReplica ExampleCollaborators 7 9 1000 [60])
  ∧ HandshakeInvariant (deliver exampleClientWithClock (exampleConfigure true 42)).
Proof.
  assert (Reachable exampleClientWithClock) as Hr
    by apply Reachable_deliver, exampleClient_Reachable.
  split.
  - destruct (handshake_optionals_are_set_when_dereferenced (C := ExampleCollaborators)
                exampleClientWithClock Hr) as (_ & H).
    destruct (H (mkConnection 9 true) [42; 60]
                (@mkClientData ExampleCollaborators 9 None (Some 1000) None None))
      as (H1 & _); [reflexivity..|].
    apply (H1 1000). reflexivity.
  - apply (handshake_optionals_are_set_when_dereferenced (C := ExampleCollaborators)).
    by apply Reachable_deliver.
Defined.

(** X3 on the example registry whose slot 2 has been reused. *)
Lemma registered_objects_have_a_flag_witness : DirtyCovers exampleReused.
Proof.
  apply (registered_objects_have_a_flag exampleReused exampleReused_Reachable).
Defined.

(** X4 on the example with a cycle: A is listed, D and F are not. *)
Lemma GetSortedNetworkObjects_cycle_witness :
  ∃ sorted,
    GetSortedNetworkObjects exampleCyclic = Some sorted
    ∧ exampleA ∈ sorted
    ∧ (exampleD ∉ sorted)
    ∧ (exampleF ∉ sorted).
Proof.
  assert (NoDup (trackedComponents_ exampleCyclic)) as Hnd by decide_by_computation.
  destruct (GetSortedNetworkObjects_leaves_out_cycles exampleCyclic Hnd)
    as (sorted & Hrun & _ & _ & Hiff & _).
  assert (Ancestor exampleCyclic exampleD exampleD) as Hcycle.
  { apply (Ancestor_step _ _ exampleE); [reflexivity|].
    apply Ancestor_parent. reflexivity. }
  exists sorted. split; [done|]. split; [|split].
  - apply Hiff. split.
    + vm_compute. apply elem_of_cons. by left.
    + assert (∀ a, ¬ Ancestor exampleCyclic a exampleA) as Hroot.
      { intros a H. inversion H as [d Hp|p d Hp _]; vm_compute in Hp; discriminate. }
      intros (a & Hcyc & [->|Hanc]); by eapply Hroot.
  - intros HD. apply Hiff in HD as [_ Hfree]. apply Hfree.
    exists exampleD. split; [done|by left].
  - intros HF. apply Hiff in HF as [_ Hfree]. apply Hfree.
    exists exampleD. split; [done|]. right. apply Ancestor_parent. reflexivity.
Defined.

(** X8 on an example: with all flags clear, the removal of C flags its
    parent B. *)
Lemma OnComponentRemoved_flags_the_parent_witness :
  IsDirty (OnComponentRemoved exampleC (UpdateNetworkObjects exampleABC)) 2.
Proof.
  assert (DirtyCovers (UpdateNetworkObjects exampleABC)) as Hcov.
  { apply DirtyCovers_Forall. decide_by_computation. }
  destruct (OnComponentRemoved_flags_the_parent exampleC
              (UpdateNetworkObjects exampleABC) Hcov) as (_ & _ & _ & H & _).
  apply (H exampleB); [vm_compute; reflexivity|discriminate].
Defined.

(** X9 on an example: the client with objects A and B goes standalone. *)
Lemma StartStandalone_witness :
  countInitializeStandalone exampleA
    (callsSince exampleClientWithObjects
       (OnSceneUpdate (C := ExampleCollaborators) 5
          (StartStandalone exampleClientWithObjects)))
  = 1.
Proof.
  assert (NoDup (trackedComponents_ exampleClientWithObjects)) as Hnd
    by decide_by_computation.
  pose proof (StartStandalone_initializes_each_object_once (C := ExampleCollaborators)
                5 exampleA exampleClientWithObjects Hnd) as (_ & _ & _ & H & _).
  rewrite decide_True in H; [exact H|].
  vm_compute. apply elem_of_cons. by left.
Defined.

(** X10 on the example registry whose slot 2 has been reused. *)
Lemma recently_added_objects_witness :
  ∃ o, GetNetworkObject exampleReused (GetNetworkId exampleB') true = Some o
       ∧ GetNetworkId o = GetNetworkId exampleB'.
Proof.
  apply (recently_added_objects_are_found (C := ExampleCollaborators) 5
           exampleReused exampleReused_Runs).
  decide_by_computation.
Defined.

(** X11 on the example server. *)
Lemma queries_witness :
  ∃ s, server_ exampleServer = Some s
       ∧ GetUpdateFrequency exampleServer = Server_GetUpdateFrequency s
       ∧ GetDebugInfo None exampleServer = Server_GetDebugInfo s.
Proof.
  assert (Reachable exampleServer) as Hr
    by apply Reachable_StartServer, exampleABC_Reachable.
  destruct (queries_answer_for_the_mode None exampleServer Hr) as (_ & H & _).
  destruct H as (s & H1 & H2 & _ & _ & H3); [reflexivity|].
  by exists s.
Defined.

(** X13 on the example registry. *)
Lemma RemoveAllNetworkObjects_announces_witness :
  removedSignals (callsSince exampleABC (RemoveAllNetworkObjects exampleABC))
  ≡ₚ trackedComponents_ exampleABC.
Proof.
  apply (RemoveAllNetworkObjects_announces_every_object 9 exampleABC).
  decide_by_computation.
Defined.

(** * DebugRenderer: properties *)

Section DebugGeometryProperties.

Context {G : Numbers}.

Lemma DebugRenderer_eta (r : DebugRenderer) :
  mkDebugRenderer (lines_ r) (noDepthLines_ r) (triangles_ r) (noDepthTriangles_ r) = r.
Proof. by destruct r. Qed.

Lemma withLines_nil depthTest (r : DebugRenderer) : withLines [] depthTest r = r.
Proof.
  unfold withLines. rewrite take_nil, !app_nil_r. destruct depthTest;
    apply DebugRenderer_eta.
Qed.

Lemma AddLine_withLines start end' color depthTest (r : DebugRenderer) :
  AddLine start end' color depthTest r
  = withLines [mkDebugLine start end' color] depthTest r.
Proof.
  unfold AddLine, withLines, lineRoom.
  destruct (Z.leb_spec MAX_LINES (size (lines_ r) + size (noDepthLines_ r))) as [Hfull|Hroom].
  - replace (Z.to_nat _) with 0 by lia. simpl. rewrite !app_nil_r.
    destruct depthTest; by rewrite DebugRenderer_eta.
  - destruct (Z.to_nat _) as [|n] eqn:E; [lia|]. simpl. by rewrite take_nil.
Qed.

Lemma AddTriangle_withTriangles v1 v2 v3 color depthTest (r : DebugRenderer) :
  AddTriangle v1 v2 v3 color depthTest r
  = withTriangles [mkDebugTriangle v1 v2 v3 color] depthTest r.
Proof.
  unfold AddTriangle, withTriangles, triangleRoom.
  destruct (Z.leb_spec MAX_TRIANGLES (size (triangles_ r) + size (noDepthTriangles_ r)))
    as [Hfull|Hroom].
  - replace (Z.to_nat _) with 0 by lia. simpl. rewrite !app_nil_r.
    destruct depthTest; by rewrite DebugRenderer_eta.
  - destruct (Z.to_nat _) as [|n] eqn:E; [lia|]. simpl. by rewrite take_nil.
Qed.

Lemma take_take_room {A} (n m : nat) (l1 l2 : list A) :
  m = n - length (take n l1) →
  take n l1 ++ take m l2 = take n (l1 ++ l2).
Proof.
  intros ->. rewrite take_app, length_take. f_equal.
  destruct (Nat.le_gt_cases n (length l1)) as [Hle|Hgt].
  - replace (n - n `min` length l1) with 0 by lia.
    by replace (n - length l1) with 0 by lia.
  - f_equal. lia.
Qed.

Lemma withLines_withLines ls1 ls2 depthTest (r : DebugRenderer) :
  withLines ls2 depthTest (withLines ls1 depthTest r) = withLines (ls1 ++ ls2) depthTest r.
Proof.
  unfold withLines, lineRoom, size.
  destruct depthTest; simpl; rewrite <- app_assoc; f_equal; try f_equal;
    apply take_take_room; rewrite length_app; lia.
Qed.

Lemma withTriangles_withTriangles ts1 ts2 depthTest (r : DebugRenderer) :
  withTriangles ts2 depthTest (withTriangles ts1 depthTest r)
  = withTriangles (ts1 ++ ts2) depthTest r.
Proof.
  unfold withTriangles, triangleRoom, size.
  destruct depthTest; simpl; rewrite <- app_assoc; f_equal; try f_equal;
    apply take_take_room; rewrite length_app; lia.
Qed.

Lemma AddPolygon_withTriangles v1 v2 v3 v4 color depthTest (r : DebugRenderer) :
  AddPolygon v1 v2 v3 v4 color depthTest r
  = withTriangles (polygonTriangles color (v1, v2, v3, v4)) depthTest r.
Proof.
  unfold AddPolygon. cbv zeta.
  by rewrite !AddTriangle_withTriangles, withTriangles_withTriangles.
Qed.

Lemma withLines_WithinCaps ls depthTest (r : DebugRenderer) :
  WithinCaps r → WithinCaps (withLines ls depthTest r).
Proof.
  unfold WithinCaps, withLines, lineRoom, size. intros [H1 H2].
  pose proof (firstn_le_length
                (Z.to_nat (MAX_LINES
                           - (Z.of_nat (length (lines_ r))
                              + Z.of_nat (length (noDepthLines_ r))))) ls) as Hlen.
  destruct depthTest; simpl; rewrite length_app; split; lia.
Qed.

Lemma withTriangles_WithinCaps ts depthTest (r : DebugRenderer) :
  WithinCaps r → WithinCaps (withTriangles ts depthTest r).
Proof.
  unfold WithinCaps, withTriangles, triangleRoom, size. intros [H1 H2].
  pose proof (firstn_le_length
                (Z.to_nat (MAX_TRIANGLES
                           - (Z.of_nat (length (triangles_ r))
                              + Z.of_nat (length (noDepthTriangles_ r))))) ts) as Hlen.
  destruct depthTest; simpl; rewrite length_app; split; lia.
Qed.

Lemma withLines_Keeps ls depthTest (r : DebugRenderer) : Keeps r (withLines ls depthTest r).
Proof.
  unfold Keeps, withLines. destruct depthTest; simpl; split_and!;
    try done; by apply prefix_app_r.
Qed.

Lemma withTriangles_Keeps ts depthTest (r : DebugRenderer) :
  Keeps r (withTriangles ts depthTest r).
Proof.
  unfold Keeps, withTriangles. destruct depthTest; simpl; split_and!;
    try done; by apply prefix_app_r.
Qed.

(** The lines of the box, in the order of the source. *)
Lemma AddBoundingBox_lines box color depthTest (r : DebugRenderer) :
  AddBoundingBox box color depthTest false r
  = withLines
      (map (fun e : Corner * Corner =>
              mkDebugLine (boxCorner box e.1) (boxCorner box e.2) (ToUInt color))
         [((false, false, false), (true, false, false));
          ((true, false, false), (true, true, false));
          ((true, true, false), (false, true, false));
          ((false, true, false), (false, false, false));
          ((false, false, true), (true, false, true));
          ((true, false, true), (true, true, true));
          ((true, true, true), (false, true, true));
          ((false, true, true), (false, false, true));
          ((false, false, false), (false, false, true));
          ((true, false, false), (true, false, true));
          ((true, true, false), (true, true, true));
          ((false, true, false), (false, true, true))])
      depthTest r.
Proof.
  destruct box as [[x0 y0 z0] [x1 y1 z1]].
  unfold AddBoundingBox. cbv zeta. simpl negb. cbv iota.
  by rewrite !AddLine_withLines, !withLines_withLines.
Qed.

Lemma AddBoundingBox_transform_lines box transform color depthTest (r : DebugRenderer) :
  AddBoundingBox_transform box transform color depthTest false r
  = withLines
      (map (fun e : Corner * Corner =>
              mkDebugLine (transform (boxCorner box e.1)) (transform (boxCorner box e.2))
                (ToUInt color))
         [((false, false, false), (true, false, false));
          ((true, false, false), (true, true, false));
          ((true, true, false), (false, true, false));
          ((false, true, false), (false, false, false));
          ((false, false, true), (true, false, true));
          ((true, false, true), (true, true, true));
          ((true, true, true), (false, true, true));
          ((false, true, true), (false, false, true));
          ((false, false, false), (false, false, true));
          ((true, false, false), (true, false, true));
          ((true, true, false), (true, true, true));
          ((false, true, false), (false, true, true))])
      depthTest r.
Proof.
  destruct box as [[x0 y0 z0] [x1 y1 z1]].
  unfold AddBoundingBox_transform. cbv zeta. simpl negb. cbv iota.
  by rewrite !AddLine_withLines, !withLines_withLines.
Qed.

Lemma AddBoundingBox_triangles box color depthTest (r : DebugRenderer) :
  AddBoundingBox box color depthTest true r
  = withTriangles
      (flat_map
         (fun q : Corner * Corner * Corner * Corner =>
            polygonTriangles (ToUInt color)
              (boxCorner box q.1.1.1, boxCorner box q.1.1.2, boxCorner box q.1.2,
               boxCorner box q.2))
         [((false, false, false), (true, false, false), (true, true, false),
           (false, true, false));
          ((false, false, true), (true, false, true), (true, true, true),
           (false, true, true));
          ((false, false, false), (false, false, true), (false, true, true),
           (false, true, false));
          ((true, false, false), (true, false, true), (true, true, true),
           (true, true, false));
          ((false, true, false), (true, true, false), (true, true, true),
           (false, true, true));
          ((false, false, false), (true, false, false), (true, false, true),
           (false, false, true))])
      depthTest r.
Proof.
  destruct box as [[x0 y0 z0] [x1 y1 z1]].
  unfold AddBoundingBox. cbv zeta. simpl negb. cbv iota.
  by rewrite !AddPolygon_withTriangles, !withTriangles_withTriangles.
Qed.

Lemma AddBoundingBox_transform_triangles box transform color depthTest
    (r : DebugRenderer) :
  AddBoundingBox_transform box transform color depthTest true r
  = withTriangles
      (flat_map
         (fun q : Corner * Corner * Corner * Corner =>
            polygonTriangles (ToUInt color)
              (transform (boxCorner box q.1.1.1), transform (boxCorner box q.1.1.2),
               transform (boxCorner box q.1.2), transform (boxCorner box q.2)))
         [((false, false, false), (true, false, false), (true, true, false),
           (false, true, false));
          ((false, false, true), (true, false, true), (true, true, true),
           (false, true, true));
          ((false, false, false), (false, false, true), (false, true, true),
           (false, true, false));
          ((true, false, false), (true, false, true), (true, true, true),
           (true, true, false));
          ((false, true, false), (true, true, false), (true, true, true),
           (false, true, true));
          ((false, false, false), (true, false, false), (true, false, true),
           (false, false, true))])
      depthTest r.
Proof.
  destruct box as [[x0 y0 z0] [x1 y1 z1]].
  unfold AddBoundingBox_transform. cbv zeta. simpl negb. cbv iota.
  by rewrite !AddPolygon_withTriangles, !withTriangles_withTriangles.
Qed.

Lemma AddFrustum_pairs frustum color depthTest (r : DebugRenderer) :
  AddFrustum frustum color depthTest r
  = withLines
      (map (fun e : nat * nat =>
              mkDebugLine (vertices_ frustum e.1) (vertices_ frustum e.2) (ToUInt color))
         [(0, 1); (1, 2); (2, 3); (3, 0); (4, 5); (5, 6); (6, 7); (7, 4);
          (0, 4); (1, 5); (2, 6); (3, 7)])
      depthTest r.
Proof.
  unfold AddFrustum. cbv zeta.
  by rewrite !AddLine_withLines, !withLines_withLines.
Qed.

Lemma AddFrustum_lines frustum color depthTest (r : DebugRenderer) :
  ∃ ls, AddFrustum frustum color depthTest r = withLines ls depthTest r.
Proof. eexists. apply AddFrustum_pairs. Qed.

(** ** The loop over a face *)

Lemma omap_lookup_seq {A} (l k : list A) :
  omap (fun j => (k ++ l) !! j) (seq (length k) (length l)) = l.
Proof.
  revert k. induction l as [|x l IH]; intros k; [done|].
  simpl. rewrite list_lookup_middle by done. f_equal.
  specialize (IH (k ++ [x])). rewrite length_app, <- app_assoc in IH. simpl in IH.
  by replace (length k + 1) with (S (length k)) in IH by lia.
Qed.

Lemma omap_pointwise {A B} (f g : A → option B) (l : list A) :
  (∀ x, f x = g x) → omap f l = omap g l.
Proof. intros H. induction l as [|x l IH]; [done|]. csimpl. by rewrite H, IH. Qed.

Lemma rotate_nat_add_1 j n : rotate_nat_add 1 j n = (j + 1) `mod` n.
Proof.
  unfold rotate_nat_add.
  rewrite <- (Nat2Z.inj_add 1 j), <- Nat2Z.inj_mod, Nat2Z.id. f_equal. lia.
Qed.

Lemma AddPolyhedron_face_lines color depthTest (r : DebugRenderer) face :
  AddPolyhedron_face color depthTest r face = withLines (faceLoop color face) depthTest r.
Proof.
  unfold AddPolyhedron_face, faceLoop. case_bool_decide as Hlen;
    [|by rewrite withLines_nil].
  set (g := fun j => match face !! j, face !! ((j + 1) `mod` length face) with
                     | Some a, Some b => Some (mkDebugLine a b color)
                     | _, _ => None
                     end).
  assert (∀ (js : list nat) (r : DebugRenderer),
            foldl (fun r j =>
                     match face !! j, face !! ((j + 1) `mod` length face) with
                     | Some a, Some b => AddLine a b color depthTest r
                     | _, _ => r
                     end) r js
            = withLines (omap g js) depthTest r) as Hloop.
  { induction js as [|j js IH]; intros r'; simpl; [by rewrite withLines_nil|].
    rewrite IH. unfold g at 2.
    destruct (face !! j) as [a|]; [|done].
    destruct (face !! ((j + 1) `mod` length face)) as [b|]; [|done].
    by rewrite AddLine_withLines, withLines_withLines. }
  rewrite Hloop. f_equal.
  set (Z := zip_with (fun a b => mkDebugLine a b color) face (rotate 1 face)).
  assert (length Z = length face) as HZ.
  { subst Z. rewrite length_zip_with, length_rotate. lia. }
  rewrite <- HZ at 1. rewrite <- (omap_lookup_seq Z []) at 2. simpl.
  apply omap_pointwise. intros j. subst g Z. simpl.
  rewrite lookup_zip_with.
  destruct (face !! j) as [a|] eqn:Ea; [|done]. simpl.
  rewrite lookup_rotate_r by (by eapply lookup_lt_Some).
  rewrite rotate_nat_add_1. by destruct (face !! ((j + 1) `mod` length face)).
Qed.

Lemma AddPolyhedron_lines poly color depthTest (r : DebugRenderer) :
  AddPolyhedron poly color depthTest r
  = withLines (flat_map (faceLoop (ToUInt color)) (faces_ poly)) depthTest r.
Proof.
  unfold AddPolyhedron. cbv zeta. generalize (faces_ poly). intros faces.
  revert r. induction faces as [|face faces IH]; intros r; simpl;
    [by rewrite withLines_nil|].
  by rewrite IH, AddPolyhedron_face_lines, withLines_withLines.
Qed.

(** Every call that adds geometry stores as much of a fixed batch of lines
    or of triangles as the cap allows. *)
Lemma draw_batch op (r : DebugRenderer) :
  op ≠ Draw_HandleEndFrame →
  ∃ depthTest,
    (∃ ls, draw op r = withLines ls depthTest r)
    ∨ (∃ ts, draw op r = withTriangles ts depthTest r).
Proof.
  intros Hop. destruct op; cbn [draw]; try done.
  - exists depthTest. left. eexists. apply AddLine_withLines.
  - exists depthTest. left. eexists. apply AddLine_withLines.
  - exists depthTest. right. eexists. apply AddTriangle_withTriangles.
  - exists depthTest. right. eexists. apply AddTriangle_withTriangles.
  - exists depthTest. right. eexists. apply AddPolygon_withTriangles.
  - exists depthTest. right. eexists. apply AddPolygon_withTriangles.
  - exists depthTest. destruct solid.
    + right. eexists. apply AddBoundingBox_triangles.
    + left. eexists. apply AddBoundingBox_lines.
  - exists depthTest. destruct solid.
    + right. eexists. apply AddBoundingBox_transform_triangles.
    + left. eexists. apply AddBoundingBox_transform_lines.
  - exists depthTest. left. apply AddFrustum_lines.
  - exists depthTest. left. eexists. apply AddPolyhedron_lines.
Qed.

Lemma draw_WithinCaps op (r : DebugRenderer) : WithinCaps r → WithinCaps (draw op r).
Proof.
  intros Hr.
  destruct op;
    try (match goal with
         | |- WithinCaps (draw ?o r) =>
             destruct (draw_batch o r) as (d & [(ls & ->)|(ts & ->)]);
             [done|by apply withLines_WithinCaps|by apply withTriangles_WithinCaps]
         end).
  unfold WithinCaps, MAX_LINES, MAX_TRIANGLES, size. simpl. lia.
Qed.

Lemma draw_Keeps op (r : DebugRenderer) :
  op ≠ Draw_HandleEndFrame → Keeps r (draw op r).
Proof.
  intros Hop. destruct (draw_batch op r Hop) as (d & [(ls & ->)|(ts & ->)]).
  - apply withLines_Keeps.
  - apply withTriangles_Keeps.
Qed.

(** X14: the debug geometry stays within its caps.  Whatever is drawn from
    the construction of the renderer on, the two line vectors together hold
    at most [MAX_LINES] lines and the two triangle vectors at most
    [MAX_TRIANGLES] triangles, and every call keeps it so.  A call other
    than [HandleEndFrame] drops and reorders nothing; at the cap [AddLine]
    and [AddTriangle] leave the renderer as it is.  [HandleEndFrame] leaves
    the renderer without content, and the line added next is stored. *)
Theorem debug_geometry_stays_within_the_caps
    (ops : list Drawing) (op : Drawing) (r : DebugRenderer) :
  WithinCaps (drawAll ops DebugRenderer_new)
  ∧ (WithinCaps r → WithinCaps (draw op r))
  ∧ (op ≠ Draw_HandleEndFrame → Keeps r (draw op r))
  ∧ ((MAX_LINES ≤ size (lines_ r) + size (noDepthLines_ r))%Z →
     ∀ start end' color depthTest, AddLine start end' color depthTest r = r)
  ∧ ((MAX_TRIANGLES ≤ size (triangles_ r) + size (noDepthTriangles_ r))%Z →
     ∀ v1 v2 v3 color depthTest, AddTriangle v1 v2 v3 color depthTest r = r)
  ∧ HasContent (HandleEndFrame r) = false
  ∧ (∀ start end' color depthTest,
       HasContent (AddLine start end' color depthTest (HandleEndFrame r)) = true
       ∧ lines_ (AddLine start end' color depthTest (HandleEndFrame r))
         ++ noDepthLines_ (AddLine start end' color depthTest (HandleEndFrame r))
         = [mkDebugLine start end' color]).
Proof.
  split_and!.
  - unfold drawAll.
    assert (WithinCaps DebugRenderer_new) as H0.
    { unfold WithinCaps, MAX_LINES, MAX_TRIANGLES, size. simpl. lia. }
    revert H0. generalize DebugRenderer_new.
    induction ops as [|o ops IH]; intros r0 H0; [done|].
    simpl. apply IH. by apply draw_WithinCaps.
  - apply draw_WithinCaps.
  - apply draw_Keeps.
  - intros Hfull start end' color depthTest. unfold AddLine.
    by rewrite (proj2 (Z.leb_le _ _) Hfull).
  - intros Hfull v1 v2 v3 color depthTest. unfold AddTriangle.
    by rewrite (proj2 (Z.leb_le _ _) Hfull).
  - done.
  - intros start end' color depthTest. by destruct depthTest.
Qed.

(** X15: the wireframe of a box has the twelve edges of the box, each once.
    [AddBoundingBox] without [solid] adds, in a fixed order and as far as
    the cap allows, one line for each of twelve pairs of corners; a pair of
    corners is among them, in one direction or the other, exactly when the
    corners differ on one axis, and no pair occurs in both directions or
    twice.  The overload with a transform adds the images of the same
    twelve lines. *)
Theorem AddBoundingBox_draws_the_edges_of_the_box
    (box : BoundingBox) (transform : Vector3 → Vector3) (color : Color)
    (depthTest : bool) (r : DebugRenderer) :
  ∃ edges : list (Corner * Corner),
    AddBoundingBox box color depthTest false r
    = withLines
        (map (fun e : Corner * Corner =>
                mkDebugLine (boxCorner box e.1) (boxCorner box e.2) (ToUInt color))
           edges) depthTest r
    ∧ AddBoundingBox_transform box transform color depthTest false r
      = withLines
          (map (fun e : Corner * Corner =>
                  mkDebugLine (transform (boxCorner box e.1))
                    (transform (boxCorner box e.2)) (ToUInt color))
             edges) depthTest r
    ∧ length edges = 12
    ∧ NoDup edges
    ∧ (∀ a b : Corner, axesApart a b = 1 ↔ (a, b) ∈ edges ∨ (b, a) ∈ edges)
    ∧ (∀ a b : Corner, (a, b) ∈ edges → (b, a) ∉ edges).
Proof.
  eexists. split; [apply AddBoundingBox_lines|].
  split; [apply AddBoundingBox_transform_lines|].
  split; [done|]. split; [decide_by_computation|]. split.
  - intros [[a1 a2] a3] [[b1 b2] b3].
    destruct a1, a2, a3, b1, b2, b3; decide_by_computation.
  - intros [[a1 a2] a3] [[b1 b2] b3].
    destruct a1, a2, a3, b1, b2, b3; decide_by_computation.
Qed.

(** X16: a solid box has its six sides, each once.  [AddBoundingBox] with
    [solid] adds, as far as the cap allows, the two triangles that
    [AddPolygon] makes of each of six quadrilaterals of corners; for every
    side of the box exactly one of the six goes around this side, its
    corners on the side and each one axis apart from the next.  The overload
    with a transform adds the images of the same triangles. *)
Theorem AddBoundingBox_solid_draws_the_sides_of_the_box
    (box : BoundingBox) (transform : Vector3 → Vector3) (color : Color)
    (depthTest : bool) (r : DebugRenderer) :
  ∃ sides : list (Corner * Corner * Corner * Corner),
    AddBoundingBox box color depthTest true r
    = withTriangles
        (flat_map
           (fun q : Corner * Corner * Corner * Corner =>
              polygonTriangles (ToUInt color)
                (boxCorner box q.1.1.1, boxCorner box q.1.1.2, boxCorner box q.1.2,
                 boxCorner box q.2))
           sides) depthTest r
    ∧ AddBoundingBox_transform box transform color depthTest true r
      = withTriangles
          (flat_map
             (fun q : Corner * Corner * Corner * Corner =>
                polygonTriangles (ToUInt color)
                  (transform (boxCorner box q.1.1.1), transform (boxCorner box q.1.1.2),
                   transform (boxCorner box q.1.2), transform (boxCorner box q.2)))
             sides) depthTest r
    ∧ length sides = 6
    ∧ (∀ axis side, axis < 3 →
         ∃ q, filter (fun q => aroundSide axis side q = true) sides = [q]).
Proof.
  eexists. split; [apply AddBoundingBox_triangles|].
  split; [apply AddBoundingBox_transform_triangles|].
  split; [done|].
  intros axis side Haxis.
  destruct axis as [|[|[|axis]]]; [| | |lia]; destruct side; by eexists.
Qed.

Lemma map_start_zip color (l k : list Vector3) :
  length l ≤ length k →
  map start_ (zip_with (fun a b => mkDebugLine a b color) l k) = l.
Proof.
  revert k. induction l as [|a l IH]; intros k Hlen; [done|].
  destruct k as [|b k]; simpl in *; [lia|]. f_equal. apply IH. lia.
Qed.

Lemma map_end_zip color (l k : list Vector3) :
  length k ≤ length l →
  map end_ (zip_with (fun a b => mkDebugLine a b color) l k) = k.
Proof.
  revert k. induction l as [|a l IH]; intros k Hlen.
  - destruct k; simpl in *; [done|lia].
  - destruct k as [|b k]; simpl in *; [done|]. f_equal. apply IH. lia.
Qed.

(** X17: the outline of a polyhedron is a closed loop around each face.
    [AddPolyhedron] adds, face after face and as far as the cap allows, the
    lines of one loop for each face with at least three vertices: one line
    starts at each vertex of the face, in the order of the face, and ends
    at the next vertex, the last line at the first vertex.  A face with
    fewer than three vertices adds nothing. *)
Theorem AddPolyhedron_draws_closed_loops
    (poly : Polyhedron) (color : Color) (depthTest : bool) (r : DebugRenderer) :
  AddPolyhedron poly color depthTest r
  = withLines (flat_map (faceLoop (ToUInt color)) (faces_ poly)) depthTest r
  ∧ (∀ c face, 3 ≤ length face →
       map start_ (faceLoop c face) = face
       ∧ map end_ (faceLoop c face) = rotate 1 face
       ∧ Forall (fun l => color_ l = c) (faceLoop c face))
  ∧ (∀ c face, length face < 3 → faceLoop c face = []).
Proof.
  split; [apply AddPolyhedron_lines|]. split.
  - intros c face Hlen. unfold faceLoop. rewrite bool_decide_eq_true_2 by done.
    split; [apply map_start_zip; rewrite length_rotate; lia|].
    split; [apply map_end_zip; rewrite length_rotate; lia|].
    apply Forall_forall. intros l Hl.
    apply elem_of_lookup_zip_with in Hl as (i & a & b & -> & _). done.
  - intros c face Hlen. unfold faceLoop. by rewrite bool_decide_eq_false_2 by lia.
Qed.

(** X18: the outline of a frustum joins its eight vertices by twelve lines.
    [AddFrustum] adds, in a fixed order and as far as the cap allows, one
    line for each of twelve pairs of vertex indices below 8, no pair twice
    or in both directions; every vertex is an end of exactly three of the
    lines: the two rings 0-1-2-3 and 4-5-6-7, and a line from each vertex
    of the first ring to the vertex of the second that is four further. *)
Theorem AddFrustum_draws_twelve_edges
    (frustum : Frustum) (color : Color) (depthTest : bool) (r : DebugRenderer) :
  ∃ edges : list (nat * nat),
    AddFrustum frustum color depthTest r
    = withLines
        (map (fun e : nat * nat =>
                mkDebugLine (vertices_ frustum e.1) (vertices_ frustum e.2)
                  (ToUInt color))
           edges) depthTest r
    ∧ length edges = 12
    ∧ NoDup edges
    ∧ Forall (fun e : nat * nat => e.1 < 8 ∧ e.2 < 8 ∧ (e.2, e.1) ∉ edges) edges
    ∧ (∀ v, v < 8 →
         length (filter (fun e : nat * nat => e.1 = v ∨ e.2 = v) edges) = 3)
    ∧ (∀ v, v < 4 →
         ((v, (v + 1) `mod` 4) ∈ edges)
         ∧ ((v + 4, (v + 1) `mod` 4 + 4) ∈ edges)
         ∧ ((v, v + 4) ∈ edges)).
Proof.
  eexists. split; [apply AddFrustum_pairs|].
  split; [done|]. split; [decide_by_computation|].
  split; [decide_by_computation|]. split.
  - intros v Hv. do 8 (destruct v as [|v]; [reflexivity|]). lia.
  - intros v Hv. do 4 (destruct v as [|v]; [split_and!; decide_by_computation|]). lia.
Qed.

End DebugGeometryProperties.

(** ** The renderer on the example box *)

Example exampleBox_wireframe :
  length (lines_ (AddBoundingBox (G := ExampleNumbers) exampleBox 255%N true false
                    DebugRenderer_new)) = 12
  ∧ length (noDepthTriangles_
              (AddBoundingBox (G := ExampleNumbers) exampleBox 255%N false true
                 DebugRenderer_new)) = 12.
Proof. split; reflexivity. Qed.

Example exampleFace_loop :
  map end_ (lines_ (AddPolyhedron (G := ExampleNumbers)
                      (mkPolyhedron [exampleFace; [exampleVector 5 5 5]]) 255%N true
                      DebugRenderer_new))
  = [exampleVector 1 0 0; exampleVector 1 1 0; exampleVector 0 1 0; exampleVector 0 0 0].
Proof. reflexivity. Qed.

